(** * Marching Cubes isosurface extraction (piston/marching_cube.h)

    A shallow embedding of the [marching_cube] class template: the two static
    case tables, the [classify_cell] and [isosurface_functor] functors, the
    Thrust primitives the extraction is built from, and [operator()] itself.

    Conventions of the embedding.
    - [int] values are integers of [Z]; the embedding describes executions in
      which no signed arithmetic overflows.  [/] and [%] are the truncating
      [Z.quot] and [Z.rem]; a zero divisor has no defined result.
    - [float] is IEEE 754 binary32, given by the parameterised specification
      of [SpecFloat] at precision 24 and maximal exponent 128, so NaN,
      infinities, signed zeros and subnormals are all present; arithmetic
      rounds to nearest even with gradual underflow (no flush to zero).
    - A vector is a [list]; an access through an iterator or a raw pointer is
      checked, and an access outside the vector has no defined result.
    - Computations that may have no defined result live in the [option]
      monad, [None] standing for undefined behaviour of the C++ program. *)

From Stdlib Require Import ZArith Lia Bool.
From Stdlib Require Import Floats.SpecFloat.
From stdpp Require Import base tactics option list numbers.

Open Scope Z_scope.

(** ** Binary32 arithmetic *)

Module Float32.

Definition prec : Z := 24.
Definition emax : Z := 128.

Definition float : Type := spec_float.

(** The C++ comparison [a > b]: false as soon as an operand is NaN. *)
Definition gt (a b : float) : bool := SFltb b a.
(** The C++ comparison [a <= b]: false as soon as an operand is NaN. *)
Definition le (a b : float) : bool := SFleb a b.
Definition lt (a b : float) : bool := SFltb a b.

Definition sub (a b : float) : float := SFsub prec emax a b.
Definition div (a b : float) : float := SFdiv prec emax a b.

(** A well-formed binary32 datum: the mantissa and exponent of a finite
    number are in canonical form and in range. *)
Definition valid (a : float) : bool := valid_binary prec emax a.

Definition is_zero (a : float) : bool :=
  match a with S754_zero _ => true | _ => false end.

Definition is_nan (a : float) : bool :=
  match a with S754_nan => true | _ => false end.

Definition zero : float := S754_zero false.
Definition one : float := S754_finite false 8388608 (-23).
Definition half : float := S754_finite false 8388608 (-24).
Definition two : float := S754_finite false 8388608 (-22).
Definition nan : float := S754_nan.

End Float32.

Abbreviation float := Float32.float.

(** ** Checked integer division and vector accesses *)

Definition int_quot (a b : Z) : option Z :=
  if decide (b = 0) then None else Some (Z.quot a b).

Definition int_rem (a b : Z) : option Z :=
  if decide (b = 0) then None else Some (Z.rem a b).

(** [*(base + i)] as a read. *)
Definition read {A : Type} (l : list A) (i : Z) : option A :=
  if decide (0 <= i) then l !! Z.to_nat i else None.

(** [*(base + i) = x]. *)
Definition write {A : Type} (l : list A) (i : Z) (x : A) : option (list A) :=
  if decide (0 <= i < Z.of_nat (length l)) then Some (<[Z.to_nat i := x]> l)
  else None.

(** The values of a [counting_iterator] range [CountingIterator(0)],
    ..., [CountingIterator(0) + n]. *)
Definition counting (n : Z) : list Z := Z.of_nat <$> seq 0 (Z.to_nat n).

Definition b2z (b : bool) : Z := if b then 1 else 0.

(** ** The static case tables *)

Module Tables.

Local Abbreviation X := (-1) (only parsing).

Definition triTable_array : list (list Z) :=
  [
   [X; X; X; X; X; X; X; X; X; X; X; X; X; X; X; X];
   [0; 8; 3; X; X; X; X; X; X; X; X; X; X; X; X; X];
   [0; 1; 9; X; X; X; X; X; X; X; X; X; X; X; X; X];
   [1; 8; 3; 9; 8; 1; X; X; X; X; X; X; X; X; X; X];
   [1; 2; 10; X; X; X; X; X; X; X; X; X; X; X; X; X];
   [0; 8; 3; 1; 2; 10; X; X; X; X; X; X; X; X; X; X];
   [9; 2; 10; 0; 2; 9; X; X; X; X; X; X; X; X; X; X];
   [2; 8; 3; 2; 10; 8; 10; 9; 8; X; X; X; X; X; X; X];
   [3; 11; 2; X; X; X; X; X; X; X; X; X; X; X; X; X];
   [0; 11; 2; 8; 11; 0; X; X; X; X; X; X; X; X; X; X];
   [1; 9; 0; 2; 3; 11; X; X; X; X; X; X; X; X; X; X];
   [1; 11; 2; 1; 9; 11; 9; 8; 11; X; X; X; X; X; X; X];
   [3; 10; 1; 11; 10; 3; X; X; X; X; X; X; X; X; X; X];
   [0; 10; 1; 0; 8; 10; 8; 11; 10; X; X; X; X; X; X; X];
   [3; 9; 0; 3; 11; 9; 11; 10; 9; X; X; X; X; X; X; X];
   [9; 8; 10; 10; 8; 11; X; X; X; X; X; X; X; X; X; X];
   [4; 7; 8; X; X; X; X; X; X; X; X; X; X; X; X; X];
   [4; 3; 0; 7; 3; 4; X; X; X; X; X; X; X; X; X; X];
   [0; 1; 9; 8; 4; 7; X; X; X; X; X; X; X; X; X; X];
   [4; 1; 9; 4; 7; 1; 7; 3; 1; X; X; X; X; X; X; X];
   [1; 2; 10; 8; 4; 7; X; X; X; X; X; X; X; X; X; X];
   [3; 4; 7; 3; 0; 4; 1; 2; 10; X; X; X; X; X; X; X];
   [9; 2; 10; 9; 0; 2; 8; 4; 7; X; X; X; X; X; X; X];
   [2; 10; 9; 2; 9; 7; 2; 7; 3; 7; 9; 4; X; X; X; X];
   [8; 4; 7; 3; 11; 2; X; X; X; X; X; X; X; X; X; X];
   [11; 4; 7; 11; 2; 4; 2; 0; 4; X; X; X; X; X; X; X];
   [9; 0; 1; 8; 4; 7; 2; 3; 11; X; X; X; X; X; X; X];
   [4; 7; 11; 9; 4; 11; 9; 11; 2; 9; 2; 1; X; X; X; X];
   [3; 10; 1; 3; 11; 10; 7; 8; 4; X; X; X; X; X; X; X];
   [1; 11; 10; 1; 4; 11; 1; 0; 4; 7; 11; 4; X; X; X; X];
   [4; 7; 8; 9; 0; 11; 9; 11; 10; 11; 0; 3; X; X; X; X];
   [4; 7; 11; 4; 11; 9; 9; 11; 10; X; X; X; X; X; X; X];
   [9; 5; 4; X; X; X; X; X; X; X; X; X; X; X; X; X];
   [9; 5; 4; 0; 8; 3; X; X; X; X; X; X; X; X; X; X];
   [0; 5; 4; 1; 5; 0; X; X; X; X; X; X; X; X; X; X];
   [8; 5; 4; 8; 3; 5; 3; 1; 5; X; X; X; X; X; X; X];
   [1; 2; 10; 9; 5; 4; X; X; X; X; X; X; X; X; X; X];
   [3; 0; 8; 1; 2; 10; 4; 9; 5; X; X; X; X; X; X; X];
   [5; 2; 10; 5; 4; 2; 4; 0; 2; X; X; X; X; X; X; X];
   [2; 10; 5; 3; 2; 5; 3; 5; 4; 3; 4; 8; X; X; X; X];
   [9; 5; 4; 2; 3; 11; X; X; X; X; X; X; X; X; X; X];
   [0; 11; 2; 0; 8; 11; 4; 9; 5; X; X; X; X; X; X; X];
   [0; 5; 4; 0; 1; 5; 2; 3; 11; X; X; X; X; X; X; X];
   [2; 1; 5; 2; 5; 8; 2; 8; 11; 4; 8; 5; X; X; X; X];
   [10; 3; 11; 10; 1; 3; 9; 5; 4; X; X; X; X; X; X; X];
   [4; 9; 5; 0; 8; 1; 8; 10; 1; 8; 11; 10; X; X; X; X];
   [5; 4; 0; 5; 0; 11; 5; 11; 10; 11; 0; 3; X; X; X; X];
   [5; 4; 8; 5; 8; 10; 10; 8; 11; X; X; X; X; X; X; X];
   [9; 7; 8; 5; 7; 9; X; X; X; X; X; X; X; X; X; X];
   [9; 3; 0; 9; 5; 3; 5; 7; 3; X; X; X; X; X; X; X];
   [0; 7; 8; 0; 1; 7; 1; 5; 7; X; X; X; X; X; X; X];
   [1; 5; 3; 3; 5; 7; X; X; X; X; X; X; X; X; X; X];
   [9; 7; 8; 9; 5; 7; 10; 1; 2; X; X; X; X; X; X; X];
   [10; 1; 2; 9; 5; 0; 5; 3; 0; 5; 7; 3; X; X; X; X];
   [8; 0; 2; 8; 2; 5; 8; 5; 7; 10; 5; 2; X; X; X; X];
   [2; 10; 5; 2; 5; 3; 3; 5; 7; X; X; X; X; X; X; X];
   [7; 9; 5; 7; 8; 9; 3; 11; 2; X; X; X; X; X; X; X];
   [9; 5; 7; 9; 7; 2; 9; 2; 0; 2; 7; 11; X; X; X; X];
   [2; 3; 11; 0; 1; 8; 1; 7; 8; 1; 5; 7; X; X; X; X];
   [11; 2; 1; 11; 1; 7; 7; 1; 5; X; X; X; X; X; X; X];
   [9; 5; 8; 8; 5; 7; 10; 1; 3; 10; 3; 11; X; X; X; X];
   [5; 7; 0; 5; 0; 9; 7; 11; 0; 1; 0; 10; 11; 10; 0; X];
   [11; 10; 0; 11; 0; 3; 10; 5; 0; 8; 0; 7; 5; 7; 0; X];
   [11; 10; 5; 7; 11; 5; X; X; X; X; X; X; X; X; X; X];
   [10; 6; 5; X; X; X; X; X; X; X; X; X; X; X; X; X];
   [0; 8; 3; 5; 10; 6; X; X; X; X; X; X; X; X; X; X];
   [9; 0; 1; 5; 10; 6; X; X; X; X; X; X; X; X; X; X];
   [1; 8; 3; 1; 9; 8; 5; 10; 6; X; X; X; X; X; X; X];
   [1; 6; 5; 2; 6; 1; X; X; X; X; X; X; X; X; X; X];
   [1; 6; 5; 1; 2; 6; 3; 0; 8; X; X; X; X; X; X; X];
   [9; 6; 5; 9; 0; 6; 0; 2; 6; X; X; X; X; X; X; X];
   [5; 9; 8; 5; 8; 2; 5; 2; 6; 3; 2; 8; X; X; X; X];
   [2; 3; 11; 10; 6; 5; X; X; X; X; X; X; X; X; X; X];
   [11; 0; 8; 11; 2; 0; 10; 6; 5; X; X; X; X; X; X; X];
   [0; 1; 9; 2; 3; 11; 5; 10; 6; X; X; X; X; X; X; X];
   [5; 10; 6; 1; 9; 2; 9; 11; 2; 9; 8; 11; X; X; X; X];
   [6; 3; 11; 6; 5; 3; 5; 1; 3; X; X; X; X; X; X; X];
   [0; 8; 11; 0; 11; 5; 0; 5; 1; 5; 11; 6; X; X; X; X];
   [3; 11; 6; 0; 3; 6; 0; 6; 5; 0; 5; 9; X; X; X; X];
   [6; 5; 9; 6; 9; 11; 11; 9; 8; X; X; X; X; X; X; X];
   [5; 10; 6; 4; 7; 8; X; X; X; X; X; X; X; X; X; X];
   [4; 3; 0; 4; 7; 3; 6; 5; 10; X; X; X; X; X; X; X];
   [1; 9; 0; 5; 10; 6; 8; 4; 7; X; X; X; X; X; X; X];
   [10; 6; 5; 1; 9; 7; 1; 7; 3; 7; 9; 4; X; X; X; X];
   [6; 1; 2; 6; 5; 1; 4; 7; 8; X; X; X; X; X; X; X];
   [1; 2; 5; 5; 2; 6; 3; 0; 4; 3; 4; 7; X; X; X; X];
   [8; 4; 7; 9; 0; 5; 0; 6; 5; 0; 2; 6; X; X; X; X];
   [7; 3; 9; 7; 9; 4; 3; 2; 9; 5; 9; 6; 2; 6; 9; X];
   [3; 11; 2; 7; 8; 4; 10; 6; 5; X; X; X; X; X; X; X];
   [5; 10; 6; 4; 7; 2; 4; 2; 0; 2; 7; 11; X; X; X; X];
   [0; 1; 9; 4; 7; 8; 2; 3; 11; 5; 10; 6; X; X; X; X];
   [9; 2; 1; 9; 11; 2; 9; 4; 11; 7; 11; 4; 5; 10; 6; X];
   [8; 4; 7; 3; 11; 5; 3; 5; 1; 5; 11; 6; X; X; X; X];
   [5; 1; 11; 5; 11; 6; 1; 0; 11; 7; 11; 4; 0; 4; 11; X];
   [0; 5; 9; 0; 6; 5; 0; 3; 6; 11; 6; 3; 8; 4; 7; X];
   [6; 5; 9; 6; 9; 11; 4; 7; 9; 7; 11; 9; X; X; X; X];
   [10; 4; 9; 6; 4; 10; X; X; X; X; X; X; X; X; X; X];
   [4; 10; 6; 4; 9; 10; 0; 8; 3; X; X; X; X; X; X; X];
   [10; 0; 1; 10; 6; 0; 6; 4; 0; X; X; X; X; X; X; X];
   [8; 3; 1; 8; 1; 6; 8; 6; 4; 6; 1; 10; X; X; X; X];
   [1; 4; 9; 1; 2; 4; 2; 6; 4; X; X; X; X; X; X; X];
   [3; 0; 8; 1; 2; 9; 2; 4; 9; 2; 6; 4; X; X; X; X];
   [0; 2; 4; 4; 2; 6; X; X; X; X; X; X; X; X; X; X];
   [8; 3; 2; 8; 2; 4; 4; 2; 6; X; X; X; X; X; X; X];
   [10; 4; 9; 10; 6; 4; 11; 2; 3; X; X; X; X; X; X; X];
   [0; 8; 2; 2; 8; 11; 4; 9; 10; 4; 10; 6; X; X; X; X];
   [3; 11; 2; 0; 1; 6; 0; 6; 4; 6; 1; 10; X; X; X; X];
   [6; 4; 1; 6; 1; 10; 4; 8; 1; 2; 1; 11; 8; 11; 1; X];
   [9; 6; 4; 9; 3; 6; 9; 1; 3; 11; 6; 3; X; X; X; X];
   [8; 11; 1; 8; 1; 0; 11; 6; 1; 9; 1; 4; 6; 4; 1; X];
   [3; 11; 6; 3; 6; 0; 0; 6; 4; X; X; X; X; X; X; X];
   [6; 4; 8; 11; 6; 8; X; X; X; X; X; X; X; X; X; X];
   [7; 10; 6; 7; 8; 10; 8; 9; 10; X; X; X; X; X; X; X];
   [0; 7; 3; 0; 10; 7; 0; 9; 10; 6; 7; 10; X; X; X; X];
   [10; 6; 7; 1; 10; 7; 1; 7; 8; 1; 8; 0; X; X; X; X];
   [10; 6; 7; 10; 7; 1; 1; 7; 3; X; X; X; X; X; X; X];
   [1; 2; 6; 1; 6; 8; 1; 8; 9; 8; 6; 7; X; X; X; X];
   [2; 6; 9; 2; 9; 1; 6; 7; 9; 0; 9; 3; 7; 3; 9; X];
   [7; 8; 0; 7; 0; 6; 6; 0; 2; X; X; X; X; X; X; X];
   [7; 3; 2; 6; 7; 2; X; X; X; X; X; X; X; X; X; X];
   [2; 3; 11; 10; 6; 8; 10; 8; 9; 8; 6; 7; X; X; X; X];
   [2; 0; 7; 2; 7; 11; 0; 9; 7; 6; 7; 10; 9; 10; 7; X];
   [1; 8; 0; 1; 7; 8; 1; 10; 7; 6; 7; 10; 2; 3; 11; X];
   [11; 2; 1; 11; 1; 7; 10; 6; 1; 6; 7; 1; X; X; X; X];
   [8; 9; 6; 8; 6; 7; 9; 1; 6; 11; 6; 3; 1; 3; 6; X];
   [0; 9; 1; 11; 6; 7; X; X; X; X; X; X; X; X; X; X];
   [7; 8; 0; 7; 0; 6; 3; 11; 0; 11; 6; 0; X; X; X; X];
   [7; 11; 6; X; X; X; X; X; X; X; X; X; X; X; X; X];
   [7; 6; 11; X; X; X; X; X; X; X; X; X; X; X; X; X];
   [3; 0; 8; 11; 7; 6; X; X; X; X; X; X; X; X; X; X];
   [0; 1; 9; 11; 7; 6; X; X; X; X; X; X; X; X; X; X];
   [8; 1; 9; 8; 3; 1; 11; 7; 6; X; X; X; X; X; X; X];
   [10; 1; 2; 6; 11; 7; X; X; X; X; X; X; X; X; X; X];
   [1; 2; 10; 3; 0; 8; 6; 11; 7; X; X; X; X; X; X; X];
   [2; 9; 0; 2; 10; 9; 6; 11; 7; X; X; X; X; X; X; X];
   [6; 11; 7; 2; 10; 3; 10; 8; 3; 10; 9; 8; X; X; X; X];
   [7; 2; 3; 6; 2; 7; X; X; X; X; X; X; X; X; X; X];
   [7; 0; 8; 7; 6; 0; 6; 2; 0; X; X; X; X; X; X; X];
   [2; 7; 6; 2; 3; 7; 0; 1; 9; X; X; X; X; X; X; X];
   [1; 6; 2; 1; 8; 6; 1; 9; 8; 8; 7; 6; X; X; X; X];
   [10; 7; 6; 10; 1; 7; 1; 3; 7; X; X; X; X; X; X; X];
   [10; 7; 6; 1; 7; 10; 1; 8; 7; 1; 0; 8; X; X; X; X];
   [0; 3; 7; 0; 7; 10; 0; 10; 9; 6; 10; 7; X; X; X; X];
   [7; 6; 10; 7; 10; 8; 8; 10; 9; X; X; X; X; X; X; X];
   [6; 8; 4; 11; 8; 6; X; X; X; X; X; X; X; X; X; X];
   [3; 6; 11; 3; 0; 6; 0; 4; 6; X; X; X; X; X; X; X];
   [8; 6; 11; 8; 4; 6; 9; 0; 1; X; X; X; X; X; X; X];
   [9; 4; 6; 9; 6; 3; 9; 3; 1; 11; 3; 6; X; X; X; X];
   [6; 8; 4; 6; 11; 8; 2; 10; 1; X; X; X; X; X; X; X];
   [1; 2; 10; 3; 0; 11; 0; 6; 11; 0; 4; 6; X; X; X; X];
   [4; 11; 8; 4; 6; 11; 0; 2; 9; 2; 10; 9; X; X; X; X];
   [10; 9; 3; 10; 3; 2; 9; 4; 3; 11; 3; 6; 4; 6; 3; X];
   [8; 2; 3; 8; 4; 2; 4; 6; 2; X; X; X; X; X; X; X];
   [0; 4; 2; 4; 6; 2; X; X; X; X; X; X; X; X; X; X];
   [1; 9; 0; 2; 3; 4; 2; 4; 6; 4; 3; 8; X; X; X; X];
   [1; 9; 4; 1; 4; 2; 2; 4; 6; X; X; X; X; X; X; X];
   [8; 1; 3; 8; 6; 1; 8; 4; 6; 6; 10; 1; X; X; X; X];
   [10; 1; 0; 10; 0; 6; 6; 0; 4; X; X; X; X; X; X; X];
   [4; 6; 3; 4; 3; 8; 6; 10; 3; 0; 3; 9; 10; 9; 3; X];
   [10; 9; 4; 6; 10; 4; X; X; X; X; X; X; X; X; X; X];
   [4; 9; 5; 7; 6; 11; X; X; X; X; X; X; X; X; X; X];
   [0; 8; 3; 4; 9; 5; 11; 7; 6; X; X; X; X; X; X; X];
   [5; 0; 1; 5; 4; 0; 7; 6; 11; X; X; X; X; X; X; X];
   [11; 7; 6; 8; 3; 4; 3; 5; 4; 3; 1; 5; X; X; X; X];
   [9; 5; 4; 10; 1; 2; 7; 6; 11; X; X; X; X; X; X; X];
   [6; 11; 7; 1; 2; 10; 0; 8; 3; 4; 9; 5; X; X; X; X];
   [7; 6; 11; 5; 4; 10; 4; 2; 10; 4; 0; 2; X; X; X; X];
   [3; 4; 8; 3; 5; 4; 3; 2; 5; 10; 5; 2; 11; 7; 6; X];
   [7; 2; 3; 7; 6; 2; 5; 4; 9; X; X; X; X; X; X; X];
   [9; 5; 4; 0; 8; 6; 0; 6; 2; 6; 8; 7; X; X; X; X];
   [3; 6; 2; 3; 7; 6; 1; 5; 0; 5; 4; 0; X; X; X; X];
   [6; 2; 8; 6; 8; 7; 2; 1; 8; 4; 8; 5; 1; 5; 8; X];
   [9; 5; 4; 10; 1; 6; 1; 7; 6; 1; 3; 7; X; X; X; X];
   [1; 6; 10; 1; 7; 6; 1; 0; 7; 8; 7; 0; 9; 5; 4; X];
   [4; 0; 10; 4; 10; 5; 0; 3; 10; 6; 10; 7; 3; 7; 10; X];
   [7; 6; 10; 7; 10; 8; 5; 4; 10; 4; 8; 10; X; X; X; X];
   [6; 9; 5; 6; 11; 9; 11; 8; 9; X; X; X; X; X; X; X];
   [3; 6; 11; 0; 6; 3; 0; 5; 6; 0; 9; 5; X; X; X; X];
   [0; 11; 8; 0; 5; 11; 0; 1; 5; 5; 6; 11; X; X; X; X];
   [6; 11; 3; 6; 3; 5; 5; 3; 1; X; X; X; X; X; X; X];
   [1; 2; 10; 9; 5; 11; 9; 11; 8; 11; 5; 6; X; X; X; X];
   [0; 11; 3; 0; 6; 11; 0; 9; 6; 5; 6; 9; 1; 2; 10; X];
   [11; 8; 5; 11; 5; 6; 8; 0; 5; 10; 5; 2; 0; 2; 5; X];
   [6; 11; 3; 6; 3; 5; 2; 10; 3; 10; 5; 3; X; X; X; X];
   [5; 8; 9; 5; 2; 8; 5; 6; 2; 3; 8; 2; X; X; X; X];
   [9; 5; 6; 9; 6; 0; 0; 6; 2; X; X; X; X; X; X; X];
   [1; 5; 8; 1; 8; 0; 5; 6; 8; 3; 8; 2; 6; 2; 8; X];
   [1; 5; 6; 2; 1; 6; X; X; X; X; X; X; X; X; X; X];
   [1; 3; 6; 1; 6; 10; 3; 8; 6; 5; 6; 9; 8; 9; 6; X];
   [10; 1; 0; 10; 0; 6; 9; 5; 0; 5; 6; 0; X; X; X; X];
   [0; 3; 8; 5; 6; 10; X; X; X; X; X; X; X; X; X; X];
   [10; 5; 6; X; X; X; X; X; X; X; X; X; X; X; X; X];
   [11; 5; 10; 7; 5; 11; X; X; X; X; X; X; X; X; X; X];
   [11; 5; 10; 11; 7; 5; 8; 3; 0; X; X; X; X; X; X; X];
   [5; 11; 7; 5; 10; 11; 1; 9; 0; X; X; X; X; X; X; X];
   [10; 7; 5; 10; 11; 7; 9; 8; 1; 8; 3; 1; X; X; X; X];
   [11; 1; 2; 11; 7; 1; 7; 5; 1; X; X; X; X; X; X; X];
   [0; 8; 3; 1; 2; 7; 1; 7; 5; 7; 2; 11; X; X; X; X];
   [9; 7; 5; 9; 2; 7; 9; 0; 2; 2; 11; 7; X; X; X; X];
   [7; 5; 2; 7; 2; 11; 5; 9; 2; 3; 2; 8; 9; 8; 2; X];
   [2; 5; 10; 2; 3; 5; 3; 7; 5; X; X; X; X; X; X; X];
   [8; 2; 0; 8; 5; 2; 8; 7; 5; 10; 2; 5; X; X; X; X];
   [9; 0; 1; 5; 10; 3; 5; 3; 7; 3; 10; 2; X; X; X; X];
   [9; 8; 2; 9; 2; 1; 8; 7; 2; 10; 2; 5; 7; 5; 2; X];
   [1; 3; 5; 3; 7; 5; X; X; X; X; X; X; X; X; X; X];
   [0; 8; 7; 0; 7; 1; 1; 7; 5; X; X; X; X; X; X; X];
   [9; 0; 3; 9; 3; 5; 5; 3; 7; X; X; X; X; X; X; X];
   [9; 8; 7; 5; 9; 7; X; X; X; X; X; X; X; X; X; X];
   [5; 8; 4; 5; 10; 8; 10; 11; 8; X; X; X; X; X; X; X];
   [5; 0; 4; 5; 11; 0; 5; 10; 11; 11; 3; 0; X; X; X; X];
   [0; 1; 9; 8; 4; 10; 8; 10; 11; 10; 4; 5; X; X; X; X];
   [10; 11; 4; 10; 4; 5; 11; 3; 4; 9; 4; 1; 3; 1; 4; X];
   [2; 5; 1; 2; 8; 5; 2; 11; 8; 4; 5; 8; X; X; X; X];
   [0; 4; 11; 0; 11; 3; 4; 5; 11; 2; 11; 1; 5; 1; 11; X];
   [0; 2; 5; 0; 5; 9; 2; 11; 5; 4; 5; 8; 11; 8; 5; X];
   [9; 4; 5; 2; 11; 3; X; X; X; X; X; X; X; X; X; X];
   [2; 5; 10; 3; 5; 2; 3; 4; 5; 3; 8; 4; X; X; X; X];
   [5; 10; 2; 5; 2; 4; 4; 2; 0; X; X; X; X; X; X; X];
   [3; 10; 2; 3; 5; 10; 3; 8; 5; 4; 5; 8; 0; 1; 9; X];
   [5; 10; 2; 5; 2; 4; 1; 9; 2; 9; 4; 2; X; X; X; X];
   [8; 4; 5; 8; 5; 3; 3; 5; 1; X; X; X; X; X; X; X];
   [0; 4; 5; 1; 0; 5; X; X; X; X; X; X; X; X; X; X];
   [8; 4; 5; 8; 5; 3; 9; 0; 5; 0; 3; 5; X; X; X; X];
   [9; 4; 5; X; X; X; X; X; X; X; X; X; X; X; X; X];
   [4; 11; 7; 4; 9; 11; 9; 10; 11; X; X; X; X; X; X; X];
   [0; 8; 3; 4; 9; 7; 9; 11; 7; 9; 10; 11; X; X; X; X];
   [1; 10; 11; 1; 11; 4; 1; 4; 0; 7; 4; 11; X; X; X; X];
   [3; 1; 4; 3; 4; 8; 1; 10; 4; 7; 4; 11; 10; 11; 4; X];
   [4; 11; 7; 9; 11; 4; 9; 2; 11; 9; 1; 2; X; X; X; X];
   [9; 7; 4; 9; 11; 7; 9; 1; 11; 2; 11; 1; 0; 8; 3; X];
   [11; 7; 4; 11; 4; 2; 2; 4; 0; X; X; X; X; X; X; X];
   [11; 7; 4; 11; 4; 2; 8; 3; 4; 3; 2; 4; X; X; X; X];
   [2; 9; 10; 2; 7; 9; 2; 3; 7; 7; 4; 9; X; X; X; X];
   [9; 10; 7; 9; 7; 4; 10; 2; 7; 8; 7; 0; 2; 0; 7; X];
   [3; 7; 10; 3; 10; 2; 7; 4; 10; 1; 10; 0; 4; 0; 10; X];
   [1; 10; 2; 8; 7; 4; X; X; X; X; X; X; X; X; X; X];
   [4; 9; 1; 4; 1; 7; 7; 1; 3; X; X; X; X; X; X; X];
   [4; 9; 1; 4; 1; 7; 0; 8; 1; 8; 7; 1; X; X; X; X];
   [4; 0; 3; 7; 4; 3; X; X; X; X; X; X; X; X; X; X];
   [4; 8; 7; X; X; X; X; X; X; X; X; X; X; X; X; X];
   [9; 10; 8; 10; 11; 8; X; X; X; X; X; X; X; X; X; X];
   [3; 0; 9; 3; 9; 11; 11; 9; 10; X; X; X; X; X; X; X];
   [0; 1; 10; 0; 10; 8; 8; 10; 11; X; X; X; X; X; X; X];
   [3; 1; 10; 11; 3; 10; X; X; X; X; X; X; X; X; X; X];
   [1; 2; 11; 1; 11; 9; 9; 11; 8; X; X; X; X; X; X; X];
   [3; 0; 9; 3; 9; 11; 1; 2; 9; 2; 11; 9; X; X; X; X];
   [0; 2; 11; 8; 0; 11; X; X; X; X; X; X; X; X; X; X];
   [3; 2; 11; X; X; X; X; X; X; X; X; X; X; X; X; X];
   [2; 3; 8; 2; 8; 10; 10; 8; 9; X; X; X; X; X; X; X];
   [9; 10; 2; 0; 9; 2; X; X; X; X; X; X; X; X; X; X];
   [2; 3; 8; 2; 8; 10; 0; 1; 8; 1; 10; 8; X; X; X; X];
   [1; 10; 2; X; X; X; X; X; X; X; X; X; X; X; X; X];
   [1; 3; 8; 9; 1; 8; X; X; X; X; X; X; X; X; X; X];
   [0; 9; 1; X; X; X; X; X; X; X; X; X; X; X; X; X];
   [0; 3; 8; X; X; X; X; X; X; X; X; X; X; X; X; X];
   [X; X; X; X; X; X; X; X; X; X; X; X; X; X; X; X]
  ].

Definition numVerticesTable_array : list Z :=
  [0; 3; 3; 6; 3; 6; 6; 9; 3; 6; 6; 9; 6; 9; 9; 6;
   3; 6; 6; 9; 6; 9; 9; 12; 6; 9; 9; 12; 9; 12; 12; 9;
   3; 6; 6; 9; 6; 9; 9; 12; 6; 9; 9; 12; 9; 12; 12; 9;
   6; 9; 9; 6; 9; 12; 12; 9; 9; 12; 12; 9; 12; 15; 15; 6;
   3; 6; 6; 9; 6; 9; 9; 12; 6; 9; 9; 12; 9; 12; 12; 9;
   6; 9; 9; 12; 9; 12; 12; 15; 9; 12; 12; 15; 12; 15; 15; 12;
   6; 9; 9; 12; 9; 12; 6; 9; 9; 12; 12; 15; 12; 15; 9; 6;
   9; 12; 12; 9; 12; 15; 9; 6; 12; 15; 15; 12; 15; 6; 12; 3;
   3; 6; 6; 9; 6; 9; 9; 12; 6; 9; 9; 12; 9; 12; 12; 9;
   6; 9; 9; 12; 9; 12; 12; 15; 9; 6; 12; 9; 12; 9; 15; 6;
   6; 9; 9; 12; 9; 12; 12; 15; 9; 12; 12; 15; 12; 15; 15; 12;
   9; 12; 12; 9; 12; 15; 15; 12; 12; 9; 15; 6; 15; 12; 6; 3;
   6; 9; 9; 12; 9; 12; 12; 15; 9; 12; 12; 15; 6; 9; 9; 6;
   9; 12; 12; 15; 12; 15; 15; 6; 12; 9; 15; 12; 9; 6; 12; 3;
   9; 12; 12; 15; 12; 15; 9; 12; 12; 15; 15; 6; 9; 12; 6; 3;
   6; 9; 9; 6; 9; 12; 6; 3; 9; 6; 12; 3; 6; 3; 3; 0].

(** The flat copies held in [triTable] and [numVertsTable]:
    [triTable((int* ) triTable_array, (int* ) triTable_array+256*16)]. *)
Definition triTable : list Z := concat triTable_array.
Definition numVertsTable : list Z := numVerticesTable_array.

(** [verticesForEdge] of [isosurface_functor::operator()]: the two corners
    joined by each of the twelve cube edges. *)
Definition verticesForEdge : list Z :=
  [0; 1; 1; 2; 3; 2; 0; 3;
   4; 5; 5; 6; 7; 6; 4; 7;
   0; 4; 1; 5; 2; 6; 3; 7].

End Tables.

(** ** The input data set *)

(** What the extraction consumes of [InputDataSet1]: the three dimensions and
    the point data and physical coordinates iterators.  Both iterators are
    total accessors, as for a field computed on the fly. *)
Record image3d : Type := {
  dim0 : Z;
  dim1 : Z;
  dim2 : Z;
  point_data : Z -> float;
  physical_coordinates : Z -> float * float * float
}.

(** Modelled from the spec: the member [NCells] of the input data set, whose
    declaration (piston/image3d.h) is not among the sources; the number of
    cells is [(dim0-1)*(dim1-1)*(dim2-1)]. *)
Definition NCells (input : image3d) : Z :=
  (dim0 input - 1) * (dim1 input - 1) * (dim2 input - 1).

(** ** [classify_cell] *)

(** [cubeindex] of eight samples:
    [(f0 > isovalue) + (f1 > isovalue)*2 + ...]. *)
Definition cubeindex_of (isovalue f0 f1 f2 f3 f4 f5 f6 f7 : float) : Z :=
  let cubeindex := b2z (Float32.gt f0 isovalue) in
  let cubeindex := cubeindex + b2z (Float32.gt f1 isovalue) * 2 in
  let cubeindex := cubeindex + b2z (Float32.gt f2 isovalue) * 4 in
  let cubeindex := cubeindex + b2z (Float32.gt f3 isovalue) * 8 in
  let cubeindex := cubeindex + b2z (Float32.gt f4 isovalue) * 16 in
  let cubeindex := cubeindex + b2z (Float32.gt f5 isovalue) * 32 in
  let cubeindex := cubeindex + b2z (Float32.gt f6 isovalue) * 64 in
  let cubeindex := cubeindex + b2z (Float32.gt f7 isovalue) * 128 in
  cubeindex.

Definition classify_cell (input : image3d) (isovalue : float)
    (discardMinVals : bool) (numVertsTable : list Z)
    (cell_id : Z) : option (Z * Z) :=
  let xdim := dim0 input in
  let ydim := dim1 input in
  let cells_per_layer := (xdim - 1) * (ydim - 1) in
  let points_per_layer := xdim * ydim in
  x ← int_rem cell_id (xdim - 1);
  q ← int_quot cell_id (xdim - 1);
  y ← int_rem q (ydim - 1);
  z ← int_quot cell_id cells_per_layer;
  let i0 := x + y * xdim + z * points_per_layer in
  let i1 := i0 + 1 in
  let i2 := i0 + 1 + xdim in
  let i3 := i0 + xdim in
  let i4 := i0 + points_per_layer in
  let i5 := i1 + points_per_layer in
  let i6 := i2 + points_per_layer in
  let i7 := i3 + points_per_layer in
  let f0 := point_data input i0 in
  let f1 := point_data input i1 in
  let f2 := point_data input i2 in
  let f3 := point_data input i3 in
  let f4 := point_data input i4 in
  let f5 := point_data input i5 in
  let f6 := point_data input i6 in
  let f7 := point_data input i7 in
  let cubeindex := cubeindex_of isovalue f0 f1 f2 f3 f4 f5 f6 f7 in
  n ← read numVertsTable cubeindex;
  Some (cubeindex, n).

(** [is_valid_cell]. *)
Definition is_valid_cell (numVertices : Z) : bool :=
  negb (numVertices =? 0).

(** ** Thrust primitives *)

Module Thrust.

(** Running sums of [l] on top of [acc], every sum including its element. *)
Fixpoint inclusive_scan_from (acc : Z) (l : list Z) : list Z :=
  match l with
  | [] => []
  | x :: l' => (acc + x) :: inclusive_scan_from (acc + x) l'
  end.

(** [thrust::transform_inclusive_scan(first, last, result, op, plus<int>())]. *)
Definition transform_inclusive_scan (op : Z -> bool) (l : list Z) : list Z :=
  inclusive_scan_from 0 ((fun x => b2z (op x)) <$> l).

(** Running sums of [l] on top of [acc], every sum excluding its element. *)
Fixpoint exclusive_scan_from (acc : Z) (l : list Z) : list Z :=
  match l with
  | [] => []
  | x :: l' => acc :: exclusive_scan_from (acc + x) l'
  end.

(** [thrust::exclusive_scan(first, last, result)], which starts from 0. *)
Definition exclusive_scan (l : list Z) : list Z := exclusive_scan_from 0 l.

(** The scalar search behind the vectorised [thrust::upper_bound]: the index
    of the first element of the range that is greater than [value], the
    length of the range when there is none.  On a sorted range, which
    Thrust requires, this is the position its binary search returns. *)
Fixpoint upper_bound1 (l : list Z) (value : Z) : Z :=
  match l with
  | [] => 0
  | x :: l' => if decide (value < x) then 0 else 1 + upper_bound1 l' value
  end.

(** [thrust::upper_bound(first, last, values_first, values_last, output)]. *)
Definition upper_bound (l : list Z) (values : list Z) : list Z :=
  upper_bound1 l <$> values.

(** [v.back()]; undefined on an empty vector. *)
Definition back {A : Type} (v : list A) : option A := list.last v.

(** [v.resize(n)]: the first [n] elements are kept, new ones are [d]. *)
Definition resize {A : Type} (n : Z) (d : A) (v : list A) : list A :=
  take (Z.to_nat n) v ++ replicate (Z.to_nat n - length v)%nat d.

(** A dereferenced [permutation_iterator] range: [data[index[k]]] for the
    [k] in order. *)
Definition permutation {A : Type} (data : list A) (indices : list Z)
    : option (list A) :=
  mapM (read data) indices.

(** [thrust::for_each] in sequence order, and the C++ [for] loops, given by
    the list of the values the loop variable takes. *)
Fixpoint for_each {S T : Type} (f : T -> S -> option S) (range : list T)
    (s : S) : option S :=
  match range with
  | [] => Some s
  | t :: range' => s' ← f t s; for_each f range' s'
  end.

(** A range of four zipped sequences. *)
Fixpoint zip4 {A B C D : Type} (a : list A) (b : list B) (c : list C)
    (d : list D) : list (A * B * C * D) :=
  match a, b, c, d with
  | x :: a', y :: b', z :: c', w :: d' => (x, y, z, w) :: zip4 a' b' c' d'
  | _, _, _, _ => []
  end.

End Thrust.

(** ** Vector types and the helpers of piston_math.h *)

Record float3 : Type := { f3_x : float; f3_y : float; f3_z : float }.
Record float4 : Type :=
  { f4_x : float; f4_y : float; f4_z : float; f4_w : float }.

(** The vector helpers used by [isosurface_functor] are declared in
    piston/piston_math.h, which is not among the sources: they are taken as
    parameters. *)
Class PistonMath : Type := {
  lerp : float3 -> float3 -> float -> float3;
  cross : float3 -> float3 -> float3;
  normalize : float3 -> float3;
  float4_minus : float4 -> float4 -> float4;
  make_float3 : float4 -> float3;
  make_float4 : float3 -> float -> float4
}.

(** The value-initialised elements a [resize] appends. *)
Definition float3_zero : float3 :=
  {| f3_x := Float32.zero; f3_y := Float32.zero; f3_z := Float32.zero |}.
Definition float4_zero : float4 :=
  {| f4_x := Float32.zero; f4_y := Float32.zero; f4_z := Float32.zero;
     f4_w := Float32.zero |}.

(** ** [isosurface_functor] *)

Section Functor.
Context {M : PistonMath}.

Definition vertex_interp (p0 p1 : float3) (t : float) : float3 := lerp p0 p1 t.

(** The components of a physical coordinate tuple, already cast to [float]. *)
Definition tuple2float3 (xyz : float * float * float) : float3 :=
  {| f3_x := xyz.1.1; f3_y := xyz.1.2; f3_z := xyz.2 |}.

(** [int i[8]]: the corner point indices of the cell with base index [i0]. *)
Definition corner_indices (i0 xdim ydim : Z) : list Z :=
  let i1 := i0 + 1 in
  let i2 := i0 + 1 + xdim in
  let i3 := i0 + xdim in
  [i0; i1; i2; i3;
   i0 + xdim * ydim; i1 + xdim * ydim; i2 + xdim * ydim; i3 + xdim * ydim].

(** [i[0]] of a cell. *)
Definition base_index (input : image3d) (cell_id : Z) : option Z :=
  let xdim := dim0 input in
  let ydim := dim1 input in
  let cells_per_layer := (xdim - 1) * (ydim - 1) in
  x ← int_rem cell_id (xdim - 1);
  q ← int_quot cell_id (xdim - 1);
  y ← int_rem q (ydim - 1);
  z ← int_quot cell_id cells_per_layer;
  Some (x + y * xdim + z * xdim * ydim).

(** [float f[8]]: the corner samples of a cell. *)
Definition corner_samples (input : image3d) (cell_id : Z)
    : option (list float) :=
  i0 ← base_index input cell_id;
  Some (point_data input <$> corner_indices i0 (dim0 input) (dim1 input)).

(** [float3 p[8]]: the corner positions of a cell. *)
Definition corner_positions (input : image3d) (cell_id : Z)
    : option (list float3) :=
  i0 ← base_index input cell_id;
  Some ((fun k => tuple2float3 (physical_coordinates input k))
          <$> corner_indices i0 (dim0 input) (dim1 input)).

(** [t = (isovalue - f[v0]) / (f[v1] - f[v0])]. *)
Definition interp_factor (isovalue fv0 fv1 : float) : float :=
  Float32.div (Float32.sub isovalue fv0) (Float32.sub fv1 fv0).

(** The two corners [v0], [v1] of output vertex [v] of case [cubeindex]. *)
Definition edge_corners (triangle_table : list Z) (cubeindex v : Z)
    : option (Z * Z) :=
  edge ← read triangle_table (cubeindex * 16 + v);
  v0 ← read Tables.verticesForEdge (2 * edge);
  v1 ← read Tables.verticesForEdge (2 * edge + 1);
  Some (v0, v1).

(** The corners and the interpolation factor of output vertex [v]:
    [t = (isovalue - f[v0]) / (f[v1] - f[v0])]. *)
Definition edge_factor (isovalue : float) (triangle_table : list Z)
    (f : list float) (cubeindex v : Z) : option (Z * Z * float) :=
  '(v0, v1) ← edge_corners triangle_table cubeindex v;
  fv0 ← read f v0;
  fv1 ← read f v1;
  Some (v0, v1, interp_factor isovalue fv0 fv1).

(** The value stored by iteration [v] of the interpolation loop. *)
Definition interpolated_vertex (isovalue : float) (triangle_table : list Z)
    (f : list float) (p : list float3) (cubeindex v : Z) : option float4 :=
  '(v0, v1, t) ← edge_factor isovalue triangle_table f cubeindex v;
  pv0 ← read p v0;
  pv1 ← read p v1;
  Some (make_float4 (vertex_interp pv0 pv1 t) Float32.one).

(** One iteration of the interpolation loop. *)
Definition interpolate_vertex (isovalue : float) (triangle_table : list Z)
    (f : list float) (p : list float3) (outputVertId cubeindex : Z)
    (v : Z) (vertices_output : list float4) : option (list float4) :=
  vertex ← interpolated_vertex isovalue triangle_table f p cubeindex v;
  write vertices_output (outputVertId + v) vertex.

(** The normal of the triangle whose first vertex is output vertex [v]. *)
Definition face_normal (vertices_output : list float4) (outputVertId v : Z)
    : option float3 :=
  vertex0 ← read vertices_output (outputVertId + v);
  vertex1 ← read vertices_output (outputVertId + v + 1);
  vertex2 ← read vertices_output (outputVertId + v + 2);
  let edge0 := make_float3 (float4_minus vertex1 vertex0) in
  let edge1 := make_float3 (float4_minus vertex2 vertex0) in
  Some (normalize (cross edge0 edge1)).

(** One iteration of the normal loop; the chained assignment stores from
    right to left. *)
Definition triangle_normal (vertices_output : list float4) (outputVertId : Z)
    (v : Z) (normals_output : list float3) : option (list float3) :=
  normal ← face_normal vertices_output outputVertId v;
  n ← write normals_output (outputVertId + v + 2) normal;
  n ← write n (outputVertId + v + 1) normal;
  write n (outputVertId + v) normal.

(** The values of [v] in [for (int v = 0; v < numVertices; v += 3)]. *)
Definition triples (numVertices : Z) : list Z :=
  (fun k => 3 * k) <$> counting ((numVertices + 2) / 3).

Definition isosurface_functor (input : image3d) (isovalue : float)
    (triangle_table : list Z) (indices_tuple : Z * Z * Z * Z)
    (out : list float4 * list float3) : option (list float4 * list float3) :=
  let '(cell_id, outputVertId, cubeindex, numVertices) := indices_tuple in
  f ← corner_samples input cell_id;
  p ← corner_positions input cell_id;
  vertices_output ←
    Thrust.for_each
      (interpolate_vertex isovalue triangle_table f p outputVertId cubeindex)
      (counting numVertices) out.1;
  normals_output ←
    Thrust.for_each (triangle_normal vertices_output outputVertId)
      (triples numVertices) out.2;
  Some (vertices_output, normals_output).

End Functor.

(** ** The [marching_cube] class *)

(** The members of a non-[USE_INTEROP] build.  [triTable] and
    [numVertsTable] are copies of the static tables made by the constructor
    and never assigned afterwards: they are [Tables.triTable] and
    [Tables.numVertsTable]. *)
Record marching_cube : Type := {
  input : image3d;
  source : image3d;
  isovalue : float;
  discardMinVals : bool;
  useInterop : bool;
  case_index : list Z;
  num_vertices : list Z;
  valid_cell_enum : list Z;
  valid_cell_indices : list Z;
  output_vertices_enum : list Z;
  vertices : list float4;
  normals : list float3;
  scalars : list float;
  num_total_vertices : Z
}.

(** The constructor.  [num_total_vertices] is not in its initialiser list:
    its initial value [indeterminate] is whatever the storage holds. *)
Definition construct (input source : image3d) (isovalue : float)
    (indeterminate : Z) : marching_cube :=
  {| input := input; source := source; isovalue := isovalue;
     discardMinVals := true; useInterop := false;
     case_index := []; num_vertices := []; valid_cell_enum := [];
     valid_cell_indices := []; output_vertices_enum := [];
     vertices := []; normals := []; scalars := [];
     num_total_vertices := indeterminate |}.

Definition set_isovalue (val : float) (mc : marching_cube) : marching_cube :=
  {| input := input mc; source := source mc; isovalue := val;
     discardMinVals := discardMinVals mc; useInterop := useInterop mc;
     case_index := case_index mc; num_vertices := num_vertices mc;
     valid_cell_enum := valid_cell_enum mc;
     valid_cell_indices := valid_cell_indices mc;
     output_vertices_enum := output_vertices_enum mc;
     vertices := vertices mc; normals := normals mc; scalars := scalars mc;
     num_total_vertices := num_total_vertices mc |}.

(** An assignment to the public member [discardMinVals]. *)
Definition set_discardMinVals (b : bool) (mc : marching_cube)
    : marching_cube :=
  {| input := input mc; source := source mc; isovalue := isovalue mc;
     discardMinVals := b; useInterop := useInterop mc;
     case_index := case_index mc; num_vertices := num_vertices mc;
     valid_cell_enum := valid_cell_enum mc;
     valid_cell_indices := valid_cell_indices mc;
     output_vertices_enum := output_vertices_enum mc;
     vertices := vertices mc; normals := normals mc; scalars := scalars mc;
     num_total_vertices := num_total_vertices mc |}.

Definition freeMemory (includeInput : bool) (mc : marching_cube)
    : marching_cube :=
  {| input := input mc; source := source mc; isovalue := isovalue mc;
     discardMinVals := discardMinVals mc; useInterop := useInterop mc;
     case_index := if includeInput then [] else case_index mc;
     num_vertices := if includeInput then [] else num_vertices mc;
     valid_cell_enum := if includeInput then [] else valid_cell_enum mc;
     valid_cell_indices := [];
     output_vertices_enum := [];
     vertices := []; normals := []; scalars := [];
     num_total_vertices := num_total_vertices mc |}.

(** The classification pass: the [thrust::transform] of [classify_cell] over
    the cell indices, as the sequence of (case index, vertex count) pairs it
    stores through the zip iterator. *)
Definition classify_cells (input : image3d) (isovalue : float)
    (discardMinVals : bool) : option (list (Z * Z)) :=
  mapM (classify_cell input isovalue discardMinVals Tables.numVertsTable)
       (counting (NCells input)).

(** "enumerating valid cells". *)
Definition enumerate_valid_cells (num_vertices : list Z) : list Z :=
  Thrust.transform_inclusive_scan is_valid_cell num_vertices.

(** "find indices to valid cells". *)
Definition find_valid_cells (valid_cell_enum : list Z) (num_valid_cells : Z)
    : list Z :=
  Thrust.upper_bound valid_cell_enum (counting num_valid_cells).

Section Extraction.
Context {M : PistonMath}.

(** The geometry pass of a build without [USE_INTEROP] and with [useInterop]
    false: the two [resize] and the [thrust::for_each] of
    [isosurface_functor] over the zipped valid cells. *)
Definition generate_geometry (input : image3d) (isovalue : float)
    (case_index num_vertices valid_cell_indices output_vertices_enum : list Z)
    (num_total_vertices : Z) (vertices : list float4) (normals : list float3)
    : option (list float4 * list float3) :=
  let vertices := Thrust.resize num_total_vertices float4_zero vertices in
  let normals := Thrust.resize num_total_vertices float3_zero normals in
  cases ← Thrust.permutation case_index valid_cell_indices;
  counts ← Thrust.permutation num_vertices valid_cell_indices;
  Thrust.for_each (isosurface_functor input isovalue Tables.triTable)
    (Thrust.zip4 valid_cell_indices output_vertices_enum cases counts)
    (vertices, normals).

(** [marching_cube::operator()] of a build without [USE_INTEROP], where both
    [if (useInterop)] branches are empty.  A negative [NCells] makes the
    first [resize] fail, and so does [valid_cell_enum.back()] on the empty
    vector the model then holds. *)
Definition operator_call (mc : marching_cube) : option marching_cube :=
  cls ← classify_cells (input mc) (isovalue mc) (discardMinVals mc);
  let case_index' := cls.*1 in
  let num_vertices' := cls.*2 in
  let valid_cell_enum' := enumerate_valid_cells num_vertices' in
  num_valid_cells ← Thrust.back valid_cell_enum';
  if decide (num_valid_cells = 0) then
    Some {| input := input mc; source := source mc; isovalue := isovalue mc;
            discardMinVals := discardMinVals mc; useInterop := useInterop mc;
            case_index := case_index'; num_vertices := num_vertices';
            valid_cell_enum := valid_cell_enum';
            valid_cell_indices := valid_cell_indices mc;
            output_vertices_enum := output_vertices_enum mc;
            vertices := []; normals := []; scalars := [];
            num_total_vertices := num_total_vertices mc |}
  else
    let valid_cell_indices' :=
      find_valid_cells valid_cell_enum' num_valid_cells in
    counts ← Thrust.permutation num_vertices' valid_cell_indices';
    let output_vertices_enum' := Thrust.exclusive_scan counts in
    last_cell ← Thrust.back valid_cell_indices';
    last_count ← read num_vertices' last_cell;
    last_offset ← Thrust.back output_vertices_enum';
    let num_total_vertices' := last_count + last_offset in
    if useInterop mc then
      Some {| input := input mc; source := source mc;
              isovalue := isovalue mc;
              discardMinVals := discardMinVals mc;
              useInterop := useInterop mc;
              case_index := case_index'; num_vertices := num_vertices';
              valid_cell_enum := valid_cell_enum';
              valid_cell_indices := valid_cell_indices';
              output_vertices_enum := output_vertices_enum';
              vertices := vertices mc; normals := normals mc;
              scalars := scalars mc;
              num_total_vertices := num_total_vertices' |}
    else
      out ← generate_geometry (input mc) (isovalue mc) case_index'
               num_vertices' valid_cell_indices' output_vertices_enum'
               num_total_vertices' (vertices mc) (normals mc);
      Some {| input := input mc; source := source mc;
              isovalue := isovalue mc;
              discardMinVals := discardMinVals mc;
              useInterop := useInterop mc;
              case_index := case_index'; num_vertices := num_vertices';
              valid_cell_enum := valid_cell_enum';
              valid_cell_indices := valid_cell_indices';
              output_vertices_enum := output_vertices_enum';
              vertices := out.1; normals := out.2;
              scalars := scalars mc;
              num_total_vertices := num_total_vertices' |}.

End Extraction.

(** ** The tuples and the write ranges of the geometry pass *)

Section WriteRanges.
Context {M : PistonMath}.

(** Element [k] of the zipped range the geometry pass iterates over: the
    [k]-th valid cell, its output offset, its case index and its vertex
    count. *)
Definition zipped_tuple (mc : marching_cube) (k : nat)
    (tuple : Z * Z * Z * Z) : Prop :=
  let '(cell, off, c, cnt) := tuple in
  valid_cell_indices mc !! k = Some cell /\
  output_vertices_enum mc !! k = Some off /\
  read (case_index mc) cell = Some c /\
  read (num_vertices mc) cell = Some cnt.


End WriteRanges.

(** ** Reference definitions for the statements *)

Module Reference.

(** The corner points of cell [id] in the words of the specification:
    [x = id mod (dim0-1)], [y = (id div (dim0-1)) mod (dim1-1)],
    [z = id div ((dim0-1)*(dim1-1))], base index [x + y*dim0 + z*dim0*dim1],
    offsets [0, +1, +1+dim0, +dim0] and the same four plus [dim0*dim1]. *)
Definition corner_points (input : image3d) (id : Z) : list Z :=
  let d0 := dim0 input in
  let d1 := dim1 input in
  let x := id `mod` (d0 - 1) in
  let y := (id `div` (d0 - 1)) `mod` (d1 - 1) in
  let z := id `div` ((d0 - 1) * (d1 - 1)) in
  let base := x + y * d0 + z * d0 * d1 in
  [base; base + 1; base + 1 + d0; base + d0;
   base + d0 * d1; base + 1 + d0 * d1; base + 1 + d0 + d0 * d1;
   base + d0 + d0 * d1].

(** The indices, counted from [i], of the nonzero elements of a vector of
    vertex counts, in order. *)
Fixpoint nonzero_indices_from (i : Z) (num_vertices : list Z) : list Z :=
  match num_vertices with
  | [] => []
  | n :: rest =>
      if decide (n = 0) then nonzero_indices_from (i + 1) rest
      else i :: nonzero_indices_from (i + 1) rest
  end.

Definition nonzero_indices (num_vertices : list Z) : list Z :=
  nonzero_indices_from 0 num_vertices.

(** The number of non-sentinel entries of a row of the case table. *)
Definition non_sentinel (row : list Z) : Z :=
  Z.of_nat (length (filter (fun e => e <> -1) row)).

(** Two samples on opposite sides of the isovalue: one is greater than it,
    the other is less than or equal to it. *)
Definition opposite_sides (isovalue a b : float) : Prop :=
  (Float32.gt a isovalue = true /\ Float32.le b isovalue = true) \/
  (Float32.gt b isovalue = true /\ Float32.le a isovalue = true).

(** The number of nonzero elements of a vector of vertex counts. *)
Definition count_nonzero (num_vertices : list Z) : Z :=
  Z.of_nat (length (filter (fun n => n <> 0) num_vertices)).

(** The (case index, vertex count) pairs of the valid cells, in order. *)
Definition valid_pairs (cls : list (Z * Z)) : list (Z * Z) :=
  filter (fun cn => cn.2 <> 0) cls.

(** A (case index, vertex count) pair as the classifier builds it: a case
    index of 8 bits with the vertex count of the table. *)
Definition case_entry (cn : Z * Z) : Prop :=
  0 <= cn.1 < 256 /\ read Tables.numVertsTable cn.1 = Some cn.2.

(** The sum of a vector of vertex counts. *)
Definition sum (l : list Z) : Z := foldr Z.add 0 l.

End Reference.

(** ** Data for running the model *)

(** An instance of the vector helpers for running the model on examples: the
    component-wise binary32 formulas of the CUDA SDK's cutil_math.h.  No
    theorem below depends on it. *)
Module CutilMath.

Definition add (a b : float) : float := SFadd Float32.prec Float32.emax a b.
Definition mul (a b : float) : float := SFmul Float32.prec Float32.emax a b.
Definition sqrt (a : float) : float := SFsqrt Float32.prec Float32.emax a.

Definition lerp1 (a b t : float) : float := add a (mul t (Float32.sub b a)).

Definition lerp (a b : float3) (t : float) : float3 :=
  {| f3_x := lerp1 (f3_x a) (f3_x b) t;
     f3_y := lerp1 (f3_y a) (f3_y b) t;
     f3_z := lerp1 (f3_z a) (f3_z b) t |}.

Definition cross (a b : float3) : float3 :=
  {| f3_x := Float32.sub (mul (f3_y a) (f3_z b)) (mul (f3_z a) (f3_y b));
     f3_y := Float32.sub (mul (f3_z a) (f3_x b)) (mul (f3_x a) (f3_z b));
     f3_z := Float32.sub (mul (f3_x a) (f3_y b)) (mul (f3_y a) (f3_x b)) |}.

Definition dot (a b : float3) : float :=
  add (add (mul (f3_x a) (f3_x b)) (mul (f3_y a) (f3_y b)))
      (mul (f3_z a) (f3_z b)).

Definition normalize (v : float3) : float3 :=
  let invLen := Float32.div Float32.one (sqrt (dot v v)) in
  {| f3_x := mul (f3_x v) invLen; f3_y := mul (f3_y v) invLen;
     f3_z := mul (f3_z v) invLen |}.

Definition float4_minus (a b : float4) : float4 :=
  {| f4_x := Float32.sub (f4_x a) (f4_x b);
     f4_y := Float32.sub (f4_y a) (f4_y b);
     f4_z := Float32.sub (f4_z a) (f4_z b);
     f4_w := Float32.sub (f4_w a) (f4_w b) |}.

Definition make_float3 (a : float4) : float3 :=
  {| f3_x := f4_x a; f3_y := f4_y a; f3_z := f4_z a |}.

Definition make_float4 (a : float3) (w : float) : float4 :=
  {| f4_x := f3_x a; f4_y := f3_y a; f4_z := f3_z a; f4_w := w |}.

Definition math : PistonMath :=
  Build_PistonMath lerp cross normalize float4_minus make_float3 make_float4.

End CutilMath.

Module Examples.

(** The [float] nearest to an integer. *)
Definition of_int (n : Z) : float :=
  binary_normalize Float32.prec Float32.emax n 0 false.

(** A field over a [d0 x d1 x d2] grid whose samples are the elements of
    [samples] (zero beyond them), with the grid coordinates of a point as
    its physical coordinates. *)
Definition field (d0 d1 d2 : Z) (samples : list float) : image3d :=
  {| dim0 := d0; dim1 := d1; dim2 := d2;
     point_data := fun i => default Float32.zero (read samples i);
     physical_coordinates := fun i =>
       (of_int (i `mod` d0), of_int ((i `div` d0) `mod` d1),
        of_int (i `div` (d0 * d1))) |}.

Definition F0 : float := Float32.zero.
Definition F1 : float := Float32.one.

(** One cell, bottom face at 0 and top face at 1. *)
Definition slab : image3d := field 2 2 2 [F0; F0; F0; F0; F1; F1; F1; F1].

(** One cell whose corner 0 alone is at 1. *)
Definition corner0 : image3d := field 2 2 2 [F1; F0; F0; F0; F0; F0; F0; F0].

(** One cell with a NaN sample at corner 0 and 1 at corner 1. *)
Definition with_nan : image3d :=
  field 2 2 2 [Float32.nan; F1; F0; F0; F0; F0; F0; F0].


End Examples.

(** ** Decision procedures over the case tables *)

Module Check.

(** Row [i] of the case table and entry [i] of the vertex count table agree:
    the count is a multiple of 3 and the number of non-sentinel entries. *)
Definition row_consistent (i : Z) : bool :=
  match Tables.triTable_array !! Z.to_nat i,
        read Tables.numVerticesTable_array i with
  | Some row, Some n =>
      bool_decide (n `mod` 3 = 0)
      && bool_decide (n = Reference.non_sentinel row)
  | _, _ => false
  end.

(** Output vertex [v] of case [c] lies on an edge of the cube whose two
    corners are classified differently by [c]. *)
Definition vertex_crosses (c v : Z) : bool :=
  match edge_corners Tables.triTable c v with
  | Some (v0, v1) =>
      bool_decide (0 <= v0 < 8) && bool_decide (0 <= v1 < 8)
      && negb (eqb (Z.testbit c v0) (Z.testbit c v1))
  | None => false
  end.

(** Every output vertex of case [c] crosses, and the count of case [c] is a
    positive multiple of 3 up to 15, or 0. *)
Definition case_crosses (c : Z) : bool :=
  match read Tables.numVertsTable c with
  | Some n =>
      bool_decide (0 <= n <= 15) && bool_decide (n `mod` 3 = 0)
      && forallb (vertex_crosses c) (counting n)
  | None => false
  end.

End Check.

(** ** The benchmark driver (benchmark/marching_cube.cu) *)

Module Benchmark.

(** [ISO_START = 16], [ISO_STEP = -1] and [ISO_NUM = 15]. *)
Definition ISO_START : float := S754_finite false 8388608 (-19).
Definition ISO_STEP : float := S754_finite true 8388608 (-23).
Definition ISO_NUM : Z := 15.

(** [isovalue += ISO_STEP] on [float]. *)
Definition add (a b : float) : float :=
  SFadd Float32.prec Float32.emax a b.

Section Sweep.
Context {M : PistonMath}.

(** What is left of the loop [for (int j=0; j<ISO_NUM; j++)] of [main] when
    [n] iterations remain: each iteration steps the isovalue, sets it,
    extracts, and prints the isovalue with [num_total_vertices].  The value
    is the list of the printed pairs and the surface left by the loop. *)
Fixpoint sweep (n : nat) (isovalue : float) (isosurface : marching_cube)
    : option (list (float * Z) * marching_cube) :=
  match n with
  | O => Some ([], isosurface)
  | S n' =>
      let isovalue := add isovalue ISO_STEP in
      extracted ← operator_call (set_isovalue isovalue isosurface);
      rest ← sweep n' isovalue extracted;
      Some ((isovalue, num_total_vertices extracted) :: rest.1, rest.2)
  end.

(** The body of the one timed iteration of [main] ([MAX_ITERATIONS] is 1),
    on a surface built over [field] as [main] builds it; the timer, the
    statistics and the field itself (piston/util/tangle_field.h) are not
    among the sources. *)
Definition timed_pass (field : image3d) (indeterminate : Z)
    : option (list (float * Z) * marching_cube) :=
  sweep (Z.to_nat ISO_NUM) ISO_START
        (construct field field ISO_START indeterminate).

End Sweep.

(** The isovalues the loop steps through from [isovalue]. *)
Fixpoint isovalues (n : nat) (isovalue : float) : list float :=
  match n with
  | O => []
  | S n' => add isovalue ISO_STEP :: isovalues n' (add isovalue ISO_STEP)
  end.

End Benchmark.

(** ** Further decision procedures and reference definitions *)

Module TableFacts.

(** Cube edge [e] joins two corners that case [c] classifies differently. *)
Definition crossed (c e : Z) : bool :=
  match read Tables.verticesForEdge (2 * e),
        read Tables.verticesForEdge (2 * e + 1) with
  | Some v0, Some v1 => negb (eqb (Z.testbit c v0) (Z.testbit c v1))
  | _, _ => false
  end.

(** Edge [e] is the edge of one of the output vertices of case [c]. *)
Definition used (c e : Z) : bool :=
  match read Tables.numVertsTable c with
  | Some n =>
      existsb (fun v => bool_decide (read Tables.triTable (c * 16 + v) = Some e))
        (counting n)
  | None => false
  end.

(** Every crossed edge of case [c] is used. *)
Definition complete (c : Z) : bool :=
  forallb (fun e => implb (crossed c e) (used c e)) (counting 12).

(** Row [c] holds edges 0..11 in its first [n] entries, [n] the vertex count
    of the case, and the sentinel in the others. *)
Definition layout (c : Z) : bool :=
  match read Tables.numVertsTable c with
  | Some n =>
      forallb (fun v =>
                 match read Tables.triTable (c * 16 + v) with
                 | Some e =>
                     if decide (v < n) then bool_decide (0 <= e <= 11)
                     else bool_decide (e = -1)
                 | None => false
                 end)
        (counting 16)
  | None => false
  end.

(** The three edges of every triangle of case [c] are pairwise distinct. *)
Definition distinct_edges (c : Z) : bool :=
  match read Tables.numVertsTable c with
  | Some n =>
      forallb (fun t =>
                 match read Tables.triTable (c * 16 + 3 * t),
                       read Tables.triTable (c * 16 + 3 * t + 1),
                       read Tables.triTable (c * 16 + 3 * t + 2) with
                 | Some a, Some b, Some d =>
                     bool_decide (a <> b /\ a <> d /\ b <> d)
                 | _, _, _ => false
                 end)
        (counting (n `div` 3))
  | None => false
  end.

(** The vertex count of case [c] is 0 exactly for the cases 0 and 255. *)
Definition empty_case (c : Z) : bool :=
  match read Tables.numVertsTable c with
  | Some n => eqb (n =? 0) ((c =? 0) || (c =? 255))
  | None => false
  end.

End TableFacts.

Section Emitted.
Context {M : PistonMath}.

(** The vertex that the generator computes for slot [v] of a cell of case
    [cubeindex]. *)
Definition emitted_vertex (input : image3d) (isovalue : float)
    (cell_id cubeindex v : Z) : option float4 :=
  f ← corner_samples input cell_id;
  p ← corner_positions input cell_id;
  interpolated_vertex isovalue Tables.triTable f p cubeindex v.

End Emitted.

(** All the samples are classified alike against the isovalue: none is
    greater than it, or all are. *)
Definition all_alike (isovalue : float) (f : list float) : Prop :=
  Forall (fun x => Float32.gt x isovalue = false) f \/
  Forall (fun x => Float32.gt x isovalue = true) f.

(** [cubeindex] of an array of eight samples. *)
Definition cubeindex_of_samples (isovalue : float) (f : list float)
    : option Z :=
  match f with
  | [f0; f1; f2; f3; f4; f5; f6; f7] =>
      Some (cubeindex_of isovalue f0 f1 f2 f3 f4 f5 f6 f7)
  | _ => None
  end.

(** ** Further members and data *)

(** An assignment to the public member [useInterop]. *)
Definition set_useInterop (b : bool) (mc : marching_cube) : marching_cube :=
  {| input := input mc; source := source mc; isovalue := isovalue mc;
     discardMinVals := discardMinVals mc; useInterop := b;
     case_index := case_index mc; num_vertices := num_vertices mc;
     valid_cell_enum := valid_cell_enum mc;
     valid_cell_indices := valid_cell_indices mc;
     output_vertices_enum := output_vertices_enum mc;
     vertices := vertices mc; normals := normals mc; scalars := scalars mc;
     num_total_vertices := num_total_vertices mc |}.

(** An infinity of binary32. *)
Definition is_infinity (a : float) : bool :=
  match a with S754_infinity _ => true | _ => false end.

(** One cell, bottom face at 0 and top face at 4. *)
Definition step_field : image3d :=
  Examples.field 2 2 2
    [Examples.F0; Examples.F0; Examples.F0; Examples.F0;
     Examples.of_int 4; Examples.of_int 4; Examples.of_int 4;
     Examples.of_int 4].

(** * Properties *)

(** ** Ranges and checked accesses *)

Lemma elem_of_counting (n i : Z) : i ∈ counting n <-> 0 <= i < n.
Proof.
  unfold counting. rewrite list_elem_of_fmap. split.
  - intros (k & -> & Hk%elem_of_seq). lia.
  - intros Hi. exists (Z.to_nat i). split; [lia|]. apply elem_of_seq. lia.
Qed.

Lemma length_counting (n : Z) : length (counting n) = Z.to_nat n.
Proof. unfold counting. by rewrite length_fmap, length_seq. Qed.

Lemma lookup_counting (n : Z) (k : nat) :
  (k < Z.to_nat n)%nat -> counting n !! k = Some (Z.of_nat k).
Proof.
  intros Hk. unfold counting. rewrite list_lookup_fmap.
  by rewrite lookup_seq_lt.
Qed.

Lemma counting_nonpos (n : Z) : n <= 0 -> counting n = [].
Proof.
  intros Hn. unfold counting. by replace (Z.to_nat n) with 0%nat by lia.
Qed.

Lemma counting_succ (n : Z) :
  0 <= n -> counting (n + 1) = 0 :: (Z.succ <$> counting n).
Proof.
  intros Hn. unfold counting.
  replace (Z.to_nat (n + 1)) with (S (Z.to_nat n)) by lia.
  cbn [seq fmap list_fmap]. f_equal.
  rewrite <- fmap_S_seq, <- !list_fmap_compose.
  apply list_fmap_ext. intros _ k _. simpl. lia.
Qed.

Lemma counting_snoc (n : Z) :
  0 <= n -> counting (n + 1) = counting n ++ [n].
Proof.
  intros Hn. unfold counting.
  replace (Z.to_nat (n + 1)) with (Z.to_nat n + 1)%nat by lia.
  rewrite seq_app, fmap_app. simpl. do 2 f_equal. lia.
Qed.

Lemma read_Some {A : Type} (l : list A) (i : Z) (x : A) :
  read l i = Some x <-> 0 <= i /\ l !! Z.to_nat i = Some x.
Proof.
  unfold read. case_decide as Hi; split.
  - by intros Hx.
  - by intros [_ Hx].
  - discriminate.
  - intros [Hi' _]. lia.
Qed.

Lemma read_of_nat {A : Type} (l : list A) (k : nat) :
  read l (Z.of_nat k) = l !! k.
Proof.
  unfold read. rewrite decide_True by lia. by rewrite Nat2Z.id.
Qed.

Lemma read_is_Some {A : Type} (l : list A) (i : Z) :
  is_Some (read l i) <-> 0 <= i < Z.of_nat (length l).
Proof.
  unfold read. case_decide.
  - rewrite lookup_lt_is_Some. lia.
  - split; [by intros [? ?]|lia].
Qed.

Lemma read_fmap {A B : Type} (f : A -> B) (l : list A) (i : Z) :
  read (f <$> l) i = f <$> read l i.
Proof. unfold read. case_decide; [apply list_lookup_fmap|done]. Qed.

Lemma write_Some {A : Type} (l l' : list A) (i : Z) (x : A) :
  write l i x = Some l' <->
  0 <= i < Z.of_nat (length l) /\ l' = <[Z.to_nat i := x]> l.
Proof.
  unfold write. case_decide as Hi; split.
  - by intros [= <-].
  - by intros [_ ->].
  - discriminate.
  - intros [Hi' _]. lia.
Qed.

Lemma write_length {A : Type} (l l' : list A) (i : Z) (x : A) :
  write l i x = Some l' -> length l' = length l.
Proof. intros (_ & ->)%write_Some. apply length_insert. Qed.

Lemma read_write_eq {A : Type} (l l' : list A) (i : Z) (x : A) :
  write l i x = Some l' -> read l' i = Some x.
Proof.
  intros (Hi & ->)%write_Some. apply read_Some. split; [lia|].
  apply list_lookup_insert_eq. lia.
Qed.

Lemma read_write_ne {A : Type} (l l' : list A) (i j : Z) (x : A) :
  write l i x = Some l' -> i <> j -> read l' j = read l j.
Proof.
  intros (Hi & ->)%write_Some Hij. unfold read. case_decide; [|done].
  apply list_lookup_insert_ne. lia.
Qed.

Lemma write_is_Some {A : Type} (l : list A) (i : Z) (x : A) :
  0 <= i < Z.of_nat (length l) -> is_Some (write l i x).
Proof. intros Hi. unfold write. rewrite decide_True by done. eauto. Qed.

Lemma int_rem_Some (a b : Z) :
  b <> 0 -> int_rem a b = Some (Z.rem a b).
Proof. intros Hb. unfold int_rem. by rewrite decide_False. Qed.

Lemma int_quot_Some (a b : Z) :
  b <> 0 -> int_quot a b = Some (Z.quot a b).
Proof. intros Hb. unfold int_quot. by rewrite decide_False. Qed.

(** ** The case index *)

Lemma cubeindex_of_range (isovalue f0 f1 f2 f3 f4 f5 f6 f7 : float) :
  0 <= cubeindex_of isovalue f0 f1 f2 f3 f4 f5 f6 f7 < 256.
Proof.
  unfold cubeindex_of.
  destruct (Float32.gt f0 isovalue), (Float32.gt f1 isovalue),
    (Float32.gt f2 isovalue), (Float32.gt f3 isovalue),
    (Float32.gt f4 isovalue), (Float32.gt f5 isovalue),
    (Float32.gt f6 isovalue), (Float32.gt f7 isovalue); simpl; lia.
Qed.

Lemma cubeindex_of_testbit (isovalue f0 f1 f2 f3 f4 f5 f6 f7 : float)
    (k : nat) (fk : float) :
  [f0; f1; f2; f3; f4; f5; f6; f7] !! k = Some fk ->
  Z.testbit (cubeindex_of isovalue f0 f1 f2 f3 f4 f5 f6 f7) (Z.of_nat k)
  = Float32.gt fk isovalue.
Proof.
  intros Hk. unfold cubeindex_of.
  do 8 (destruct k as [|k]; [injection Hk as <-;
    destruct (Float32.gt f0 isovalue), (Float32.gt f1 isovalue),
      (Float32.gt f2 isovalue), (Float32.gt f3 isovalue),
      (Float32.gt f4 isovalue), (Float32.gt f5 isovalue),
      (Float32.gt f6 isovalue), (Float32.gt f7 isovalue); reflexivity|]).
  discriminate.
Qed.

Lemma numVertsTable_length : length Tables.numVertsTable = 256%nat.
Proof. reflexivity. Qed.

Lemma numVertsTable_read (c : Z) :
  0 <= c < 256 -> is_Some (read Tables.numVertsTable c).
Proof. intros Hc. apply read_is_Some. rewrite numVertsTable_length. lia. Qed.

Lemma counting_forallb (f : Z -> bool) (n i : Z) :
  forallb f (counting n) = true -> 0 <= i < n -> f i = true.
Proof.
  intros Hf Hi. apply (proj1 (forallb_forall f (counting n)) Hf).
  apply list_elem_of_In. by apply elem_of_counting.
Qed.

(** ** The case tables *)

Lemma rows_consistent : forallb Check.row_consistent (counting 256) = true.
Proof. vm_compute. reflexivity. Qed.

Lemma cases_cross : forallb Check.case_crosses (counting 256) = true.
Proof. vm_compute. reflexivity. Qed.

(** C4: for every case index [i] in [0,255], entry [i] of
    [numVerticesTable_array] is a multiple of 3 and is the number of entries
    of row [i] of [triTable_array] that differ from the sentinel -1. *)
Theorem C4_vertex_count_matches_row (i : Z) :
  0 <= i <= 255 ->
  exists (row : list Z) (n : Z),
    Tables.triTable_array !! Z.to_nat i = Some row /\
    read Tables.numVerticesTable_array i = Some n /\
    n `mod` 3 = 0 /\
    n = Reference.non_sentinel row.
Proof.
  intros Hi.
  assert (Hrow : Check.row_consistent i = true).
  { apply (counting_forallb _ 256); [apply rows_consistent|lia]. }
  unfold Check.row_consistent in Hrow.
  destruct (Tables.triTable_array !! Z.to_nat i) as [row|]; [|discriminate].
  destruct (read Tables.numVerticesTable_array i) as [n|]; [|discriminate].
  apply andb_prop in Hrow as [H3 Hn].
  apply bool_decide_eq_true in H3, Hn. by exists row, n.
Qed.

Lemma C4_vertex_count_matches_row_witness :
  0 <= 240 <= 255 /\
  exists (row : list Z) (n : Z),
    Tables.triTable_array !! Z.to_nat 240 = Some row /\
    read Tables.numVerticesTable_array 240 = Some n /\
    n `mod` 3 = 0 /\
    n = Reference.non_sentinel row.
Proof. split; [lia|]. apply (C4_vertex_count_matches_row 240). lia. Defined.

(** ** Classification *)

(** On non-negative cell indices the truncating operators of C++ are the
    [mod] and [div] of the specification. *)
Lemma base_index_mod_div (d0 d1 id : Z) :
  2 <= d0 -> 2 <= d1 -> 0 <= id ->
  Z.rem id (d0 - 1) + Z.rem (Z.quot id (d0 - 1)) (d1 - 1) * d0
    + Z.quot id ((d0 - 1) * (d1 - 1)) * (d0 * d1)
  = id `mod` (d0 - 1) + (id `div` (d0 - 1)) `mod` (d1 - 1) * d0
    + id `div` ((d0 - 1) * (d1 - 1)) * d0 * d1.
Proof.
  intros H0 H1 Hid.
  rewrite (Z.quot_div_nonneg id (d0 - 1)) by lia.
  rewrite (Z.quot_div_nonneg id ((d0 - 1) * (d1 - 1))) by nia.
  rewrite (Z.rem_mod_nonneg id (d0 - 1)) by lia.
  assert (0 <= id `div` (d0 - 1)) by (apply Z.div_pos; lia).
  rewrite (Z.rem_mod_nonneg (id `div` (d0 - 1)) (d1 - 1)) by lia.
  lia.
Qed.

(** What [classify_cell] computes on a grid with at least one cell per axis
    in [x] and [y], with the corner points of the reference definition. *)
Lemma classify_cell_unfold (input : image3d) (isovalue : float)
    (discardMinVals : bool) (table : list Z) (cell_id : Z) :
  2 <= dim0 input -> 2 <= dim1 input -> 0 <= cell_id ->
  exists f0 f1 f2 f3 f4 f5 f6 f7,
    point_data input <$> Reference.corner_points input cell_id
      = [f0; f1; f2; f3; f4; f5; f6; f7] /\
    classify_cell input isovalue discardMinVals table cell_id
      = (n ← read table (cubeindex_of isovalue f0 f1 f2 f3 f4 f5 f6 f7);
         Some (cubeindex_of isovalue f0 f1 f2 f3 f4 f5 f6 f7, n)).
Proof.
  intros H0 H1 Hid. unfold classify_cell, Reference.corner_points.
  repeat first [ rewrite int_rem_Some by nia | rewrite int_quot_Some by nia
               | progress cbn [mbind option_bind] ].
  rewrite (base_index_mod_div _ _ _ H0 H1 Hid).
  do 8 eexists. split; reflexivity.
Qed.




(** ** Binary32 subtraction *)

(** The number of binary digits of a mantissa bounds it from below. *)
Lemma digits2_pos_lower (m : positive) :
  2 ^ (Z.pos (digits2_pos m) - 1) <= Z.pos m.
Proof.
  induction m as [m IH|m IH|]; cbn [digits2_pos].
  - rewrite Pos2Z.inj_succ.
    replace (Z.succ (Z.pos (digits2_pos m)) - 1)
      with (Z.succ (Z.pos (digits2_pos m) - 1)) by lia.
    rewrite Z.pow_succ_r by lia. lia.
  - rewrite Pos2Z.inj_succ.
    replace (Z.succ (Z.pos (digits2_pos m)) - 1)
      with (Z.succ (Z.pos (digits2_pos m) - 1)) by lia.
    rewrite Z.pow_succ_r by lia. lia.
  - reflexivity.
Qed.

Lemma digits2_pos_shift (m d : positive) :
  Z.pos (digits2_pos (Pos.iter xO m d)) = Z.pos (digits2_pos m) + Z.pos d.
Proof.
  induction d as [|d IH] using Pos.peano_ind.
  - simpl. lia.
  - rewrite Pos.iter_succ. cbn [digits2_pos]. lia.
Qed.

Lemma shr_1_m (mrs : shr_record) :
  0 <= shr_m mrs -> shr_m (shr_1 mrs) = shr_m mrs `div` 2.
Proof.
  destruct mrs as [m r s]. cbn [shr_m]. intros Hm.
  destruct m as [|[p|p|]|p]; cbn [shr_1 shr_m]; try lia; try reflexivity.
  - rewrite Pos2Z.inj_xI. apply (Z.div_unique _ _ _ 1); lia.
  - rewrite Pos2Z.inj_xO. apply (Z.div_unique _ _ _ 0); lia.
Qed.

Lemma pow2_xO (p : positive) : 2 ^ Z.pos p~0 = 2 ^ Z.pos p * 2 ^ Z.pos p.
Proof. rewrite <- Z.pow_add_r by lia. f_equal. lia. Qed.

Lemma pow2_xI (p : positive) :
  2 ^ Z.pos p~1 = 2 * (2 ^ Z.pos p * 2 ^ Z.pos p).
Proof.
  replace (Z.pos p~1) with (Z.succ (Z.pos p~0)) by lia.
  rewrite Z.pow_succ_r by lia. by rewrite pow2_xO.
Qed.

Lemma iter_shr_1_m (p : positive) (mrs : shr_record) :
  0 <= shr_m mrs ->
  shr_m (SpecFloat.iter_pos shr_1 p mrs) = shr_m mrs `div` 2 ^ Z.pos p.
Proof.
  revert mrs. induction p as [p IH|p IH|]; intros mrs Hm;
    cbn [SpecFloat.iter_pos].
  - assert (Hp : 0 < 2 ^ Z.pos p) by (apply Z.pow_pos_nonneg; lia).
    assert (H1 : 0 <= shr_m (shr_1 mrs)).
    { rewrite shr_1_m by done. apply Z.div_pos; lia. }
    assert (H2 : 0 <= shr_m (SpecFloat.iter_pos shr_1 p (shr_1 mrs))).
    { rewrite IH by done. apply Z.div_pos; lia. }
    rewrite IH, IH, shr_1_m by done.
    rewrite !Z.div_div by lia. by rewrite pow2_xI, !Z.mul_assoc.
  - assert (Hp : 0 < 2 ^ Z.pos p) by (apply Z.pow_pos_nonneg; lia).
    assert (H2 : 0 <= shr_m (SpecFloat.iter_pos shr_1 p mrs)).
    { rewrite IH by done. apply Z.div_pos; lia. }
    rewrite IH, IH by done.
    rewrite !Z.div_div by lia. by rewrite pow2_xO.
  - rewrite shr_1_m by done. reflexivity.
Qed.

Lemma shr_record_of_loc_m (m : Z) (l : location) :
  shr_m (shr_record_of_loc m l) = m.
Proof. by destruct l as [|[]]. Qed.

(** Rounding to the binary32 format keeps a positive mantissa positive as
    long as the exponent is not below the minimal one. *)
Lemma shr_fexp_positive (m : positive) (e : Z) (l : location) :
  emin Float32.prec Float32.emax <= e ->
  0 < shr_m (shr_fexp Float32.prec Float32.emax (Z.pos m) e l).1 /\
  emin Float32.prec Float32.emax
    <= (shr_fexp Float32.prec Float32.emax (Z.pos m) e l).2.
Proof.
  unfold shr_fexp, fexp, emin, Float32.prec, Float32.emax, shr.
  cbn [Zdigits2]. intros He.
  destruct (Z.max (Z.pos (digits2_pos m) + e - 24) (3 - 128 - 24) - e)
    as [|p|p] eqn:Hn; cbn [fst snd]; rewrite ?shr_record_of_loc_m;
    try (split; lia).
  rewrite iter_shr_1_m by (rewrite shr_record_of_loc_m; lia).
  rewrite shr_record_of_loc_m. split; [|lia].
  apply Z.div_str_pos. split; [apply Z.pow_pos_nonneg; lia|].
  etransitivity; [|apply digits2_pos_lower].
  apply Z.pow_le_mono_r; lia.
Qed.

Lemma round_nearest_even_positive (m : Z) (l : location) :
  0 < m -> 0 < round_nearest_even m l.
Proof.
  intros Hm. destruct l as [|[]]; cbn [round_nearest_even]; try lia.
  destruct (Z.even m); lia.
Qed.

Lemma binary_round_aux_nonzero (s : bool) (m : positive) (e : Z)
    (l : location) :
  emin Float32.prec Float32.emax <= e ->
  Float32.is_zero
    (binary_round_aux Float32.prec Float32.emax s (Z.pos m) e l) = false.
Proof.
  intros He. unfold binary_round_aux.
  destruct (shr_fexp_positive m e l He) as [Hm1 He1].
  destruct (shr_fexp Float32.prec Float32.emax (Z.pos m) e l)
    as [mrs1 e1]. cbn [fst snd] in Hm1, He1.
  pose proof (round_nearest_even_positive (shr_m mrs1)
                (loc_of_shr_record mrs1) Hm1) as Hr.
  destruct (round_nearest_even (shr_m mrs1) (loc_of_shr_record mrs1))
    as [|m2|m2]; try lia.
  destruct (shr_fexp_positive m2 e1 loc_Exact He1) as [Hm2 _].
  destruct (shr_fexp Float32.prec Float32.emax (Z.pos m2) e1 loc_Exact)
    as [mrs2 e2]. cbn [fst] in Hm2.
  destruct (shr_m mrs2); try lia.
  by destruct (Z.leb e2 (Float32.emax - Float32.prec)).
Qed.

Lemma binary_normalize_nonzero (m e : Z) (s : bool) :
  m <> 0 -> emin Float32.prec Float32.emax <= e ->
  Float32.is_zero (binary_normalize Float32.prec Float32.emax m e s) = false.
Proof.
  intros Hm He.
  assert (Hround : forall (sx : bool) (p : positive),
    Float32.is_zero (binary_round Float32.prec Float32.emax sx p e) = false).
  { intros sx p. unfold binary_round, shl_align.
    destruct (fexp Float32.prec Float32.emax (Z.pos (digits2_pos p) + e) - e)
      eqn:Hd; apply binary_round_aux_nonzero; try done.
    unfold fexp. lia. }
  destruct m; [done|apply Hround..].
Qed.

(** A canonical finite binary32 number has an exponent above the minimal
    one. *)
Lemma bounded_emin (m : positive) (e : Z) :
  bounded Float32.prec Float32.emax m e = true ->
  emin Float32.prec Float32.emax <= e.
Proof.
  unfold bounded, canonical_mantissa, fexp.
  intros [H%Z.eqb_eq _]%andb_prop. lia.
Qed.

(** Two canonical mantissas that are equal once aligned on the smaller
    exponent have the same exponent. *)
Lemma aligned_canonical (mx my : positive) (ex ey : Z) :
  bounded Float32.prec Float32.emax mx ex = true ->
  bounded Float32.prec Float32.emax my ey = true ->
  (shl_align mx ex (Z.min ex ey)).1 = (shl_align my ey (Z.min ex ey)).1 ->
  mx = my /\ ex = ey.
Proof.
  unfold bounded, canonical_mantissa, fexp.
  intros [Hx%Z.eqb_eq _]%andb_prop [Hy%Z.eqb_eq _]%andb_prop.
  unfold shl_align.
  destruct (Z.min ex ey - ex) as [|dx|dx] eqn:Hdx;
    destruct (Z.min ex ey - ey) as [|dy|dy] eqn:Hdy;
    cbn [fst]; try lia; intros Hm.
  - exfalso. pose proof (digits2_pos_shift my dy) as Hs.
    rewrite <- Hm in Hs. lia.
  - exfalso. pose proof (digits2_pos_shift mx dx) as Hs.
    rewrite Hm in Hs. lia.
Qed.

(** Samples classified alike are the only ones whose difference is zero. *)
Lemma gt_zero_sign (s1 s2 : bool) (i : float) :
  Float32.gt (S754_zero s1) i = Float32.gt (S754_zero s2) i.
Proof. by destruct i. Qed.

Lemma sub_zero_same_class (x y isovalue : float) :
  Float32.valid x = true -> Float32.valid y = true ->
  Float32.is_zero (Float32.sub x y) = true ->
  Float32.gt x isovalue = Float32.gt y isovalue.
Proof.
  intros Hx Hy Hz.
  destruct x as [sx|sx| |sx mx ex], y as [sy|sy| |sy my ey];
    try (by destruct sx, sy); try (by destruct sx);
    try apply gt_zero_sign; try discriminate.
  cbn [Float32.valid valid_binary] in Hx, Hy.
  unfold Float32.sub in Hz. cbn [SFsub] in Hz.
  pose proof (bounded_emin _ _ Hx). pose proof (bounded_emin _ _ Hy).
  match type of Hz with
  | Float32.is_zero (binary_normalize _ _ ?d ?e ?s) = true =>
      destruct (decide (d = 0)) as [Hd|Hd];
      [|rewrite binary_normalize_nonzero in Hz by (done || lia);
        discriminate]
  end.
  assert (sx = sy /\
          (shl_align mx ex (Z.min ex ey)).1 = (shl_align my ey (Z.min ex ey)).1)
    as [-> Hm].
  { destruct sx, sy; cbn [cond_Zopp] in Hd; split; try done; try lia. }
  by destruct (aligned_canonical _ _ _ _ Hx Hy Hm) as [-> ->].
Qed.

(** ** Comparisons *)

Lemma SFcompare_antisym (x y : float) :
  SFcompare y x = CompOpp <$> SFcompare x y.
Proof.
  destruct x as [sx|sx| |sx mx ex], y as [sy|sy| |sy my ey];
    try reflexivity; try (by destruct sx); try (by destruct sy);
    try (by destruct sx, sy).
  cbn [SFcompare fmap option_fmap option_map].
  destruct sx, sy; try reflexivity; f_equal;
    rewrite (Z.compare_antisym ey ex);
    destruct (ey ?= ex); cbn [CompOpp]; try reflexivity;
    rewrite (Pos.compare_cont_antisym mx my Eq); cbn [CompOpp];
    by destruct (Pos.compare_cont Eq mx my).
Qed.

(** Away from NaN, a sample that is not above the isovalue is below or at
    it. *)
Lemma not_gt_le (a b isovalue : float) :
  Float32.gt a isovalue = true -> Float32.gt b isovalue = false ->
  Float32.is_nan b = false -> Float32.le b isovalue = true.
Proof.
  unfold Float32.gt, Float32.le, SFltb, SFleb. intros Ha Hb Hnan.
  rewrite (SFcompare_antisym isovalue b).
  destruct (SFcompare isovalue b) as [[]|] eqn:Hc;
    cbn [fmap option_fmap option_map CompOpp]; try done.
  destruct isovalue, b; try discriminate; destruct a; discriminate.
Qed.

(** ** The edges of the case table *)

Lemma base_index_Some (input : image3d) (id : Z) :
  2 <= dim0 input -> 2 <= dim1 input -> 0 <= id ->
  base_index input id
  = Some (id `mod` (dim0 input - 1)
          + (id `div` (dim0 input - 1)) `mod` (dim1 input - 1) * dim0 input
          + id `div` ((dim0 input - 1) * (dim1 input - 1))
            * dim0 input * dim1 input).
Proof.
  intros H0 H1 Hid. unfold base_index.
  repeat first [ rewrite int_rem_Some by nia | rewrite int_quot_Some by nia
               | progress cbn [mbind option_bind] ].
  f_equal. pose proof (base_index_mod_div _ _ _ H0 H1 Hid). lia.
Qed.

Lemma corner_samples_unfold (input : image3d) (id : Z) :
  2 <= dim0 input -> 2 <= dim1 input -> 0 <= id ->
  corner_samples input id
  = Some (point_data input <$> Reference.corner_points input id).
Proof.
  intros H0 H1 Hid. unfold corner_samples.
  rewrite base_index_Some by done. reflexivity.
Qed.

(** The table facts behind [Check.case_crosses], one case at a time. *)
Lemma case_crosses_spec (c : Z) :
  0 <= c < 256 ->
  exists n : Z,
    read Tables.numVertsTable c = Some n /\ 0 <= n <= 15 /\ n `mod` 3 = 0 /\
    forall v : Z, 0 <= v < n ->
      exists v0 v1 : Z,
        edge_corners Tables.triTable c v = Some (v0, v1) /\
        0 <= v0 < 8 /\ 0 <= v1 < 8 /\
        Z.testbit c v0 <> Z.testbit c v1.
Proof.
  intros Hc.
  pose proof (counting_forallb _ 256 c cases_cross Hc) as Hcase.
  unfold Check.case_crosses in Hcase.
  destruct (read Tables.numVertsTable c) as [n|]; [|discriminate].
  apply andb_prop in Hcase as [[Hn H3]%andb_prop Hall].
  apply bool_decide_eq_true in Hn, H3.
  exists n. repeat split; try done; try lia.
  intros v Hv. pose proof (counting_forallb _ n v Hall Hv) as Hcross.
  unfold Check.vertex_crosses in Hcross.
  destruct (edge_corners Tables.triTable c v) as [[v0 v1]|]; [|discriminate].
  apply andb_prop in Hcross as [[Hv0 Hv1]%andb_prop Hbits].
  apply bool_decide_eq_true in Hv0, Hv1.
  exists v0, v1. repeat split; try done; try lia.
  intros Heq. rewrite Heq in Hbits. by destruct (Z.testbit c v1).
Qed.

(** What every output vertex of a classified cell is interpolated from. *)
Lemma crossed_edge (input : image3d) (isovalue : float)
    (discardMinVals : bool) (id c n v : Z) :
  2 <= dim0 input -> 2 <= dim1 input -> 0 <= id ->
  classify_cell input isovalue discardMinVals Tables.numVertsTable id
    = Some (c, n) ->
  0 <= v < n ->
  exists (f : list float) (v0 v1 : Z) (p0 p1 : Z),
    corner_samples input id = Some f /\
    edge_corners Tables.triTable c v = Some (v0, v1) /\
    read f v0 = Some (point_data input p0) /\
    read f v1 = Some (point_data input p1) /\
    Float32.gt (point_data input p0) isovalue
      <> Float32.gt (point_data input p1) isovalue.
Proof.
  intros H0 H1 Hid Hcls Hv.
  destruct (classify_cell_unfold input isovalue discardMinVals
              Tables.numVertsTable id H0 H1 Hid)
    as (f0 & f1 & f2 & f3 & f4 & f5 & f6 & f7 & Hf & Hcls').
  rewrite Hcls' in Hcls.
  pose proof (cubeindex_of_range isovalue f0 f1 f2 f3 f4 f5 f6 f7) as Hc.
  destruct (case_crosses_spec _ Hc) as (n' & Hn' & _ & _ & Hedges).
  rewrite Hn' in Hcls. cbn [mbind option_bind] in Hcls.
  injection Hcls as <- <-.
  destruct (Hedges v Hv) as (v0 & v1 & He & Hv0 & Hv1 & Hbits).
  assert (Hcorner : forall k : Z, 0 <= k < 8 ->
    exists p : Z,
      read (point_data input <$> Reference.corner_points input id) k
        = Some (point_data input p) /\
      Z.testbit (cubeindex_of isovalue f0 f1 f2 f3 f4 f5 f6 f7) k
        = Float32.gt (point_data input p) isovalue).
  { intros k Hk.
    destruct (Reference.corner_points input id !! Z.to_nat k) as [p|] eqn:Hp.
    2:{ apply lookup_ge_None in Hp. cbn in Hp. lia. }
    exists p. split.
    - apply read_Some. split; [lia|]. by rewrite list_lookup_fmap, Hp.
    - rewrite <- (Z2Nat.id k) at 1 by lia. apply cubeindex_of_testbit.
      by rewrite <- Hf, list_lookup_fmap, Hp. }
  destruct (Hcorner v0 Hv0) as (p0 & Hr0 & Hb0).
  destruct (Hcorner v1 Hv1) as (p1 & Hr1 & Hb1).
  exists (point_data input <$> Reference.corner_points input id),
    v0, v1, p0, p1.
  rewrite corner_samples_unfold by done.
  repeat split; try done. congruence.
Qed.

(** C1, as amended: on a grid with all dimensions at least 2 whose samples
    are binary32 data, for every isovalue, every cell and every vertex slot
    v below the vertex count of the cell, the edge triTable[cubeindex*16+v]
    joins two corners that the strict greater-than test classifies
    differently: one sample is greater than the isovalue and the other is
    not, and that other one is less than or equal to the isovalue unless it
    is NaN.  The denominator f[v1] - f[v0] of the interpolation factor is
    therefore never a zero. *)
Theorem C1_crossed_edge_denominator (input : image3d) (isovalue : float)
    (discardMinVals : bool) (id c n v : Z) :
  2 <= dim0 input -> 2 <= dim1 input -> 2 <= dim2 input ->
  (forall p : Z, Float32.valid (point_data input p) = true) ->
  0 <= id < NCells input ->
  classify_cell input isovalue discardMinVals Tables.numVertsTable id
    = Some (c, n) ->
  0 <= v < n ->
  exists (f : list float) (v0 v1 : Z) (fv0 fv1 : float),
    corner_samples input id = Some f /\
    read f v0 = Some fv0 /\ read f v1 = Some fv1 /\
    edge_factor isovalue Tables.triTable f c v
      = Some (v0, v1,
              Float32.div (Float32.sub isovalue fv0) (Float32.sub fv1 fv0)) /\
    Float32.gt fv0 isovalue <> Float32.gt fv1 isovalue /\
    (Float32.is_nan fv0 = false -> Float32.is_nan fv1 = false ->
     Reference.opposite_sides isovalue fv0 fv1) /\
    Float32.is_zero (Float32.sub fv1 fv0) = false.
Proof.
  intros H0 H1 _ Hvalid [Hid _] Hcls Hv.
  destruct (crossed_edge input isovalue discardMinVals id c n v
              H0 H1 Hid Hcls Hv)
    as (f & v0 & v1 & p0 & p1 & Hf & He & Hr0 & Hr1 & Hne).
  exists f, v0, v1, (point_data input p0), (point_data input p1).
  repeat split; try done.
  - unfold edge_factor. rewrite He. cbn [mbind option_bind].
    rewrite Hr0. cbn [mbind option_bind]. by rewrite Hr1.
  - intros Hn0 Hn1. unfold Reference.opposite_sides.
    destruct (Float32.gt (point_data input p0) isovalue) eqn:Hg0,
      (Float32.gt (point_data input p1) isovalue) eqn:Hg1; try done.
    + left. split; [done|]. by apply (not_gt_le (point_data input p0)).
    + right. split; [done|]. by apply (not_gt_le (point_data input p1)).
  - destruct (Float32.is_zero
                (Float32.sub (point_data input p1) (point_data input p0)))
      eqn:Hz; [|done].
    exfalso. apply Hne. symmetry.
    by apply sub_zero_same_class.
Qed.

(** The example fields hold binary32 data. *)
Lemma Examples_field_valid (d0 d1 d2 : Z) (samples : list float) :
  Forall (fun x => Float32.valid x = true) samples ->
  forall p : Z,
    Float32.valid (point_data (Examples.field d0 d1 d2 samples) p) = true.
Proof.
  intros Hall p. cbn [Examples.field point_data].
  destruct (read samples p) as [x|] eqn:Hp; [|reflexivity].
  apply read_Some in Hp as [_ Hp]. cbn [default].
  by apply (Forall_lookup_1 _ _ _ _ Hall Hp).
Qed.

Lemma C1_crossed_edge_denominator_witness :
  exists (f : list float) (v0 v1 : Z) (fv0 fv1 : float),
    corner_samples Examples.corner0 0 = Some f /\
    read f v0 = Some fv0 /\ read f v1 = Some fv1 /\
    edge_factor Float32.half Tables.triTable f 1 0
      = Some (v0, v1,
              Float32.div (Float32.sub Float32.half fv0)
                          (Float32.sub fv1 fv0)) /\
    Float32.gt fv0 Float32.half <> Float32.gt fv1 Float32.half /\
    (Float32.is_nan fv0 = false -> Float32.is_nan fv1 = false ->
     Reference.opposite_sides Float32.half fv0 fv1) /\
    Float32.is_zero (Float32.sub fv1 fv0) = false.
Proof.
  apply (C1_crossed_edge_denominator Examples.corner0 Float32.half true
           0 1 3 0).
  - simpl. lia.
  - simpl. lia.
  - simpl. lia.
  - apply Examples_field_valid. repeat constructor.
  - unfold NCells. simpl. lia.
  - vm_compute. reflexivity.
  - lia.
Defined.

(** The claim C1 as it is stated fails on a NaN sample: in the one-cell grid
    with NaN at corner 0 and 1 at corner 1, vertex slot 0 of the cell lies
    on the edge joining corners 0 and 1, and NaN is neither greater than nor
    less than or equal to the isovalue 0.5. *)
Lemma C1_counterexample_nan :
  classify_cell Examples.with_nan Float32.half true Tables.numVertsTable 0
    = Some (2, 3) /\
  corner_samples Examples.with_nan 0
    = Some [Float32.nan; Examples.F1; Examples.F0; Examples.F0;
            Examples.F0; Examples.F0; Examples.F0; Examples.F0] /\
  edge_corners Tables.triTable 2 0 = Some (0, 1) /\
  ~ Reference.opposite_sides Float32.half Float32.nan Examples.F1.
Proof.
  repeat split; try reflexivity.
  unfold Reference.opposite_sides. intros [[H _]|[_ H]]; discriminate H.
Qed.

(** ** The separating plane of a single cell *)

(** C2, as amended: in a single-cell grid whose four bottom corners hold 0
    and whose four top corners hold 1, the isovalue 0.5 gives case index 240,
    the vertex count of that case is 6 (two triangles), and each of the six
    interpolation factors computed for the cell is 0.5. *)
Theorem C2_slab_case_240 (input : image3d) (discardMinVals : bool) :
  dim0 input = 2 -> dim1 input = 2 -> dim2 input = 2 ->
  (forall p : Z, 0 <= p < 4 -> point_data input p = Float32.zero) ->
  (forall p : Z, 4 <= p < 8 -> point_data input p = Float32.one) ->
  classify_cell input Float32.half discardMinVals Tables.numVertsTable 0
    = Some (240, 6) /\
  exists f : list float,
    corner_samples input 0 = Some f /\
    forall v : Z, 0 <= v < 6 ->
      exists v0 v1 : Z,
        edge_factor Float32.half Tables.triTable f 240 v
          = Some (v0, v1, Float32.half).
Proof.
  intros H0 H1 H2 Hbot Htop.
  assert (Hf : point_data input <$> Reference.corner_points input 0
               = [Float32.zero; Float32.zero; Float32.zero; Float32.zero;
                  Float32.one; Float32.one; Float32.one; Float32.one]).
  { unfold Reference.corner_points. rewrite H0, H1.
    change (0 `mod` (2 - 1) + (0 `div` (2 - 1)) `mod` (2 - 1) * 2
            + 0 `div` ((2 - 1) * (2 - 1)) * 2 * 2) with 0.
    cbn [fmap list_fmap]. rewrite !Hbot, !Htop by lia. reflexivity. }
  split.
  - destruct (classify_cell_unfold input Float32.half discardMinVals
                Tables.numVertsTable 0)
      as (f0 & f1 & f2 & f3 & f4 & f5 & f6 & f7 & Hf' & ->); try lia.
    rewrite Hf in Hf'. by injection Hf' as <- <- <- <- <- <- <- <-.
  - eexists. split.
    + rewrite corner_samples_unfold by lia. by rewrite Hf.
    + intros v Hv.
      assert (v = 0 \/ v = 1 \/ v = 2 \/ v = 3 \/ v = 4 \/ v = 5)
        as [->|[->|[->|[->|[->| ->]]]]] by lia;
        vm_compute; eauto.
Qed.

Lemma C2_slab_case_240_witness :
  classify_cell Examples.slab Float32.half true Tables.numVertsTable 0
    = Some (240, 6) /\
  exists f : list float,
    corner_samples Examples.slab 0 = Some f /\
    forall v : Z, 0 <= v < 6 ->
      exists v0 v1 : Z,
        edge_factor Float32.half Tables.triTable f 240 v
          = Some (v0, v1, Float32.half).
Proof.
  apply (C2_slab_case_240 Examples.slab true); try reflexivity.
  - intros p Hp.
    assert (p = 0 \/ p = 1 \/ p = 2 \/ p = 3) as [->|[->|[->| ->]]] by lia;
      reflexivity.
  - intros p Hp.
    assert (p = 4 \/ p = 5 \/ p = 6 \/ p = 7) as [->|[->|[->| ->]]] by lia;
      reflexivity.
Defined.

(** The claim C2 as it is stated fails on the vertex count: it is 6, not 12,
    for case 240 and for the cell of the scenario. *)
Lemma C2_counterexample_vertex_count :
  read Tables.numVertsTable 240 = Some 6 /\
  classify_cell Examples.slab Float32.half true Tables.numVertsTable 0
    <> Some (240, 12).
Proof. split; [reflexivity|discriminate]. Qed.

(** ** The [discardMinVals] flag *)

Lemma classify_cell_flag (input : image3d) (isovalue : float)
    (b1 b2 : bool) (table : list Z) (cell_id : Z) :
  classify_cell input isovalue b1 table cell_id
  = classify_cell input isovalue b2 table cell_id.
Proof. reflexivity. Qed.

Lemma classify_cells_flag (input : image3d) (isovalue : float)
    (b1 b2 : bool) :
  classify_cells input isovalue b1 = classify_cells input isovalue b2.
Proof. reflexivity. Qed.

Section Flag.
Context {M : PistonMath}.

(** An extraction commutes with an assignment to [discardMinVals]. *)
Lemma operator_call_flag (b : bool) (mc : marching_cube) :
  operator_call (set_discardMinVals b mc)
  = set_discardMinVals b <$> operator_call mc.
Proof.
  unfold operator_call.
  cbn [set_discardMinVals input isovalue discardMinVals useInterop vertices
       normals scalars num_total_vertices valid_cell_indices
       output_vertices_enum source].
  rewrite (classify_cells_flag (input mc) (isovalue mc) b (discardMinVals mc)).
  destruct (classify_cells (input mc) (isovalue mc) (discardMinVals mc))
    as [cls|]; [|reflexivity].
  cbn [mbind option_bind].
  destruct (Thrust.back (enumerate_valid_cells cls.*2)) as [nvc|];
    [|reflexivity].
  cbn [mbind option_bind].
  destruct (decide (nvc = 0)); [reflexivity|].
  repeat match goal with
  | |- context [option_bind _ _ _ ?o] =>
      lazymatch o with
      | Some _ => fail
      | None => fail
      | _ => destruct o; cbn [mbind option_bind fmap option_fmap option_map]
      end
  | |- context [mbind _ ?o] =>
      lazymatch o with
      | Some _ => fail
      | None => fail
      | _ => destruct o; cbn [mbind option_bind fmap option_fmap option_map]
      end
  end; try reflexivity.
  all: destruct (useInterop mc); try reflexivity.
  all: repeat match goal with
  | |- context [mbind _ ?o] =>
      lazymatch o with
      | Some _ => fail
      | None => fail
      | _ => destruct o; cbn [mbind option_bind fmap option_fmap option_map]
      end
  end; reflexivity.
Qed.

(** C10: the pair returned by [classify_cell] is the same whether
    [discardMinVals] is true or false, and two extractions that differ only
    in that flag yield the same vertices, the same normals and the same
    [num_total_vertices] (or are both undefined). *)
Theorem C10_discardMinVals_unobservable (mc : marching_cube) (b : bool) :
  (forall (input : image3d) (isovalue : float) (table : list Z) (id : Z),
     classify_cell input isovalue true table id
     = classify_cell input isovalue false table id) /\
  vertices <$> operator_call (set_discardMinVals b mc)
    = vertices <$> operator_call mc /\
  normals <$> operator_call (set_discardMinVals b mc)
    = normals <$> operator_call mc /\
  num_total_vertices <$> operator_call (set_discardMinVals b mc)
    = num_total_vertices <$> operator_call mc.
Proof.
  split; [intros; apply classify_cell_flag|].
  rewrite operator_call_flag.
  by destruct (operator_call mc).
Qed.

End Flag.

(** ** Compaction *)

Lemma read_cons_0 {A : Type} (x : A) (l : list A) : read (x :: l) 0 = Some x.
Proof. reflexivity. Qed.

Lemma read_cons_pos {A : Type} (x : A) (l : list A) (i : Z) :
  0 < i -> read (x :: l) i = read l (i - 1).
Proof.
  intros Hi. unfold read. rewrite !decide_True by lia.
  replace (Z.to_nat i) with (S (Z.to_nat (i - 1))) by lia. reflexivity.
Qed.

Lemma upper_bound1_range (l : list Z) (value : Z) :
  0 <= Thrust.upper_bound1 l value <= Z.of_nat (length l).
Proof.
  induction l as [|x l IH]; cbn [Thrust.upper_bound1 length]; [lia|].
  case_decide; lia.
Qed.

(** Before the position found, every element is at most the value. *)
Lemma upper_bound1_before (l : list Z) (value j e : Z) :
  0 <= j < Thrust.upper_bound1 l value -> read l j = Some e -> e <= value.
Proof.
  revert j. induction l as [|x l IH]; intros j; cbn [Thrust.upper_bound1].
  - lia.
  - case_decide as Hx; [lia|]. intros Hj Hr.
    destruct (decide (j = 0)) as [->|Hj0].
    + rewrite read_cons_0 in Hr. injection Hr as <-. lia.
    + rewrite read_cons_pos in Hr by lia. apply (IH (j - 1)); [lia|done].
Qed.

(** At the position found, if it is in the range, the element exceeds the
    value. *)
Lemma upper_bound1_at (l : list Z) (value : Z) :
  Thrust.upper_bound1 l value < Z.of_nat (length l) ->
  exists e : Z, read l (Thrust.upper_bound1 l value) = Some e /\ value < e.
Proof.
  induction l as [|x l IH]; cbn [Thrust.upper_bound1 length]; [lia|].
  case_decide as Hx; intros Hlen.
  - exists x. by rewrite read_cons_0.
  - destruct IH as (e & He & Hlt); [lia|]. exists e. split; [|done].
    pose proof (upper_bound1_range l value).
    rewrite read_cons_pos by lia.
    by replace (1 + Thrust.upper_bound1 l value - 1)
      with (Thrust.upper_bound1 l value) by lia.
Qed.

Lemma count_nonzero_nonneg (l : list Z) : 0 <= Reference.count_nonzero l.
Proof. unfold Reference.count_nonzero. lia. Qed.

Lemma is_valid_cell_nonzero (n : Z) : n <> 0 -> is_valid_cell n = true.
Proof. intros Hn. unfold is_valid_cell. by apply Z.eqb_neq in Hn as ->. Qed.

Lemma count_nonzero_cons (n : Z) (l : list Z) :
  Reference.count_nonzero (n :: l)
  = b2z (is_valid_cell n) + Reference.count_nonzero l.
Proof.
  unfold Reference.count_nonzero. rewrite filter_cons.
  destruct (decide (n = 0)) as [->|Hn].
  - reflexivity.
  - rewrite decide_True, is_valid_cell_nonzero by done.
    cbn [length b2z]. lia.
Qed.

Lemma length_nonzero_indices_from (i : Z) (l : list Z) :
  Z.of_nat (length (Reference.nonzero_indices_from i l))
  = Reference.count_nonzero l.
Proof.
  revert i. induction l as [|n l IH]; intros i; [reflexivity|].
  rewrite count_nonzero_cons. cbn [Reference.nonzero_indices_from].
  destruct (decide (n = 0)) as [->|Hn].
  - rewrite IH. reflexivity.
  - rewrite is_valid_cell_nonzero by done. cbn [length b2z].
    rewrite <- (IH (i + 1)). lia.
Qed.

(** The last element of the enumeration counts the valid cells. *)
Lemma back_inclusive_scan (acc : Z) (l : list Z) :
  l <> [] ->
  Thrust.back
    (Thrust.inclusive_scan_from acc ((fun x => b2z (is_valid_cell x)) <$> l))
  = Some (acc + Reference.count_nonzero l).
Proof.
  revert acc. induction l as [|n l IH]; intros acc Hne; [done|].
  rewrite count_nonzero_cons. destruct l as [|n' l].
  - cbn. f_equal. unfold Reference.count_nonzero. cbn. lia.
  - cbn [fmap list_fmap Thrust.inclusive_scan_from] in *.
    unfold Thrust.back in *. rewrite last_cons_cons.
    rewrite IH by done. f_equal. lia.
Qed.

(** Inverting the enumeration, rank by rank, lists the valid cells. *)
Lemma upper_bound_inclusive_scan (l : list Z) (acc i : Z) :
  (fun r => i + Thrust.upper_bound1
                  (Thrust.inclusive_scan_from acc
                     ((fun x => b2z (is_valid_cell x)) <$> l))
                  (acc + r))
    <$> counting (Reference.count_nonzero l)
  = Reference.nonzero_indices_from i l.
Proof.
  revert acc i. induction l as [|n l IH]; intros acc i; [reflexivity|].
  rewrite count_nonzero_cons.
  cbn [fmap list_fmap Thrust.inclusive_scan_from Reference.nonzero_indices_from
       Thrust.upper_bound1].
  pose proof (count_nonzero_nonneg l) as Hc.
  destruct (decide (n = 0)) as [->|Hn].
  - change (is_valid_cell 0) with false. cbn [b2z].
    rewrite Z.add_0_l, Z.add_0_r.
    rewrite <- (IH acc (i + 1)). apply list_fmap_ext. intros k r Hr.
    apply list_elem_of_lookup_2, elem_of_counting in Hr.
    rewrite decide_False by lia. lia.
  - rewrite is_valid_cell_nonzero by done. cbn [b2z].
    rewrite (Z.add_comm 1), counting_succ by done.
    cbn [fmap list_fmap]. rewrite decide_True by lia. f_equal; [lia|].
    rewrite <- list_fmap_compose, <- (IH (acc + 1) (i + 1)).
    apply list_fmap_ext. intros k r Hr.
    apply list_elem_of_lookup_2, elem_of_counting in Hr. cbn.
    rewrite decide_False by lia.
    replace (acc + Z.succ r) with (acc + 1 + r) by lia. lia.
Qed.

Lemma find_valid_cells_nonzero_indices (num_vertices : list Z) :
  find_valid_cells (enumerate_valid_cells num_vertices)
    (Reference.count_nonzero num_vertices)
  = Reference.nonzero_indices num_vertices.
Proof.
  unfold find_valid_cells, Thrust.upper_bound, enumerate_valid_cells,
    Thrust.transform_inclusive_scan, Reference.nonzero_indices.
  rewrite <- (upper_bound_inclusive_scan num_vertices 0 0).
  apply list_fmap_ext. intros k r _. by rewrite !Z.add_0_l.
Qed.

(** C5: for every vector of vertex counts, the upper-bound search of the
    ranks 0..num_valid_cells-1 in the inclusive scan of the nonzero-count
    indicator yields the in-order list of the cell indices whose count is
    nonzero, where [num_valid_cells] is the last element of that scan (the
    scan of an empty vector has none: it has no valid cell); the length of
    the list is [num_valid_cells], and its element of rank r is the smallest
    cell index whose cumulative count of valid cells exceeds r. *)
Theorem C5_compacted_valid_cells (num_vertices : list Z) :
  exists num_valid_cells : Z,
    (num_vertices <> [] ->
     Thrust.back (enumerate_valid_cells num_vertices)
       = Some num_valid_cells) /\
    find_valid_cells (enumerate_valid_cells num_vertices) num_valid_cells
      = Reference.nonzero_indices num_vertices /\
    Z.of_nat
      (length (find_valid_cells (enumerate_valid_cells num_vertices)
                 num_valid_cells))
      = num_valid_cells /\
    forall r cell : Z,
      read (find_valid_cells (enumerate_valid_cells num_vertices)
              num_valid_cells) r = Some cell ->
      (exists e : Z,
         read (enumerate_valid_cells num_vertices) cell = Some e /\ r < e) /\
      (forall j e : Z,
         0 <= j < cell ->
         read (enumerate_valid_cells num_vertices) j = Some e -> e <= r).
Proof.
  exists (Reference.count_nonzero num_vertices).
  assert (Hback : num_vertices <> [] ->
                  Thrust.back (enumerate_valid_cells num_vertices)
                  = Some (Reference.count_nonzero num_vertices)).
  { intros Hne. unfold enumerate_valid_cells, Thrust.transform_inclusive_scan.
    by rewrite back_inclusive_scan. }
  split; [done|]. split; [apply find_valid_cells_nonzero_indices|].
  split.
  { unfold find_valid_cells, Thrust.upper_bound.
    rewrite length_fmap, length_counting.
    pose proof (count_nonzero_nonneg num_vertices). lia. }
  intros r cell Hr.
  apply read_Some in Hr as [Hr0 Hr].
  unfold find_valid_cells, Thrust.upper_bound in Hr.
  rewrite list_lookup_fmap in Hr.
  destruct (counting (Reference.count_nonzero num_vertices) !! Z.to_nat r)
    as [r'|] eqn:Hr'; [|discriminate].
  injection Hr as <-.
  assert (Hrr : r' = r /\ r < Reference.count_nonzero num_vertices).
  { pose proof (lookup_lt_Some _ _ _ Hr') as Hlt.
    rewrite length_counting in Hlt.
    rewrite lookup_counting in Hr' by done. injection Hr' as <-. lia. }
  destruct Hrr as [-> Hrlt]. split.
  - apply upper_bound1_at.
    destruct (decide (Thrust.upper_bound1 (enumerate_valid_cells num_vertices) r
                      < Z.of_nat (length (enumerate_valid_cells num_vertices))))
      as [|Hge]; [done|exfalso].
    assert (Hne : num_vertices <> []).
    { intros ->. unfold Reference.count_nonzero in Hrlt. cbn in Hrlt. lia. }
    apply Hback, last_Some in Hne as [l' Hl'].
    assert (Hlast : read (enumerate_valid_cells num_vertices)
                      (Z.of_nat (length l'))
                    = Some (Reference.count_nonzero num_vertices)).
    { rewrite read_of_nat, Hl'. by apply list_lookup_middle. }
    apply (upper_bound1_before _ r) in Hlast; [lia|].
    rewrite Hl', length_app in Hge. cbn [length] in Hge.
    rewrite <- Hl' in Hge. lia.
  - intros j e Hj. by apply upper_bound1_before.
Qed.

Lemma C5_compacted_valid_cells_witness :
  exists num_valid_cells : Z,
    ([0; 3; 0; 6] <> [] ->
     Thrust.back (enumerate_valid_cells [0; 3; 0; 6])
       = Some num_valid_cells) /\
    find_valid_cells (enumerate_valid_cells [0; 3; 0; 6]) num_valid_cells
      = Reference.nonzero_indices [0; 3; 0; 6] /\
    Z.of_nat
      (length (find_valid_cells (enumerate_valid_cells [0; 3; 0; 6])
                 num_valid_cells))
      = num_valid_cells /\
    forall r cell : Z,
      read (find_valid_cells (enumerate_valid_cells [0; 3; 0; 6])
              num_valid_cells) r = Some cell ->
      (exists e : Z,
         read (enumerate_valid_cells [0; 3; 0; 6]) cell = Some e /\ r < e) /\
      (forall j e : Z,
         0 <= j < cell ->
         read (enumerate_valid_cells [0; 3; 0; 6]) j = Some e -> e <= r).
Proof. apply (C5_compacted_valid_cells [0; 3; 0; 6]). Defined.

Lemma inclusive_scan_from_lower (l : list Z) (acc : Z) (i : nat) (x : Z) :
  Thrust.inclusive_scan_from acc ((fun n => b2z (is_valid_cell n)) <$> l) !! i
    = Some x ->
  acc <= x.
Proof.
  revert acc i. induction l as [|n l IH]; intros acc i Hx; [discriminate|].
  cbn [fmap list_fmap Thrust.inclusive_scan_from] in Hx.
  assert (0 <= b2z (is_valid_cell n)) by (destruct (is_valid_cell n); cbn; lia).
  destruct i as [|i]; [injection Hx as <-; lia|].
  apply IH in Hx. lia.
Qed.

Lemma inclusive_scan_from_sorted (l : list Z) (acc : Z) (j k : nat)
    (a b : Z) :
  (j <= k)%nat ->
  Thrust.inclusive_scan_from acc ((fun n => b2z (is_valid_cell n)) <$> l) !! j
    = Some a ->
  Thrust.inclusive_scan_from acc ((fun n => b2z (is_valid_cell n)) <$> l) !! k
    = Some b ->
  a <= b.
Proof.
  revert acc j k. induction l as [|n l IH]; intros acc j k Hjk Hj Hk;
    [discriminate|].
  cbn [fmap list_fmap Thrust.inclusive_scan_from] in Hj, Hk.
  destruct j as [|j], k as [|k]; try lia.
  - injection Hj as <-. injection Hk as <-. lia.
  - injection Hj as <-. cbn [lookup list_lookup] in Hk.
    by apply inclusive_scan_from_lower in Hk.
  - cbn [lookup list_lookup] in Hj, Hk. eapply (IH _ j k); [lia|done..].
Qed.

(** The enumeration is sorted, as the search of [thrust::upper_bound]
    requires. *)
Lemma enumerate_valid_cells_sorted (num_vertices : list Z) (j k : nat)
    (a b : Z) :
  (j <= k)%nat ->
  enumerate_valid_cells num_vertices !! j = Some a ->
  enumerate_valid_cells num_vertices !! k = Some b ->
  a <= b.
Proof. apply inclusive_scan_from_sorted. Qed.

(** ** The loops of the geometry pass *)

Lemma for_each_app {S T : Type} (f : T -> S -> option S) (l1 l2 : list T)
    (s : S) :
  Thrust.for_each f (l1 ++ l2) s
  = (s' ← Thrust.for_each f l1 s; Thrust.for_each f l2 s').
Proof.
  revert s. induction l1 as [|t l1 IH]; intros s; [reflexivity|].
  cbn [app Thrust.for_each]. destruct (f t s) as [s1|]; [|reflexivity].
  cbn [mbind option_bind]. apply IH.
Qed.

Lemma counting_of_nat_S (m : nat) :
  counting (Z.of_nat (S m)) = counting (Z.of_nat m) ++ [Z.of_nat m].
Proof.
  rewrite Nat2Z.inj_succ. unfold Z.succ. apply counting_snoc. lia.
Qed.

(** A loop that stores a value at [off + v] for [v] from 0 to [m - 1] fills
    exactly the range from [off] to [off + m - 1]. *)
Lemma store_loop {A : Type} (g : Z -> option A) (off : Z) (m : nat)
    (s : list A) :
  (forall v : Z, 0 <= v < Z.of_nat m -> is_Some (g v)) ->
  0 <= off -> off + Z.of_nat m <= Z.of_nat (length s) ->
  exists s' : list A,
    Thrust.for_each (fun v s => x ← g v; write s (off + v) x)
      (counting (Z.of_nat m)) s = Some s' /\
    length s' = length s /\
    (forall j : Z, ~ off <= j < off + Z.of_nat m -> read s' j = read s j) /\
    (forall v : Z, 0 <= v < Z.of_nat m -> read s' (off + v) = g v).
Proof.
  intros Hg Hoff. induction m as [|m IH]; intros Hlen.
  - exists s. repeat split; try done. lia.
  - destruct IH as (s1 & Hrun & Hlen1 & Hout & Hin); [intros; apply Hg|..];
      try lia.
    destruct (Hg (Z.of_nat m)) as [x Hx]; [lia|].
    destruct (write_is_Some s1 (off + Z.of_nat m) x) as [s2 Hw]; [lia|].
    exists s2. rewrite counting_of_nat_S, for_each_app, Hrun.
    cbn [mbind option_bind Thrust.for_each]. rewrite Hx.
    cbn [mbind option_bind]. rewrite Hw. cbn [mbind option_bind].
    split; [done|]. split; [by rewrite (write_length _ _ _ _ Hw)|]. split.
    + intros j Hj. rewrite (read_write_ne _ _ _ j _ Hw) by lia.
      apply Hout. lia.
    + intros v Hv. destruct (decide (v = Z.of_nat m)) as [->|Hne].
      * by rewrite (read_write_eq _ _ _ _ Hw).
      * rewrite (read_write_ne _ _ _ (off + v) _ Hw) by lia.
        apply Hin. lia.
Qed.

Section Loops.
Context {M : PistonMath}.

(** The normal loop over [m] triangles fills exactly the range from [off] to
    [off + 3 m - 1], each triangle with its face normal. *)
Lemma normal_loop (vs : list float4) (off : Z) (m : nat) (ns : list float3) :
  0 <= off -> off + 3 * Z.of_nat m <= Z.of_nat (length vs) ->
  off + 3 * Z.of_nat m <= Z.of_nat (length ns) ->
  exists ns' : list float3,
    Thrust.for_each (triangle_normal vs off)
      ((fun k => 3 * k) <$> counting (Z.of_nat m)) ns = Some ns' /\
    length ns' = length ns /\
    (forall j : Z, ~ off <= j < off + 3 * Z.of_nat m ->
       read ns' j = read ns j) /\
    (forall k d : Z, 0 <= k < Z.of_nat m -> 0 <= d < 3 ->
       is_Some (face_normal vs off (3 * k)) /\
       read ns' (off + 3 * k + d) = face_normal vs off (3 * k)).
Proof.
  intros Hoff. induction m as [|m IH]; intros Hvs Hns.
  - exists ns. repeat split; try done; lia.
  - destruct IH as (n0 & Hrun & Hlen0 & Hout & Hin); try lia.
    assert (Hface : is_Some (face_normal vs off (3 * Z.of_nat m))).
    { unfold face_normal.
      destruct (proj2 (read_is_Some vs (off + 3 * Z.of_nat m))) as [a ->];
        [lia|].
      destruct (proj2 (read_is_Some vs (off + 3 * Z.of_nat m + 1)))
        as [b ->]; [lia|].
      destruct (proj2 (read_is_Some vs (off + 3 * Z.of_nat m + 2)))
        as [c ->]; [lia|].
      cbn [mbind option_bind]. eauto. }
    destruct Hface as [nrm Hnrm].
    destruct (write_is_Some n0 (off + 3 * Z.of_nat m + 2) nrm) as [n1 Hw1];
      [lia|].
    pose proof (write_length _ _ _ _ Hw1) as Hl1.
    destruct (write_is_Some n1 (off + 3 * Z.of_nat m + 1) nrm) as [n2 Hw2];
      [lia|].
    pose proof (write_length _ _ _ _ Hw2) as Hl2.
    destruct (write_is_Some n2 (off + 3 * Z.of_nat m) nrm) as [n3 Hw3];
      [lia|].
    pose proof (write_length _ _ _ _ Hw3) as Hl3.
    exists n3. rewrite counting_of_nat_S, fmap_app, for_each_app, Hrun.
    cbn [fmap list_fmap mbind option_bind Thrust.for_each].
    unfold triangle_normal at 1. rewrite Hnrm. cbn [mbind option_bind].
    rewrite Hw1. cbn [mbind option_bind].
    rewrite Hw2. cbn [mbind option_bind].
    rewrite Hw3. cbn [mbind option_bind].
    split; [done|]. split; [lia|]. split.
    + intros j Hj.
      rewrite (read_write_ne _ _ _ j _ Hw3) by lia.
      rewrite (read_write_ne _ _ _ j _ Hw2) by lia.
      rewrite (read_write_ne _ _ _ j _ Hw1) by lia.
      apply Hout. lia.
    + intros k d Hk Hd. destruct (decide (k = Z.of_nat m)) as [->|Hne].
      * split; [by rewrite Hnrm|]. rewrite Hnrm.
        assert (d = 0 \/ d = 1 \/ d = 2) as [->|[->| ->]] by lia.
        -- rewrite Z.add_0_r. apply (read_write_eq _ _ _ _ Hw3).
        -- rewrite (read_write_ne _ _ _ _ _ Hw3) by lia.
           apply (read_write_eq _ _ _ _ Hw2).
        -- rewrite (read_write_ne _ _ _ _ _ Hw3) by lia.
           rewrite (read_write_ne _ _ _ _ _ Hw2) by lia.
           apply (read_write_eq _ _ _ _ Hw1).
      * rewrite (read_write_ne _ _ _ _ _ Hw3) by lia.
        rewrite (read_write_ne _ _ _ _ _ Hw2) by lia.
        rewrite (read_write_ne _ _ _ _ _ Hw1) by lia.
        apply Hin; lia.
Qed.

End Loops.

(** ** [isosurface_functor] on one valid cell *)

Lemma base_index_is_Some (input : image3d) (cell_id : Z) :
  dim0 input - 1 <> 0 -> dim1 input - 1 <> 0 ->
  is_Some (base_index input cell_id).
Proof.
  intros H0 H1. unfold base_index.
  repeat first [ rewrite int_rem_Some by nia | rewrite int_quot_Some by nia
               | progress cbn [mbind option_bind] ].
  eauto.
Qed.

Section FunctorSpec.
Context {M : PistonMath}.

Lemma interpolated_vertex_is_Some (isovalue : float) (f : list float)
    (p : list float3) (c cnt v : Z) :
  length f = 8%nat -> length p = 8%nat ->
  0 <= c < 256 -> read Tables.numVertsTable c = Some cnt -> 0 <= v < cnt ->
  is_Some (interpolated_vertex isovalue Tables.triTable f p c v).
Proof.
  intros Hf Hp Hc Hcnt Hv.
  destruct (case_crosses_spec c Hc) as (n & Hn & _ & _ & Hedges).
  rewrite Hcnt in Hn. injection Hn as <-.
  destruct (Hedges v Hv) as (v0 & v1 & He & Hv0 & Hv1 & _).
  unfold interpolated_vertex, edge_factor. rewrite He.
  cbn [mbind option_bind].
  destruct (proj2 (read_is_Some f v0)) as [fv0 ->]; [lia|].
  destruct (proj2 (read_is_Some f v1)) as [fv1 ->]; [lia|].
  cbn [mbind option_bind].
  destruct (proj2 (read_is_Some p v0)) as [pv0 ->]; [lia|].
  destruct (proj2 (read_is_Some p v1)) as [pv1 ->]; [lia|].
  cbn [mbind option_bind]. eauto.
Qed.

(** On a tuple of the zipped range, whose vertex count is that of its case,
    the functor succeeds on every pair of output arrays that contain the
    range from [off] to [off + cnt - 1]; it leaves the arrays unchanged
    outside that range, and stores in it the interpolated vertices and the
    face normals of the cell. *)
Lemma isosurface_functor_spec (input : image3d) (isovalue : float)
    (cell off c cnt : Z) (vs : list float4) (ns : list float3) :
  dim0 input - 1 <> 0 -> dim1 input - 1 <> 0 ->
  0 <= c < 256 -> read Tables.numVertsTable c = Some cnt ->
  0 <= off ->
  off + cnt <= Z.of_nat (length vs) -> off + cnt <= Z.of_nat (length ns) ->
  exists (f : list float) (p : list float3) (vs' : list float4)
         (ns' : list float3),
    corner_samples input cell = Some f /\
    corner_positions input cell = Some p /\
    isosurface_functor input isovalue Tables.triTable (cell, off, c, cnt)
      (vs, ns) = Some (vs', ns') /\
    length vs' = length vs /\ length ns' = length ns /\
    (forall j : Z, ~ off <= j < off + cnt ->
       read vs' j = read vs j /\ read ns' j = read ns j) /\
    (forall v : Z, 0 <= v < cnt ->
       exists (x : float4) (nrm : float3),
         interpolated_vertex isovalue Tables.triTable f p c v = Some x /\
         read vs' (off + v) = Some x /\
         face_normal vs' off (3 * (v `div` 3)) = Some nrm /\
         read ns' (off + v) = Some nrm).
Proof.
  intros H0 H1 Hc Hcnt Hoff Hvs Hns.
  destruct (base_index_is_Some input cell H0 H1) as [i0 Hi0].
  destruct (case_crosses_spec c Hc) as (n & Hn & Hrange & H3 & _).
  rewrite Hcnt in Hn. injection Hn as <-.
  set (f := point_data input <$> corner_indices i0 (dim0 input) (dim1 input)).
  set (p := (fun k => tuple2float3 (physical_coordinates input k))
              <$> corner_indices i0 (dim0 input) (dim1 input)).
  assert (Hg : forall v : Z, 0 <= v < Z.of_nat (Z.to_nat cnt) ->
            is_Some (interpolated_vertex isovalue Tables.triTable f p c v)).
  { intros v Hv.
    apply (interpolated_vertex_is_Some _ _ _ _ cnt);
      [reflexivity|reflexivity|done|done|lia]. }
  destruct (store_loop _ off (Z.to_nat cnt) vs Hg Hoff)
    as (vs' & Hrun1 & Hlen1 & Hout1 & Hin1); [lia|].
  assert (Hdiv : 3 * (cnt `div` 3) = cnt).
  { pose proof (Z.div_mod cnt 3). lia. }
  assert (Htri : 3 * Z.of_nat (Z.to_nat (cnt `div` 3)) = cnt).
  { rewrite Z2Nat.id; [done|]. apply Z.div_pos; lia. }
  destruct (normal_loop vs' off (Z.to_nat (cnt `div` 3)) ns Hoff)
    as (ns' & Hrun2 & Hlen2 & Hout2 & Hin2); [lia..|].
  exists f, p, vs', ns'.
  unfold corner_samples, corner_positions, isosurface_functor.
  unfold corner_samples, corner_positions. rewrite Hi0.
  cbn [mbind option_bind fst snd]. fold f p.
  rewrite Z2Nat.id in Hrun1 by lia.
  unfold interpolate_vertex. rewrite Hrun1. cbn [mbind option_bind].
  unfold triples.
  replace ((cnt + 2) `div` 3) with (cnt `div` 3)
    by (apply (Z.div_unique _ _ _ 2); lia).
  rewrite Z2Nat.id in Hrun2 by lia. rewrite Hrun2.
  cbn [mbind option_bind].
  repeat split; try done.
  - apply Hout1. lia.
  - apply Hout2. lia.
  - intros v Hv. destruct (Hg v) as [x Hx]; [lia|].
    assert (Hk : 0 <= v `div` 3 < Z.of_nat (Z.to_nat (cnt `div` 3))).
    { split; [apply Z.div_pos; lia|].
      rewrite Z2Nat.id by (apply Z.div_pos; lia).
      apply Z.div_lt_upper_bound; lia. }
    pose proof (Z.mod_pos_bound v 3) as Hd.
    pose proof (Z.div_mod v 3) as Hv3.
    destruct (Hin2 (v `div` 3) (v `mod` 3)) as [[nrm Hnrm] Hrd]; [lia..|].
    exists x, nrm. split; [done|]. split; [|split; [done|]].
    + rewrite Hin1 by lia. done.
    + rewrite <- Hnrm, <- Hrd. f_equal. lia.
Qed.

End FunctorSpec.

(** ** The classification pass *)

Lemma classify_cell_case_entry (input : image3d) (isovalue : float)
    (discardMinVals : bool) (cell_id : Z) :
  dim0 input - 1 <> 0 -> dim1 input - 1 <> 0 ->
  exists cn : Z * Z,
    classify_cell input isovalue discardMinVals Tables.numVertsTable cell_id
      = Some cn /\
    Reference.case_entry cn.
Proof.
  intros H0 H1. unfold classify_cell.
  repeat first [ rewrite int_rem_Some by nia | rewrite int_quot_Some by nia
               | progress cbn [mbind option_bind] ].
  match goal with
  | |- context [read Tables.numVertsTable ?c] =>
      assert (Hc : 0 <= c < 256) by apply cubeindex_of_range;
      destruct (numVertsTable_read c Hc) as [n Hn]; rewrite Hn;
      exists (c, n); cbn [mbind option_bind];
      split; [reflexivity|]; split; [exact Hc|exact Hn]
  end.
Qed.

Lemma NCells_positive_dims (input : image3d) :
  0 < NCells input -> dim0 input - 1 <> 0 /\ dim1 input - 1 <> 0.
Proof. unfold NCells. nia. Qed.

Lemma classify_cells_Some (input : image3d) (isovalue : float)
    (discardMinVals : bool) :
  0 < NCells input ->
  exists cls : list (Z * Z),
    classify_cells input isovalue discardMinVals = Some cls /\
    Z.of_nat (length cls) = NCells input /\
    Forall Reference.case_entry cls /\
    Forall2 (fun id cn =>
               classify_cell input isovalue discardMinVals
                 Tables.numVertsTable id = Some cn)
      (counting (NCells input)) cls.
Proof.
  intros Hn. destruct (NCells_positive_dims input Hn) as [H0 H1].
  unfold classify_cells.
  destruct (mapM (classify_cell input isovalue discardMinVals
                    Tables.numVertsTable) (counting (NCells input)))
    as [cls|] eqn:Hcls.
  - exists cls. apply mapM_Some in Hcls. split; [done|]. split.
    + assert (Hlen := Hcls). apply Forall2_length in Hlen.
      rewrite <- Hlen, length_counting. lia.
    + split; [|done]. apply Forall_lookup. intros k cn Hk.
      destruct (Forall2_lookup_r _ _ _ _ _ Hcls Hk) as (id & _ & Hid).
      destruct (classify_cell_case_entry input isovalue discardMinVals id
                  H0 H1) as (cn' & Hcn' & Hentry).
      congruence.
  - exfalso. apply mapM_None in Hcls. apply Exists_exists in Hcls.
    destruct Hcls as (id & _ & Hid).
    destruct (classify_cell_case_entry input isovalue discardMinVals id
                H0 H1) as (cn' & Hcn' & _).
    congruence.
Qed.

(** ** Reading the valid cells through the permutation iterators *)

Lemma permutation_fmap {A B : Type} (f : A -> B) (l : list A)
    (indices : list Z) :
  Thrust.permutation (f <$> l) indices
  = (fmap f : list A -> list B) <$> Thrust.permutation l indices.
Proof.
  unfold Thrust.permutation.
  induction indices as [|i indices IH]; [reflexivity|].
  cbn [mapM]. rewrite read_fmap, IH.
  destruct (read l i); [|reflexivity].
  cbn [fmap option_fmap option_map mbind option_bind].
  by destruct (mapM (read l) indices).
Qed.

Lemma read_app_length {A : Type} (pre l : list A) (x : A) :
  read (pre ++ x :: l) (Z.of_nat (length pre)) = Some x.
Proof. rewrite read_of_nat. by apply list_lookup_middle. Qed.

Lemma permutation_nonzero_from (pre cls : list (Z * Z)) :
  Thrust.permutation (pre ++ cls)
    (Reference.nonzero_indices_from (Z.of_nat (length pre)) cls.*2)
  = Some (Reference.valid_pairs cls).
Proof.
  revert pre. induction cls as [|[c n] cls IH]; intros pre; [reflexivity|].
  cbn [fmap list_fmap snd Reference.nonzero_indices_from].
  unfold Reference.valid_pairs. rewrite filter_cons. cbn [snd].
  assert (Hshift : Z.of_nat (length pre) + 1
                   = Z.of_nat (length (pre ++ [(c, n)]))).
  { rewrite length_app. cbn [length]. lia. }
  specialize (IH (pre ++ [(c, n)])).
  rewrite <- app_assoc in IH. cbn [app] in IH.
  destruct (decide (n = 0)) as [->|Hn].
  - rewrite decide_False by (intros H; by apply H).
    rewrite Hshift. apply IH.
  - rewrite decide_True by done. unfold Thrust.permutation. cbn [mapM].
    rewrite read_app_length. cbn [mbind option_bind].
    rewrite Hshift. unfold Thrust.permutation in IH. rewrite IH.
    reflexivity.
Qed.

Lemma permutation_valid_pairs (cls : list (Z * Z)) :
  Thrust.permutation cls (Reference.nonzero_indices cls.*2)
  = Some (Reference.valid_pairs cls).
Proof. apply (permutation_nonzero_from [] cls). Qed.

Lemma length_valid_pairs (cls : list (Z * Z)) :
  Z.of_nat (length (Reference.valid_pairs cls))
  = Reference.count_nonzero cls.*2.
Proof.
  unfold Reference.valid_pairs, Reference.count_nonzero.
  induction cls as [|[c n] cls IH]; [reflexivity|].
  cbn [fmap list_fmap snd]. rewrite !filter_cons. cbn [snd].
  destruct (decide (n <> 0)); cbn [length]; lia.
Qed.

Lemma valid_pairs_entries (cls : list (Z * Z)) :
  Forall Reference.case_entry cls ->
  Forall (fun cn => Reference.case_entry cn /\ 0 < cn.2 <= 15
                    /\ cn.2 `mod` 3 = 0)
    (Reference.valid_pairs cls).
Proof.
  intros Hall. apply list.Forall_forall. intros [c n] Hin.
  apply list_elem_of_filter in Hin as [Hn Hin]. cbn [snd] in Hn.
  apply (proj1 (list.Forall_forall _ _) Hall) in Hin.
  split; [done|]. destruct Hin as [Hc Hread]. cbn [fst snd] in *.
  destruct (case_crosses_spec c Hc) as (n' & Hn' & Hrange & H3 & _).
  rewrite Hread in Hn'. injection Hn' as <-. lia.
Qed.

(** ** Output offsets *)

Lemma sum_app (l1 l2 : list Z) :
  Reference.sum (l1 ++ l2) = Reference.sum l1 + Reference.sum l2.
Proof.
  unfold Reference.sum. induction l1 as [|x l1 IH]; cbn [app foldr]; lia.
Qed.

Lemma sum_take_S (l : list Z) (k : nat) (x : Z) :
  l !! k = Some x ->
  Reference.sum (take (S k) l) = Reference.sum (take k l) + x.
Proof.
  intros Hk. rewrite (take_S_r _ _ _ Hk), sum_app.
  unfold Reference.sum. cbn [foldr]. lia.
Qed.

Lemma sum_nonneg (l : list Z) :
  Forall (fun x => 0 < x) l -> 0 <= Reference.sum l.
Proof.
  unfold Reference.sum. induction 1 as [|x l Hx _ IH]; cbn [foldr]; lia.
Qed.


Lemma sum_multiple_of_3 (l : list Z) :
  Forall (fun x => x `mod` 3 = 0) l -> Reference.sum l `mod` 3 = 0.
Proof.
  unfold Reference.sum. induction 1 as [|x l Hx _ IH]; cbn [foldr];
    [reflexivity|].
  rewrite Z.add_mod, Hx, IH by lia. reflexivity.
Qed.

Lemma length_exclusive_scan_from (acc : Z) (l : list Z) :
  length (Thrust.exclusive_scan_from acc l) = length l.
Proof.
  revert acc. induction l as [|x l IH]; intros acc; [reflexivity|].
  cbn [Thrust.exclusive_scan_from length]. by rewrite IH.
Qed.

(** Each offset is the sum of the counts before it. *)
Lemma lookup_exclusive_scan_from (acc : Z) (l : list Z) (k : nat) :
  (k < length l)%nat ->
  Thrust.exclusive_scan_from acc l !! k
  = Some (acc + Reference.sum (take k l)).
Proof.
  revert acc k. induction l as [|x l IH]; intros acc k Hk;
    cbn [length] in Hk; [lia|].
  cbn [Thrust.exclusive_scan_from]. destruct k as [|k].
  - cbn. f_equal. unfold Reference.sum. cbn. lia.
  - cbn [lookup list_lookup take]. rewrite IH by lia. f_equal.
    unfold Reference.sum. cbn [foldr]. lia.
Qed.

Lemma back_lookup {A : Type} (l : list A) :
  Thrust.back l = l !! pred (length l).
Proof. apply last_lookup. Qed.

(** The last offset and the last count add up to the sum of the counts. *)
Lemma back_exclusive_scan (l : list Z) :
  l <> [] ->
  exists o c : Z,
    Thrust.back (Thrust.exclusive_scan l) = Some o /\
    Thrust.back l = Some c /\
    c + o = Reference.sum l.
Proof.
  intros Hne. assert (Hlen : (0 < length l)%nat).
  { destruct l; [done|cbn; lia]. }
  destruct (lookup_lt_is_Some_2 l (pred (length l))) as [c Hc]; [lia|].
  exists (Reference.sum (take (pred (length l)) l)), c.
  unfold Thrust.exclusive_scan.
  rewrite !back_lookup, length_exclusive_scan_from.
  rewrite lookup_exclusive_scan_from by lia.
  split; [f_equal; lia|]. split; [done|].
  rewrite Z.add_comm, <- (sum_take_S _ _ _ Hc).
  replace (S (pred (length l))) with (length l) by lia.
  by rewrite firstn_all.
Qed.

Lemma length_resize {A : Type} (n : Z) (d : A) (v : list A) :
  length (Thrust.resize n d v) = Z.to_nat n.
Proof.
  unfold Thrust.resize. rewrite length_app, length_take, length_replicate.
  lia.
Qed.

(** ** The geometry pass *)

Section GeometryPass.
Context {M : PistonMath}.

(** The functor succeeds on every tuple of the zipped range when the offsets
    are the running sums of the counts and the arrays hold their total. *)
Lemma geometry_for_each (input : image3d) (isovalue : float)
    (valid : list (Z * Z)) (cells : list Z) (acc : Z)
    (vs : list float4) (ns : list float3) :
  dim0 input - 1 <> 0 -> dim1 input - 1 <> 0 ->
  length cells = length valid ->
  Forall (fun cn => Reference.case_entry cn /\ 0 < cn.2 <= 15
                    /\ cn.2 `mod` 3 = 0) valid ->
  0 <= acc ->
  acc + Reference.sum valid.*2 <= Z.of_nat (length vs) ->
  acc + Reference.sum valid.*2 <= Z.of_nat (length ns) ->
  exists (vs' : list float4) (ns' : list float3),
    Thrust.for_each (isosurface_functor input isovalue Tables.triTable)
      (Thrust.zip4 cells (Thrust.exclusive_scan_from acc valid.*2)
         valid.*1 valid.*2) (vs, ns) = Some (vs', ns') /\
    length vs' = length vs /\ length ns' = length ns.
Proof.
  intros H0 H1. revert cells acc vs ns.
  induction valid as [|[c n] valid IH]; intros cells acc vs ns Hlen Hall
    Hacc Hvs Hns.
  - exists vs, ns. by destruct cells.
  - destruct cells as [|cell cells]; [done|].
    apply list.Forall_cons in Hall as [([Hc Hread] & Hn & H3) Hall].
    cbn [fst snd] in Hc, Hread, Hn, H3.
    cbn [fmap list_fmap fst snd Thrust.exclusive_scan_from Thrust.zip4
         Thrust.for_each].
    assert (Hsum : Reference.sum ((c, n) :: valid).*2
                   = n + Reference.sum valid.*2) by reflexivity.
    assert (0 <= Reference.sum valid.*2).
    { apply sum_nonneg, Forall_fmap.
      eapply list.Forall_impl; [exact Hall|]. cbn. intros ? (_ & ? & _).
      lia. }
    destruct (isosurface_functor_spec input isovalue cell acc c n vs ns)
      as (f & p & vs1 & ns1 & _ & _ & Hrun & Hl1 & Hl2 & _); try done;
      try lia.
    rewrite Hrun. cbn [mbind option_bind].
    destruct (IH cells (acc + n) vs1 ns1) as (vs' & ns' & Hrest & Hl3 & Hl4);
      try done; try lia.
    { cbn [length] in Hlen. lia. }
    exists vs', ns'. split; [done|]. split; congruence.
Qed.

End GeometryPass.

(** ** [operator()] as a whole *)

Section OperatorCall.
Context {M : PistonMath}.

Lemma generate_geometry_Some (input : image3d) (isovalue : float)
    (cls : list (Z * Z)) (vs : list float4) (ns : list float3) :
  dim0 input - 1 <> 0 -> dim1 input - 1 <> 0 ->
  Forall Reference.case_entry cls ->
  exists (vs' : list float4) (ns' : list float3),
    generate_geometry input isovalue cls.*1 cls.*2
      (Reference.nonzero_indices cls.*2)
      (Thrust.exclusive_scan (Reference.valid_pairs cls).*2)
      (Reference.sum (Reference.valid_pairs cls).*2) vs ns
    = Some (vs', ns') /\
    Z.of_nat (length vs') = Reference.sum (Reference.valid_pairs cls).*2 /\
    Z.of_nat (length ns') = Reference.sum (Reference.valid_pairs cls).*2.
Proof.
  intros H0 H1 Hall. unfold generate_geometry.
  rewrite !permutation_fmap, permutation_valid_pairs.
  cbn [fmap option_fmap option_map mbind option_bind].
  pose proof (valid_pairs_entries cls Hall) as Hvalid.
  assert (Hsum : 0 <= Reference.sum (Reference.valid_pairs cls).*2).
  { apply sum_nonneg, Forall_fmap.
    eapply list.Forall_impl; [exact Hvalid|]. cbn. intros ? (_ & ? & _).
    lia. }
  destruct (geometry_for_each input isovalue (Reference.valid_pairs cls)
              (Reference.nonzero_indices cls.*2) 0
              (Thrust.resize (Reference.sum (Reference.valid_pairs cls).*2)
                 float4_zero vs)
              (Thrust.resize (Reference.sum (Reference.valid_pairs cls).*2)
                 float3_zero ns))
    as (vs' & ns' & Hrun & Hl1 & Hl2); try done.
  - apply Nat2Z.inj.
    rewrite length_valid_pairs.
    apply (length_nonzero_indices_from 0).
  - rewrite length_resize. lia.
  - rewrite length_resize. lia.
  - exists vs', ns'. split; [exact Hrun|].
    rewrite Hl1, Hl2, !length_resize. lia.
Qed.

(** A complete description of an extraction over a grid with cells. *)
Lemma operator_call_spec (mc : marching_cube) :
  0 < NCells (input mc) ->
  exists (cls : list (Z * Z)) (mc' : marching_cube),
    classify_cells (input mc) (isovalue mc) (discardMinVals mc) = Some cls /\
    Z.of_nat (length cls) = NCells (input mc) /\
    Forall Reference.case_entry cls /\
    operator_call mc = Some mc' /\
    input mc' = input mc /\ isovalue mc' = isovalue mc /\
    case_index mc' = cls.*1 /\ num_vertices mc' = cls.*2 /\
    valid_cell_enum mc' = enumerate_valid_cells cls.*2 /\
    Thrust.back (valid_cell_enum mc')
      = Some (Reference.count_nonzero cls.*2) /\
    (Reference.count_nonzero cls.*2 = 0 ->
       vertices mc' = [] /\ normals mc' = [] /\ scalars mc' = [] /\
       num_total_vertices mc' = num_total_vertices mc /\
       valid_cell_indices mc' = valid_cell_indices mc /\
       output_vertices_enum mc' = output_vertices_enum mc) /\
    (Reference.count_nonzero cls.*2 <> 0 ->
       valid_cell_indices mc' = Reference.nonzero_indices cls.*2 /\
       output_vertices_enum mc'
         = Thrust.exclusive_scan (Reference.valid_pairs cls).*2 /\
       num_total_vertices mc'
         = Reference.sum (Reference.valid_pairs cls).*2 /\
       (useInterop mc = true ->
          vertices mc' = vertices mc /\ normals mc' = normals mc) /\
       (useInterop mc = false ->
          generate_geometry (input mc) (isovalue mc) cls.*1 cls.*2
            (Reference.nonzero_indices cls.*2)
            (Thrust.exclusive_scan (Reference.valid_pairs cls).*2)
            (Reference.sum (Reference.valid_pairs cls).*2)
            (vertices mc) (normals mc)
          = Some (vertices mc', normals mc') /\
          Z.of_nat (length (vertices mc')) = num_total_vertices mc' /\
          Z.of_nat (length (normals mc')) = num_total_vertices mc')).
Proof.
  intros Hn. destruct (NCells_positive_dims _ Hn) as [H0 H1].
  destruct (classify_cells_Some (input mc) (isovalue mc) (discardMinVals mc)
              Hn) as (cls & Hcls & Hlen & Hall & _).
  exists cls. unfold operator_call. rewrite Hcls. cbn [mbind option_bind].
  assert (Hne : cls.*2 <> []).
  { destruct cls; [cbn in Hlen; lia|done]. }
  assert (Hback : Thrust.back (enumerate_valid_cells cls.*2)
                  = Some (Reference.count_nonzero cls.*2)).
  { unfold enumerate_valid_cells, Thrust.transform_inclusive_scan.
    by rewrite back_inclusive_scan. }
  rewrite Hback. cbn [mbind option_bind].
  destruct (decide (Reference.count_nonzero cls.*2 = 0)) as [Hz|Hnz].
  { eexists. repeat split; try reflexivity; try done. }
  rewrite find_valid_cells_nonzero_indices.
  rewrite permutation_fmap, permutation_valid_pairs.
  cbn [fmap option_fmap option_map mbind option_bind].
  assert (Hvne : (Reference.valid_pairs cls).*2 <> []).
  { pose proof (length_valid_pairs cls).
    destruct (Reference.valid_pairs cls); [cbn in *; lia|done]. }
  destruct (back_exclusive_scan _ Hvne) as (o & c & Ho & Hc & Hoc).
  assert (Hperm : Thrust.permutation cls.*2 (Reference.nonzero_indices cls.*2)
                  = Some (Reference.valid_pairs cls).*2).
  { by rewrite permutation_fmap, permutation_valid_pairs. }
  apply mapM_Some in Hperm.
  pose proof (Forall2_last _ _ _ Hperm) as Hlast.
  unfold Thrust.back in Hc, Ho, Hback |- *. rewrite Hc in Hlast.
  inversion Hlast as [last_cell c' Hread Hlc Hc'|]; subst c'.
  cbn [mbind option_bind].
  rewrite Hread. cbn [mbind option_bind].
  rewrite Ho. cbn [mbind option_bind].
  destruct (useInterop mc) eqn:Hinterop.
  { rewrite Hoc.
    eexists. repeat split; try reflexivity; try done; discriminate. }
  destruct (generate_geometry_Some (input mc) (isovalue mc) cls
              (vertices mc) (normals mc) H0 H1 Hall)
    as (vs' & ns' & Hgeo & Hl1 & Hl2).
  rewrite Hoc, Hgeo. cbn [mbind option_bind].
  eexists. repeat split; try reflexivity; try done; discriminate.
Qed.

End OperatorCall.

(** ** Grids without cells, grids of any dimensions *)

Section NoCheck.
Context {M : PistonMath}.

(** Without cells, [valid_cell_enum.back()] is taken on an empty vector: the
    extraction has no defined result. *)
Lemma operator_call_no_cells (mc : marching_cube) :
  NCells (input mc) <= 0 -> operator_call mc = None.
Proof.
  intros Hn. unfold operator_call, classify_cells.
  by rewrite counting_nonpos.
Qed.

Lemma operator_call_cells (mc mc' : marching_cube) :
  operator_call mc = Some mc' -> 0 < NCells (input mc).
Proof.
  intros Hrun. destruct (decide (0 < NCells (input mc))) as [|Hn]; [done|].
  rewrite operator_call_no_cells in Hrun by lia. discriminate.
Qed.


End NoCheck.



(** ** Isovalues outside the range of the samples *)

Lemma lt_not_gt (a b : float) :
  Float32.lt a b = true -> Float32.gt a b = false.
Proof.
  unfold Float32.lt, Float32.gt, SFltb.
  rewrite (SFcompare_antisym a b).
  by destruct (SFcompare a b) as [[]|].
Qed.

Lemma cubeindex_of_above (isovalue f0 f1 f2 f3 f4 f5 f6 f7 : float) :
  Forall (fun f => Float32.lt f isovalue = true)
    [f0; f1; f2; f3; f4; f5; f6; f7] ->
  cubeindex_of isovalue f0 f1 f2 f3 f4 f5 f6 f7 = 0.
Proof.
  intros Hall. unfold cubeindex_of.
  repeat match goal with
  | H : Forall _ (_ :: _) |- _ =>
      apply list.Forall_cons in H as [?%lt_not_gt H]
  end.
  by repeat match goal with H : Float32.gt _ _ = false |- _ =>
                rewrite H; clear H end.
Qed.

Lemma cubeindex_of_below (isovalue f0 f1 f2 f3 f4 f5 f6 f7 : float) :
  Forall (fun f => Float32.lt isovalue f = true)
    [f0; f1; f2; f3; f4; f5; f6; f7] ->
  cubeindex_of isovalue f0 f1 f2 f3 f4 f5 f6 f7 = 255.
Proof.
  intros Hall. unfold cubeindex_of, Float32.gt. unfold Float32.lt in Hall.
  repeat match goal with
  | H : Forall _ (_ :: _) |- _ =>
      apply list.Forall_cons in H as [? H]
  end.
  by repeat match goal with H : SFltb _ _ = true |- _ =>
                rewrite H; clear H end.
Qed.

(** Outside the range of the samples every cell has a vertex count of 0. *)
Lemma classify_cell_outside (input : image3d) (isovalue : float)
    (discardMinVals : bool) (id : Z) (cn : Z * Z) :
  (forall p : Z, Float32.lt (point_data input p) isovalue = true) \/
  (forall p : Z, Float32.lt isovalue (point_data input p) = true) ->
  classify_cell input isovalue discardMinVals Tables.numVertsTable id
    = Some cn ->
  cn.2 = 0.
Proof.
  intros Hout. unfold classify_cell.
  destruct (int_rem id (dim0 input - 1)) as [x|]; [|discriminate].
  destruct (int_quot id (dim0 input - 1)) as [q|]; [|discriminate].
  cbn [mbind option_bind].
  destruct (int_rem q (dim1 input - 1)) as [y|]; [|discriminate].
  destruct (int_quot id ((dim0 input - 1) * (dim1 input - 1))) as [z|];
    [|discriminate].
  cbn [mbind option_bind].
  destruct Hout as [Habove|Hbelow].
  - rewrite cubeindex_of_above by (repeat constructor; apply Habove).
    cbn. by intros [= <-].
  - rewrite cubeindex_of_below by (repeat constructor; apply Hbelow).
    cbn. by intros [= <-].
Qed.

Lemma count_nonzero_zeros (l : list Z) :
  Forall (fun n => n = 0) l -> Reference.count_nonzero l = 0.
Proof.
  unfold Reference.count_nonzero.
  induction 1 as [|n l -> _ IH]; [reflexivity|].
  rewrite filter_cons, decide_False by (intros H; by apply H). exact IH.
Qed.

Section Stale.
Context {M : PistonMath}.

(** With the isovalue strictly above every sample, or strictly below every
    sample, an extraction empties the output vectors and returns before
    [num_total_vertices] is assigned: the member keeps the value it had. *)
Lemma operator_call_outside (mc : marching_cube) :
  0 < NCells (input mc) ->
  (forall p : Z,
     Float32.lt (point_data (input mc) p) (isovalue mc) = true) \/
  (forall p : Z,
     Float32.lt (isovalue mc) (point_data (input mc) p) = true) ->
  exists mc' : marching_cube,
    operator_call mc = Some mc' /\
    vertices mc' = [] /\ normals mc' = [] /\
    num_total_vertices mc' = num_total_vertices mc.
Proof.
  intros Hn Hout.
  destruct (classify_cells_Some (input mc) (isovalue mc) (discardMinVals mc)
              Hn) as (cls0 & Hcls0 & _ & _ & Hcells).
  destruct (operator_call_spec mc Hn)
    as (cls & mc' & Hcls & _ & _ & Hrun & _ & _ & _ & _ & _ & _ & Hzero & _).
  rewrite Hcls0 in Hcls. injection Hcls as <-.
  exists mc'. split; [done|].
  destruct Hzero as (Hv & Hnrm & _ & Htotal & _); [|done].
  apply count_nonzero_zeros, Forall_fmap, Forall_lookup.
  intros k cn Hk.
  destruct (Forall2_lookup_r _ _ _ _ _ Hcells Hk) as (id & _ & Hid).
  by apply (classify_cell_outside _ _ _ _ _ Hout Hid).
Qed.

End Stale.

(** The samples of the one-cell grid whose corner 0 holds 1 are all below
    2. *)
Lemma corner0_below_two (p : Z) :
  Float32.lt (point_data Examples.corner0 p) Float32.two = true.
Proof.
  cbn [Examples.corner0 Examples.field point_data].
  destruct (read _ p) as [x|] eqn:Hp; [|reflexivity].
  apply read_Some in Hp as [_ Hp]. cbn [default].
  revert Hp. generalize (Z.to_nat p). intros k Hk.
  do 8 (destruct k as [|k]; [by injection Hk as <-|]).
  discriminate.
Qed.

(** C3 on a failing input: the one-cell grid whose corner 0 holds 1 is
    extracted at isovalue 0.5, which yields 3 vertices, and then again at
    isovalue 2, above every sample.  The second extraction leaves no vertex
    and [num_total_vertices] still 3. *)
Lemma C3_num_total_vertices_stale :
  num_total_vertices
    <$> operator_call (M := CutilMath.math)
          (construct Examples.corner0 Examples.corner0 Float32.half 0)
    = Some 3 /\
  (forall p : Z,
     Float32.lt (point_data Examples.corner0 p) Float32.two = true) /\
  (fun mc2 => (vertices mc2, num_total_vertices mc2))
    <$> (mc1 ← operator_call (M := CutilMath.math)
                 (construct Examples.corner0 Examples.corner0
                    Float32.half 0);
         operator_call (M := CutilMath.math)
           (set_isovalue Float32.two mc1))
    = Some ([], 3).
Proof.
  split; [vm_compute; reflexivity|].
  split; [apply corner0_below_two|].
  vm_compute; reflexivity.
Qed.

(** ** Offsets of the valid cells *)



(** Every output index below the total lies in the range of one cell. *)
Lemma sum_cover (l : list Z) (j : Z) :
  Forall (fun x => 0 < x) l -> 0 <= j < Reference.sum l ->
  exists (k : nat) (x : Z),
    l !! k = Some x /\
    Reference.sum (take k l) <= j < Reference.sum (take k l) + x.
Proof.
  intros Hall. revert j. induction Hall as [|x l Hx Hall IH]; intros j Hj.
  - unfold Reference.sum in Hj. cbn in Hj. lia.
  - destruct (decide (j < x)) as [Hlt|Hge].
    + exists 0%nat, x. split; [done|]. unfold Reference.sum. cbn. lia.
    + destruct (IH (j - x)) as (k & y & Hk & Hrange).
      { unfold Reference.sum in *. cbn [foldr] in Hj. lia. }
      exists (S k), y. split; [done|].
      cbn [take]. unfold Reference.sum in *. cbn [foldr]. lia.
Qed.

Section Allocation.
Context {M : PistonMath}.

(** The cells, counts and offsets an extraction with valid cells leaves. *)
Lemma operator_call_valid_cells (mc mc' : marching_cube) :
  operator_call mc = Some mc' ->
  (exists n : Z, Thrust.back (valid_cell_enum mc') = Some n /\ n <> 0) ->
  exists cls : list (Z * Z),
    Forall Reference.case_entry cls /\
    input mc' = input mc /\ isovalue mc' = isovalue mc /\
    case_index mc' = cls.*1 /\ num_vertices mc' = cls.*2 /\
    valid_cell_indices mc' = Reference.nonzero_indices cls.*2 /\
    output_vertices_enum mc'
      = Thrust.exclusive_scan (Reference.valid_pairs cls).*2 /\
    num_total_vertices mc' = Reference.sum (Reference.valid_pairs cls).*2 /\
    Reference.valid_pairs cls <> [] /\
    (useInterop mc = false ->
       generate_geometry (input mc) (isovalue mc) cls.*1 cls.*2
         (Reference.nonzero_indices cls.*2)
         (Thrust.exclusive_scan (Reference.valid_pairs cls).*2)
         (Reference.sum (Reference.valid_pairs cls).*2)
         (vertices mc) (normals mc)
       = Some (vertices mc', normals mc') /\
       Z.of_nat (length (vertices mc')) = num_total_vertices mc' /\
       Z.of_nat (length (normals mc')) = num_total_vertices mc').
Proof.
  intros Hrun (n & Hn & Hn0).
  pose proof (operator_call_cells _ _ Hrun) as Hcells.
  destruct (operator_call_spec mc Hcells)
    as (cls & mc0 & _ & _ & Hall & Hrun0 & Hin & Hiso & Hci & Hnv & _
        & Hback & _ & Hvalid).
  rewrite Hrun in Hrun0. injection Hrun0 as <-.
  rewrite Hback in Hn. injection Hn as <-.
  destruct (Hvalid Hn0) as (Hcellsv & Hoffs & Htotal & _ & Hgeo).
  exists cls. repeat split; try done.
  - intros Hnil. pose proof (length_valid_pairs cls) as Hl.
    rewrite Hnil in Hl. cbn in Hl. lia.
  - by apply Hgeo.
  - by apply Hgeo.
  - by apply Hgeo.
Qed.

Lemma valid_counts_positive (cls : list (Z * Z)) :
  Forall Reference.case_entry cls ->
  Forall (fun x => 0 < x) (Reference.valid_pairs cls).*2.
Proof.
  intros Hall. apply Forall_fmap.
  eapply list.Forall_impl; [exact (valid_pairs_entries cls Hall)|].
  cbn. intros ? (_ & ? & _). lia.
Qed.

Lemma valid_counts_multiples (cls : list (Z * Z)) :
  Forall Reference.case_entry cls ->
  Forall (fun x => x `mod` 3 = 0) (Reference.valid_pairs cls).*2.
Proof.
  intros Hall. apply Forall_fmap.
  eapply list.Forall_impl; [exact (valid_pairs_entries cls Hall)|].
  cbn. by intros ? (_ & _ & ?).
Qed.


End Allocation.


(** ** Write ranges of the geometry pass *)

Section Ranges.
Context {M : PistonMath}.

(** The tuples of the zipped range, in terms of the classification. *)
Lemma zipped_tuple_valid (cls : list (Z * Z)) (mc' : marching_cube)
    (k : nat) (cell off c cnt : Z) :
  case_index mc' = cls.*1 -> num_vertices mc' = cls.*2 ->
  valid_cell_indices mc' = Reference.nonzero_indices cls.*2 ->
  output_vertices_enum mc'
    = Thrust.exclusive_scan (Reference.valid_pairs cls).*2 ->
  zipped_tuple mc' k (cell, off, c, cnt) <->
  Reference.nonzero_indices cls.*2 !! k = Some cell /\
  Reference.valid_pairs cls !! k = Some (c, cnt) /\
  off = Reference.sum (take k (Reference.valid_pairs cls).*2).
Proof.
  intros Hci Hnv Hcells Hoffs. unfold zipped_tuple.
  rewrite Hci, Hnv, Hcells, Hoffs, !read_fmap.
  pose proof (permutation_valid_pairs cls) as Hperm.
  apply mapM_Some in Hperm.
  assert (Hoff : forall o, (k < length (Reference.valid_pairs cls))%nat ->
    Thrust.exclusive_scan (Reference.valid_pairs cls).*2 !! k = Some o <->
    o = Reference.sum (take k (Reference.valid_pairs cls).*2)).
  { intros o Hk. unfold Thrust.exclusive_scan.
    rewrite lookup_exclusive_scan_from by (by rewrite length_fmap).
    rewrite Z.add_0_l. split; [by intros [= <-]|by intros ->]. }
  split.
  - intros (Hcell & Ho & Hc & Hcnt).
    destruct (Forall2_lookup_l _ _ _ _ _ Hperm Hcell)
      as ([c' cnt'] & Hk & Hread).
    rewrite Hread in Hc, Hcnt. cbn in Hc, Hcnt.
    injection Hc as ->. injection Hcnt as ->.
    split; [done|]. split; [done|].
    apply Hoff; [|done]. by apply lookup_lt_Some in Hk.
  - intros (Hcell & Hk & ->).
    destruct (Forall2_lookup_r _ _ _ _ _ Hperm Hk) as (cell' & Hcell' & Hread).
    rewrite Hcell in Hcell'. injection Hcell' as <-.
    rewrite Hread. split; [done|]. split; [|done].
    apply Hoff; [|done]. by apply lookup_lt_Some in Hk.
Qed.


End Ranges.


(** * Further properties *)

(** ** The classifier and the generator *)

(** [classify_cell] in terms of the sample array of the generator. *)
Lemma classify_cell_corner_samples (input : image3d) (isovalue : float)
    (discardMinVals : bool) (table : list Z) (id c n : Z) :
  classify_cell input isovalue discardMinVals table id = Some (c, n) <->
  exists f : list float,
    corner_samples input id = Some f /\
    cubeindex_of_samples isovalue f = Some c /\
    read table c = Some n.
Proof.
  unfold classify_cell, corner_samples, base_index.
  destruct (int_rem id (dim0 input - 1)) as [x|];
    [|split; [discriminate|by intros (f & Hf & _)]].
  destruct (int_quot id (dim0 input - 1)) as [q|];
    [|split; [discriminate|by intros (f & Hf & _)]].
  cbn [mbind option_bind].
  destruct (int_rem q (dim1 input - 1)) as [y|];
    [|split; [discriminate|by intros (f & Hf & _)]].
  destruct (int_quot id ((dim0 input - 1) * (dim1 input - 1))) as [z|];
    [|split; [discriminate|by intros (f & Hf & _)]].
  cbn [mbind option_bind corner_indices fmap list_fmap].
  rewrite (Z.mul_assoc z (dim0 input) (dim1 input)).
  split.
  - intros Hcls. eexists. split; [reflexivity|]. cbn [cubeindex_of_samples].
    destruct (read table _) as [n'|] eqn:Hn; [|discriminate].
    cbn [mbind option_bind] in Hcls. injection Hcls as <- <-. by split.
  - intros (f & [= <-] & [= <-] & Hn). rewrite Hn. reflexivity.
Qed.

(** X1: the classifier and the generator agree on the corners of a cell.
    [classify_cell] returns (c, n) exactly when the generator's sample array
    [f] of the cell exists, c is the case index of those eight samples under
    the strict greater-than test, and n is entry c of the table; this holds
    on every grid, whatever its dimensions. *)
Theorem X1_classifier_generator_agree (input : image3d) (isovalue : float)
    (discardMinVals : bool) (table : list Z) (id c n : Z) :
  classify_cell input isovalue discardMinVals table id = Some (c, n) <->
  exists f : list float,
    corner_samples input id = Some f /\
    cubeindex_of_samples isovalue f = Some c /\
    read table c = Some n.
Proof. apply classify_cell_corner_samples. Qed.


Lemma table_case_fact (check : Z -> bool) (c : Z) :
  forallb check (counting 256) = true -> 0 <= c < 256 -> check c = true.
Proof. intros Hall Hc. by apply (counting_forallb check 256). Qed.

Lemma empty_cases : forallb TableFacts.empty_case (counting 256) = true.
Proof. vm_compute. reflexivity. Qed.

Lemma cubeindex_of_samples_Some (isovalue : float) (f : list float) (c : Z) :
  cubeindex_of_samples isovalue f = Some c ->
  exists f0 f1 f2 f3 f4 f5 f6 f7,
    f = [f0; f1; f2; f3; f4; f5; f6; f7] /\
    c = cubeindex_of isovalue f0 f1 f2 f3 f4 f5 f6 f7.
Proof.
  unfold cubeindex_of_samples.
  do 8 (destruct f as [|? f]; [discriminate|]).
  destruct f; [|discriminate]. intros [= <-]. by do 8 eexists.
Qed.

Lemma cubeindex_of_samples_bits (isovalue : float) (f : list float) (c : Z)
    (k : nat) (fk : float) :
  cubeindex_of_samples isovalue f = Some c -> f !! k = Some fk ->
  Z.testbit c (Z.of_nat k) = Float32.gt fk isovalue.
Proof.
  intros (f0 & f1 & f2 & f3 & f4 & f5 & f6 & f7 & -> & ->)
    %cubeindex_of_samples_Some Hk.
  by apply cubeindex_of_testbit.
Qed.

Lemma cubeindex_of_samples_range (isovalue : float) (f : list float) (c : Z) :
  cubeindex_of_samples isovalue f = Some c -> 0 <= c < 256.
Proof.
  intros (f0 & f1 & f2 & f3 & f4 & f5 & f6 & f7 & -> & ->)
    %cubeindex_of_samples_Some.
  apply cubeindex_of_range.
Qed.

(** The case index is 0 or 255 exactly when the samples are classified
    alike. *)
Lemma cubeindex_of_samples_alike (isovalue : float) (f : list float) (c : Z) :
  cubeindex_of_samples isovalue f = Some c ->
  (c = 0 \/ c = 255) <-> all_alike isovalue f.
Proof.
  intros Hc. split.
  - intros [-> | ->]; [left|right]; apply Forall_lookup; intros k fk Hk;
      rewrite <- (cubeindex_of_samples_bits _ _ _ _ _ Hc Hk).
    + apply Z.bits_0.
    + destruct (cubeindex_of_samples_Some _ _ _ Hc)
        as (f0 & f1 & f2 & f3 & f4 & f5 & f6 & f7 & -> & _).
      do 8 (destruct k as [|k]; [reflexivity|]). discriminate.
  - destruct (cubeindex_of_samples_Some _ _ _ Hc)
      as (f0 & f1 & f2 & f3 & f4 & f5 & f6 & f7 & -> & ->).
    unfold cubeindex_of.
    intros [Hall | Hall]; [left|right];
      repeat match goal with
      | H : Forall _ (_ :: _) |- _ =>
          apply list.Forall_cons in H as [? H]
      end;
      by repeat match goal with H : Float32.gt _ _ = _ |- _ =>
                    rewrite H; clear H end.
Qed.

(** X2: a classified cell has a vertex count of 0 exactly when its eight
    corner samples are classified alike, that is when none of them is
    greater than the isovalue or all of them are. *)
Theorem X2_empty_cell_iff_alike (input : image3d) (isovalue : float)
    (discardMinVals : bool) (id c n : Z) (f : list float) :
  classify_cell input isovalue discardMinVals Tables.numVertsTable id
    = Some (c, n) ->
  corner_samples input id = Some f ->
  n = 0 <-> all_alike isovalue f.
Proof.
  intros Hcls Hf.
  apply classify_cell_corner_samples in Hcls as (f' & Hf' & Hc & Hn).
  rewrite Hf in Hf'. injection Hf' as <-.
  rewrite <- (cubeindex_of_samples_alike _ _ _ Hc).
  pose proof (table_case_fact _ c empty_cases
                (cubeindex_of_samples_range _ _ _ Hc)) as Hcase.
  unfold TableFacts.empty_case in Hcase. rewrite Hn in Hcase.
  apply eqb_prop in Hcase.
  split.
  - intros ->. cbn in Hcase. symmetry in Hcase.
    apply orb_prop in Hcase as [?%Z.eqb_eq | ?%Z.eqb_eq]; auto.
  - intros Hc0. apply Z.eqb_eq. rewrite Hcase.
    destruct Hc0 as [-> | ->]; reflexivity.
Qed.

Lemma X2_empty_cell_iff_alike_witness :
  0 = 0 <->
  all_alike Float32.half
    [Examples.F0; Examples.F0; Examples.F0; Examples.F0;
     Examples.F0; Examples.F0; Examples.F0; Examples.F0].
Proof.
  apply (X2_empty_cell_iff_alike (Examples.field 2 2 2 []) Float32.half true
           0 0 0);
    vm_compute; reflexivity.
Defined.


(** ** More of the case table *)

Lemma complete_cases : forallb TableFacts.complete (counting 256) = true.
Proof. vm_compute. reflexivity. Qed.

Lemma layout_cases : forallb TableFacts.layout (counting 256) = true.
Proof. vm_compute. reflexivity. Qed.

Lemma distinct_cases :
  forallb TableFacts.distinct_edges (counting 256) = true.
Proof. vm_compute. reflexivity. Qed.

(** Every crossed edge of a case is the edge of one of its vertices. *)
Lemma crossed_edge_used (c e v0 v1 : Z) :
  0 <= c < 256 -> 0 <= e < 12 ->
  read Tables.verticesForEdge (2 * e) = Some v0 ->
  read Tables.verticesForEdge (2 * e + 1) = Some v1 ->
  Z.testbit c v0 <> Z.testbit c v1 ->
  exists n v : Z,
    read Tables.numVertsTable c = Some n /\ 0 <= v < n /\
    read Tables.triTable (c * 16 + v) = Some e.
Proof.
  intros Hc He Hv0 Hv1 Hbits.
  pose proof (table_case_fact _ c complete_cases Hc) as Hcase.
  unfold TableFacts.complete in Hcase.
  pose proof (counting_forallb _ 12 e Hcase He) as Hedge. cbn beta in Hedge.
  unfold TableFacts.crossed in Hedge. rewrite Hv0, Hv1 in Hedge.
  assert (Hneg : negb (eqb (Z.testbit c v0) (Z.testbit c v1)) = true).
  { destruct (Z.testbit c v0), (Z.testbit c v1); done. }
  rewrite Hneg in Hedge. cbn [implb] in Hedge.
  unfold TableFacts.used in Hedge.
  destruct (read Tables.numVertsTable c) as [n|]; [|discriminate].
  apply existsb_exists in Hedge as (v & Hv & Hread).
  apply list_elem_of_In, elem_of_counting in Hv.
  apply bool_decide_eq_true in Hread. by exists n, v.
Qed.

(** X3: every cube edge of a classified cell whose two corner samples are
    classified differently by the strict greater-than test carries an
    output vertex: some slot v below the vertex count of the cell is
    interpolated between exactly these two corners. *)
Theorem X3_crossed_edge_has_vertex (input : image3d) (isovalue : float)
    (discardMinVals : bool) (id c n e v0 v1 : Z) (f : list float)
    (fv0 fv1 : float) :
  classify_cell input isovalue discardMinVals Tables.numVertsTable id
    = Some (c, n) ->
  corner_samples input id = Some f ->
  0 <= e < 12 ->
  read Tables.verticesForEdge (2 * e) = Some v0 ->
  read Tables.verticesForEdge (2 * e + 1) = Some v1 ->
  read f v0 = Some fv0 -> read f v1 = Some fv1 ->
  Float32.gt fv0 isovalue <> Float32.gt fv1 isovalue ->
  exists v : Z,
    0 <= v < n /\
    edge_factor isovalue Tables.triTable f c v
      = Some (v0, v1, interp_factor isovalue fv0 fv1).
Proof.
  intros Hcls Hf He Hv0 Hv1 Hfv0 Hfv1 Hne.
  apply classify_cell_corner_samples in Hcls as (f' & Hf' & Hc & Hn).
  rewrite Hf in Hf'. injection Hf' as <-.
  pose proof (cubeindex_of_samples_range _ _ _ Hc) as Hrange.
  assert (Hbit : forall (k : Z) (fk : float),
            read f k = Some fk ->
            Z.testbit c k = Float32.gt fk isovalue).
  { intros k fk [Hk0 Hk]%read_Some.
    rewrite <- (Z2Nat.id k) at 1 by done.
    by apply (cubeindex_of_samples_bits _ f). }
  destruct (crossed_edge_used c e v0 v1 Hrange He Hv0 Hv1)
    as (n' & v & Hn' & Hv & Hread).
  { rewrite (Hbit _ _ Hfv0), (Hbit _ _ Hfv1). done. }
  rewrite Hn in Hn'. injection Hn' as <-.
  exists v. split; [done|].
  unfold edge_factor, edge_corners. rewrite Hread. cbn [mbind option_bind].
  rewrite Hv0. cbn [mbind option_bind]. rewrite Hv1.
  cbn [mbind option_bind]. rewrite Hfv0. cbn [mbind option_bind].
  by rewrite Hfv1.
Qed.

Lemma X3_crossed_edge_has_vertex_witness :
  exists v : Z,
    0 <= v < 3 /\
    edge_factor Float32.half Tables.triTable
      [Examples.F1; Examples.F0; Examples.F0; Examples.F0;
       Examples.F0; Examples.F0; Examples.F0; Examples.F0] 1 v
      = Some (0, 4, interp_factor Float32.half Examples.F1 Examples.F0).
Proof.
  apply (X3_crossed_edge_has_vertex Examples.corner0 Float32.half true
           0 1 3 8 0 4); try (vm_compute; reflexivity).
  - lia.
  - vm_compute. discriminate.
Defined.

(** X4: in every row of the case table the entries below the vertex count
    of the case are cube edges 0..11 and the entries from the vertex count
    on are the sentinel -1, so the interpolation loop, which reads the slots
    below the count, never reads a sentinel. *)
Theorem X4_row_layout (c v : Z) :
  0 <= c < 256 -> 0 <= v < 16 ->
  exists n e : Z,
    read Tables.numVertsTable c = Some n /\
    read Tables.triTable (c * 16 + v) = Some e /\
    (v < n -> 0 <= e <= 11) /\
    (n <= v -> e = -1).
Proof.
  intros Hc Hv.
  pose proof (table_case_fact _ c layout_cases Hc) as Hcase.
  unfold TableFacts.layout in Hcase.
  destruct (read Tables.numVertsTable c) as [n|]; [|discriminate].
  pose proof (counting_forallb _ 16 v Hcase Hv) as Hslot. cbn beta in Hslot.
  destruct (read Tables.triTable (c * 16 + v)) as [e|]; [|discriminate].
  exists n, e. split; [done|]. split; [done|].
  destruct (decide (v < n)); apply bool_decide_eq_true in Hslot;
    split; intros; lia.
Qed.

Lemma X4_row_layout_witness :
  exists n e : Z,
    read Tables.numVertsTable 240 = Some n /\
    read Tables.triTable (240 * 16 + 6) = Some e /\
    (6 < n -> 0 <= e <= 11) /\
    (n <= 6 -> e = -1).
Proof. apply (X4_row_layout 240 6); lia. Defined.

(** X5: the three vertices of every triangle of every case lie on three
    different edges of the cube. *)
Theorem X5_triangle_edges_distinct (c n t : Z) :
  0 <= c < 256 -> read Tables.numVertsTable c = Some n ->
  0 <= t -> 3 * t + 2 < n ->
  exists e0 e1 e2 : Z,
    read Tables.triTable (c * 16 + 3 * t) = Some e0 /\
    read Tables.triTable (c * 16 + 3 * t + 1) = Some e1 /\
    read Tables.triTable (c * 16 + 3 * t + 2) = Some e2 /\
    e0 <> e1 /\ e0 <> e2 /\ e1 <> e2.
Proof.
  intros Hc Hn Ht0 Ht.
  pose proof (table_case_fact _ c distinct_cases Hc) as Hcase.
  unfold TableFacts.distinct_edges in Hcase. rewrite Hn in Hcase.
  assert (Htn : 0 <= t < n `div` 3).
  { split; [done|].
    pose proof (Z.div_le_lower_bound n 3 (t + 1)). lia. }
  pose proof (counting_forallb _ _ t Hcase Htn) as Htri. cbn beta in Htri.
  destruct (read Tables.triTable (c * 16 + 3 * t)) as [e0|]; [|discriminate].
  destruct (read Tables.triTable (c * 16 + 3 * t + 1)) as [e1|];
    [|discriminate].
  destruct (read Tables.triTable (c * 16 + 3 * t + 2)) as [e2|];
    [|discriminate].
  apply bool_decide_eq_true in Htri. by exists e0, e1, e2.
Qed.

Lemma X5_triangle_edges_distinct_witness :
  exists e0 e1 e2 : Z,
    read Tables.triTable (240 * 16 + 3 * 1) = Some e0 /\
    read Tables.triTable (240 * 16 + 3 * 1 + 1) = Some e1 /\
    read Tables.triTable (240 * 16 + 3 * 1 + 2) = Some e2 /\
    e0 <> e1 /\ e0 <> e2 /\ e1 <> e2.
Proof.
  apply (X5_triangle_edges_distinct 240 6 1); [lia|reflexivity|lia|lia].
Defined.


(** ** The content of the output arrays *)

Section GeometryValues.
Context {M : PistonMath}.

(** A face normal depends on the three vertices of its triangle only. *)
Lemma face_normal_ext (vs vs' : list float4) (off v : Z) :
  (forall d : Z, 0 <= d < 3 ->
     read vs' (off + v + d) = read vs (off + v + d)) ->
  face_normal vs' off v = face_normal vs off v.
Proof.
  intros Hsame. unfold face_normal.
  pose proof (Hsame 0 ltac:(lia)) as H0. rewrite Z.add_0_r in H0.
  by rewrite H0, (Hsame 1), (Hsame 2) by lia.
Qed.

Lemma face_normal_shift (vs : list float4) (off v : Z) :
  face_normal vs off v = face_normal vs 0 (off + v).
Proof. unfold face_normal. by rewrite !Z.add_0_l. Qed.

Lemma sum_cons_take (n : Z) (l : list Z) (k : nat) :
  Reference.sum (take (S k) (n :: l)) = n + Reference.sum (take k l).
Proof. reflexivity. Qed.

(** After the pass every slot of every valid cell holds the vertex that
    the generator computes for it and the normal of its triangle, and the
    arrays are unchanged outside the ranges of the cells. *)
Lemma geometry_for_each_values (input : image3d) (isovalue : float)
    (valid : list (Z * Z)) (cells : list Z) (acc : Z)
    (vs vs' : list float4) (ns ns' : list float3) :
  dim0 input - 1 <> 0 -> dim1 input - 1 <> 0 ->
  length cells = length valid ->
  Forall (fun cn => Reference.case_entry cn /\ 0 < cn.2 <= 15
                    /\ cn.2 `mod` 3 = 0) valid ->
  0 <= acc ->
  acc + Reference.sum valid.*2 <= Z.of_nat (length vs) ->
  acc + Reference.sum valid.*2 <= Z.of_nat (length ns) ->
  Thrust.for_each (isosurface_functor input isovalue Tables.triTable)
    (Thrust.zip4 cells (Thrust.exclusive_scan_from acc valid.*2)
       valid.*1 valid.*2) (vs, ns) = Some (vs', ns') ->
  (forall j : Z, ~ acc <= j < acc + Reference.sum valid.*2 ->
     read vs' j = read vs j /\ read ns' j = read ns j) /\
  (forall (k : nat) (cell c n v : Z),
     cells !! k = Some cell -> valid !! k = Some (c, n) -> 0 <= v < n ->
     exists (x : float4) (nrm : float3),
       emitted_vertex input isovalue cell c v = Some x /\
       read vs' (acc + Reference.sum (take k valid.*2) + v) = Some x /\
       face_normal vs' (acc + Reference.sum (take k valid.*2))
         (3 * (v `div` 3)) = Some nrm /\
       read ns' (acc + Reference.sum (take k valid.*2) + v) = Some nrm).
Proof.
  intros H0 H1. revert cells acc vs ns.
  induction valid as [|[c0 n0] valid IH]; intros cells acc vs ns Hlen Hall
    Hacc Hvs Hns Hrun.
  - destruct cells; [|done]. cbn in Hrun. injection Hrun as <- <-.
    split; [done|]. intros k ? ? ? ? Hk. by destruct k.
  - destruct cells as [|cell0 cells]; [done|].
    apply list.Forall_cons in Hall as [([Hc Hread] & Hn & H3) Hall].
    cbn [fst snd] in Hc, Hread, Hn, H3.
    cbn [fmap list_fmap fst snd Thrust.exclusive_scan_from Thrust.zip4
         Thrust.for_each] in Hrun.
    assert (Hsum : Reference.sum ((c0, n0) :: valid).*2
                   = n0 + Reference.sum valid.*2) by reflexivity.
    assert (Hrest : 0 <= Reference.sum valid.*2).
    { apply sum_nonneg, Forall_fmap.
      eapply list.Forall_impl; [exact Hall|]. cbn. intros ? (_ & ? & _).
      lia. }
    destruct (isosurface_functor_spec input isovalue cell0 acc c0 n0 vs ns)
      as (f & p & vs1 & ns1 & Hf & Hp & Hhead & Hl1 & Hl2 & Hout1 & Hin1);
      try done; try lia.
    rewrite Hhead in Hrun. cbn [mbind option_bind] in Hrun.
    destruct (IH cells (acc + n0) vs1 ns1) as [Hout Hin]; try done;
      try lia.
    { cbn [length] in Hlen. lia. }
    split.
    + intros j Hj. destruct (Hout j) as [-> ->]; [lia|].
      apply Hout1. lia.
    + intros k cell c n v Hcell Hk Hv. destruct k as [|k].
      * injection Hcell as <-. injection Hk as <- <-.
        cbn [take]. change (Reference.sum []) with 0. rewrite Z.add_0_r.
        destruct (Hin1 v Hv) as (x & nrm & Hx & Hrx & Hnrm & Hrn).
        assert (Hq : 0 <= 3 * (v `div` 3) /\ 3 * (v `div` 3) + 2 < n0).
        { pose proof (Z.div_mod v 3). pose proof (Z.mod_pos_bound v 3).
          pose proof (Z.div_mod n0 3). lia. }
        exists x, nrm. split; [|split; [|split]].
        -- unfold emitted_vertex. rewrite Hf, Hp. exact Hx.
        -- destruct (Hout (acc + v)) as [-> _]; [lia|done].
        -- rewrite <- Hnrm. apply face_normal_ext. intros d Hd.
           destruct (Hout (acc + 3 * (v `div` 3) + d)) as [-> _]; [lia|done].
        -- destruct (Hout (acc + v)) as [_ ->]; [lia|done].
      * cbn [lookup list_lookup] in Hcell, Hk.
        destruct (Hin k cell c n v Hcell Hk Hv)
          as (x & nrm & Hx & Hrx & Hnrm & Hrn).
        exists x, nrm.
        cbn [fmap list_fmap snd]. rewrite sum_cons_take.
        replace (acc + (n0 + Reference.sum (take k valid.*2)))
          with (acc + n0 + Reference.sum (take k valid.*2)) by lia.
        done.
Qed.

(** The same for the whole geometry pass of an extraction. *)
Lemma generate_geometry_values (input : image3d) (isovalue : float)
    (cls : list (Z * Z)) (vs vs' : list float4) (ns ns' : list float3) :
  dim0 input - 1 <> 0 -> dim1 input - 1 <> 0 ->
  Forall Reference.case_entry cls ->
  generate_geometry input isovalue cls.*1 cls.*2
    (Reference.nonzero_indices cls.*2)
    (Thrust.exclusive_scan (Reference.valid_pairs cls).*2)
    (Reference.sum (Reference.valid_pairs cls).*2) vs ns
  = Some (vs', ns') ->
  forall (k : nat) (cell c n v : Z),
    Reference.nonzero_indices cls.*2 !! k = Some cell ->
    Reference.valid_pairs cls !! k = Some (c, n) -> 0 <= v < n ->
    exists (x : float4) (nrm : float3),
      emitted_vertex input isovalue cell c v = Some x /\
      read vs' (Reference.sum (take k (Reference.valid_pairs cls).*2) + v)
        = Some x /\
      face_normal vs' (Reference.sum (take k (Reference.valid_pairs cls).*2))
        (3 * (v `div` 3)) = Some nrm /\
      read ns' (Reference.sum (take k (Reference.valid_pairs cls).*2) + v)
        = Some nrm.
Proof.
  intros H0 H1 Hall Hgen. unfold generate_geometry in Hgen.
  rewrite !permutation_fmap, permutation_valid_pairs in Hgen.
  cbn [fmap option_fmap option_map mbind option_bind] in Hgen.
  pose proof (valid_pairs_entries cls Hall) as Hvalid.
  assert (Hsum : 0 <= Reference.sum (Reference.valid_pairs cls).*2).
  { apply sum_nonneg. by apply valid_counts_positive. }
  intros k cell c n v Hcell Hk Hv.
  destruct (geometry_for_each_values input isovalue
              (Reference.valid_pairs cls) (Reference.nonzero_indices cls.*2)
              0
              (Thrust.resize (Reference.sum (Reference.valid_pairs cls).*2)
                 float4_zero vs) vs'
              (Thrust.resize (Reference.sum (Reference.valid_pairs cls).*2)
                 float3_zero ns) ns' H0 H1) as [_ Hin]; try done.
  - apply Nat2Z.inj. rewrite length_valid_pairs.
    apply (length_nonzero_indices_from 0).
  - rewrite length_resize. lia.
  - rewrite length_resize. lia.
  - destruct (Hin k cell c n v Hcell Hk Hv) as (x & nrm & Hx).
    exists x, nrm. by rewrite !Z.add_0_l in Hx.
Qed.

End GeometryValues.


Section Outputs.
Context {M : PistonMath}.

(** What an extraction never changes. *)
Lemma operator_call_keeps (mc mc' : marching_cube) :
  operator_call mc = Some mc' ->
  input mc' = input mc /\ source mc' = source mc /\
  isovalue mc' = isovalue mc /\ discardMinVals mc' = discardMinVals mc /\
  useInterop mc' = useInterop mc /\
  (scalars mc' = scalars mc \/
   scalars mc' = [] /\ Thrust.back (valid_cell_enum mc') = Some 0).
Proof.
  unfold operator_call.
  destruct (classify_cells _ _ _) as [cls|]; [|discriminate].
  cbn [mbind option_bind].
  destruct (Thrust.back (enumerate_valid_cells cls.*2)) as [nvc|] eqn:Hback;
    [|discriminate].
  cbn [mbind option_bind].
  destruct (decide (nvc = 0)) as [->|Hnz].
  { intros [= <-]. cbn. repeat split; auto. }
  destruct (Thrust.permutation _ _) as [counts|]; [|discriminate].
  cbn [mbind option_bind].
  destruct (Thrust.back (find_valid_cells _ _)) as [last_cell|];
    [|discriminate].
  cbn [mbind option_bind].
  destruct (read cls.*2 last_cell) as [last_count|]; [|discriminate].
  cbn [mbind option_bind].
  destruct (Thrust.back (Thrust.exclusive_scan counts)) as [last_offset|];
    [|discriminate].
  cbn [mbind option_bind].
  destruct (useInterop mc) eqn:Hinterop.
  { intros [= <-]. cbn. repeat split; auto. }
  destruct (generate_geometry _ _ _ _ _ _ _ _ _) as [out|]; [|discriminate].
  cbn [mbind option_bind]. intros [= <-]. cbn. repeat split; auto.
Qed.

(** The tuples of the zipped range of an extraction with valid cells. *)
Lemma zipped_tuple_lookup (cls : list (Z * Z)) (mc' : marching_cube)
    (k : nat) (c cnt : Z) :
  case_index mc' = cls.*1 -> num_vertices mc' = cls.*2 ->
  valid_cell_indices mc' = Reference.nonzero_indices cls.*2 ->
  output_vertices_enum mc'
    = Thrust.exclusive_scan (Reference.valid_pairs cls).*2 ->
  Reference.valid_pairs cls !! k = Some (c, cnt) ->
  exists cell : Z,
    Reference.nonzero_indices cls.*2 !! k = Some cell /\
    zipped_tuple mc' k
      (cell, Reference.sum (take k (Reference.valid_pairs cls).*2), c, cnt).
Proof.
  intros Hci Hnv Hcells Hoffs Hk.
  pose proof (permutation_valid_pairs cls) as Hperm.
  apply mapM_Some in Hperm.
  destruct (Forall2_lookup_r _ _ _ _ _ Hperm Hk) as (cell & Hcell & _).
  exists cell. split; [done|].
  by apply (zipped_tuple_valid cls mc' k cell _ c cnt Hci Hnv Hcells Hoffs).
Qed.

(** X6: after an extraction with [useInterop] false that has valid cells,
    slot v of the k-th valid cell holds, at its offset in [vertices], the
    vertex interpolated by the generator for that cell, case and slot: no
    later cell overwrites it. *)
Theorem X6_vertices_hold_interpolated (mc mc' : marching_cube) (k : nat)
    (cell off c cnt v : Z) :
  useInterop mc = false ->
  operator_call mc = Some mc' ->
  (exists n : Z, Thrust.back (valid_cell_enum mc') = Some n /\ n <> 0) ->
  zipped_tuple mc' k (cell, off, c, cnt) ->
  0 <= v < cnt ->
  exists x : float4,
    emitted_vertex (input mc') (isovalue mc') cell c v = Some x /\
    read (vertices mc') (off + v) = Some x.
Proof.
  intros Hinterop Hrun Hvalid Ht Hv.
  destruct (NCells_positive_dims _ (operator_call_cells _ _ Hrun))
    as [H0 H1].
  destruct (operator_call_valid_cells mc mc' Hrun Hvalid)
    as (cls & Hall & Hin & Hiso & Hci & Hnv & Hcells & Hoffs & Htotal
        & Hne & Hgeo).
  destruct (Hgeo Hinterop) as (Hgen & _).
  apply (zipped_tuple_valid cls mc' k cell off c cnt Hci Hnv Hcells Hoffs)
    in Ht as (Hcell & Hk & ->).
  destruct (generate_geometry_values _ _ _ _ _ _ _ H0 H1 Hall Hgen
              k cell c cnt v Hcell Hk Hv) as (x & nrm & Hx & Hrx & _).
  exists x. rewrite Hin, Hiso. by split.
Qed.

(** X7: after an extraction with [useInterop] false that has valid cells,
    the output is flat shaded: the three normals of every triangle of the
    output are one and the same vector, the face normal computed from the
    three vertices of that triangle in [vertices]. *)
Theorem X7_flat_shading (mc mc' : marching_cube) (t : Z) :
  useInterop mc = false ->
  operator_call mc = Some mc' ->
  (exists n : Z, Thrust.back (valid_cell_enum mc') = Some n /\ n <> 0) ->
  0 <= t -> 3 * t + 2 < num_total_vertices mc' ->
  exists nrm : float3,
    face_normal (vertices mc') 0 (3 * t) = Some nrm /\
    read (normals mc') (3 * t) = Some nrm /\
    read (normals mc') (3 * t + 1) = Some nrm /\
    read (normals mc') (3 * t + 2) = Some nrm.
Proof.
  intros Hinterop Hrun Hvalid Ht0 Ht.
  destruct (NCells_positive_dims _ (operator_call_cells _ _ Hrun))
    as [H0 H1].
  destruct (operator_call_valid_cells mc mc' Hrun Hvalid)
    as (cls & Hall & Hin & Hiso & Hci & Hnv & Hcells & Hoffs & Htotal
        & Hne & Hgeo).
  destruct (Hgeo Hinterop) as (Hgen & _).
  pose proof (valid_counts_positive cls Hall) as Hpos.
  pose proof (valid_counts_multiples cls Hall) as Hmul.
  rewrite Htotal in Ht.
  destruct (sum_cover _ (3 * t) Hpos) as (k & cnt & Hk2 & Hrange); [lia|].
  rewrite list_lookup_fmap in Hk2.
  destruct (Reference.valid_pairs cls !! k) as [[c cnt']|] eqn:Hk;
    [|discriminate].
  injection Hk2 as ->.
  destruct (zipped_tuple_lookup cls mc' k c cnt Hci Hnv Hcells Hoffs Hk)
    as (cell & Hcell & _).
  set (off := Reference.sum (take k (Reference.valid_pairs cls).*2)) in *.
  assert (Hoff3 : off `mod` 3 = 0).
  { apply sum_multiple_of_3. by apply Forall_take. }
  assert (Hcnt3 : cnt `mod` 3 = 0).
  { assert (Hk2 : (Reference.valid_pairs cls).*2 !! k = Some cnt)
      by (by rewrite list_lookup_fmap, Hk).
    exact (proj1 (Forall_lookup _ _) Hmul _ _ Hk2). }
  pose proof (Z.div_mod off 3) as Hoffd.
  pose proof (Z.div_mod cnt 3) as Hcntd.
  set (v := 3 * t - off).
  assert (Hv : 0 <= v /\ v + 2 < cnt /\ v = 3 * (t - off `div` 3))
    by (unfold v; lia).
  assert (Hslot : forall d : Z, 0 <= d < 3 ->
            exists nrm : float3,
              face_normal (vertices mc') 0 (3 * t) = Some nrm /\
              read (normals mc') (3 * t + d) = Some nrm).
  { intros d Hd.
    destruct (generate_geometry_values _ _ _ _ _ _ _ H0 H1 Hall Hgen
                k cell c cnt (v + d) Hcell Hk ltac:(lia))
      as (x & nrm & _ & _ & Hnrm & Hrn).
    fold off in Hnrm, Hrn.
    replace ((v + d) `div` 3) with (t - off `div` 3) in Hnrm
      by (apply (Z.div_unique _ _ _ d); lia).
    rewrite face_normal_shift in Hnrm.
    replace (off + 3 * (t - off `div` 3)) with (3 * t) in Hnrm by lia.
    replace (off + (v + d)) with (3 * t + d) in Hrn by (unfold v; lia).
    by exists nrm. }
  destruct (Hslot 0 ltac:(lia)) as (nrm & Hface & Hr0).
  destruct (Hslot 1 ltac:(lia)) as (nrm1 & Hface1 & Hr1).
  destruct (Hslot 2 ltac:(lia)) as (nrm2 & Hface2 & Hr2).
  rewrite Hface in Hface1, Hface2.
  injection Hface1 as <-. injection Hface2 as <-.
  rewrite Z.add_0_r in Hr0. by exists nrm.
Qed.

End Outputs.


(** ** Extractions and the state they start from *)

Section Independence.
Context {M : PistonMath}.

(** The arrays the geometry pass leaves do not depend on what the vectors
    held before the pass. *)
Lemma generate_geometry_independent (input : image3d) (isovalue : float)
    (cls : list (Z * Z)) (vs1 vs2 : list float4) (ns1 ns2 : list float3)
    (out1 out2 : list float4 * list float3) :
  dim0 input - 1 <> 0 -> dim1 input - 1 <> 0 ->
  Forall Reference.case_entry cls ->
  generate_geometry input isovalue cls.*1 cls.*2
    (Reference.nonzero_indices cls.*2)
    (Thrust.exclusive_scan (Reference.valid_pairs cls).*2)
    (Reference.sum (Reference.valid_pairs cls).*2) vs1 ns1 = Some out1 ->
  generate_geometry input isovalue cls.*1 cls.*2
    (Reference.nonzero_indices cls.*2)
    (Thrust.exclusive_scan (Reference.valid_pairs cls).*2)
    (Reference.sum (Reference.valid_pairs cls).*2) vs2 ns2 = Some out2 ->
  out1 = out2.
Proof.
  intros H0 H1 Hall Hgen1 Hgen2.
  destruct (generate_geometry_Some input isovalue cls vs1 ns1 H0 H1 Hall)
    as (a1 & b1 & Hg1 & La1 & Lb1).
  destruct (generate_geometry_Some input isovalue cls vs2 ns2 H0 H1 Hall)
    as (a2 & b2 & Hg2 & La2 & Lb2).
  rewrite Hgen1 in Hg1. injection Hg1 as ->.
  rewrite Hgen2 in Hg2. injection Hg2 as ->.
  pose proof (valid_counts_positive cls Hall) as Hpos.
  pose proof (permutation_valid_pairs cls) as Hperm.
  apply mapM_Some in Hperm.
  assert (Hslot : forall i : nat,
    Z.of_nat i < Reference.sum (Reference.valid_pairs cls).*2 ->
    exists (k : nat) (cell c cnt v : Z),
      Reference.nonzero_indices cls.*2 !! k = Some cell /\
      Reference.valid_pairs cls !! k = Some (c, cnt) /\ 0 <= v < cnt /\
      Z.of_nat i
      = Reference.sum (take k (Reference.valid_pairs cls).*2) + v).
  { intros i Hi.
    destruct (sum_cover _ (Z.of_nat i) Hpos) as (k & cnt & Hk2 & Hrange);
      [lia|].
    rewrite list_lookup_fmap in Hk2.
    destruct (Reference.valid_pairs cls !! k) as [[c cnt']|] eqn:Hk;
      [|discriminate].
    injection Hk2 as ->.
    destruct (Forall2_lookup_r _ _ _ _ _ Hperm Hk) as (cell & Hcell & _).
    exists k, cell, c, cnt,
      (Z.of_nat i - Reference.sum (take k (Reference.valid_pairs cls).*2)).
    repeat split; try done; lia. }
  assert (Ha : a1 = a2).
  { apply list_eq. intros i.
    destruct (decide (Z.of_nat i
                      < Reference.sum (Reference.valid_pairs cls).*2))
      as [Hi|Hi].
    - destruct (Hslot i Hi) as (k & cell & c & cnt & v & Hcell & Hk & Hv & Hiv).
      destruct (generate_geometry_values _ _ _ _ _ _ _ H0 H1 Hall Hgen1
                  k cell c cnt v Hcell Hk Hv) as (x1 & _ & Hx1 & Hr1 & _).
      destruct (generate_geometry_values _ _ _ _ _ _ _ H0 H1 Hall Hgen2
                  k cell c cnt v Hcell Hk Hv) as (x2 & _ & Hx2 & Hr2 & _).
      rewrite <- Hiv, read_of_nat in Hr1, Hr2. congruence.
    - rewrite !(proj2 (lookup_ge_None _ _)); [done|lia..]. }
  subst a2. f_equal.
  apply list_eq. intros i.
  destruct (decide (Z.of_nat i
                    < Reference.sum (Reference.valid_pairs cls).*2))
    as [Hi|Hi].
  - destruct (Hslot i Hi) as (k & cell & c & cnt & v & Hcell & Hk & Hv & Hiv).
    destruct (generate_geometry_values _ _ _ _ _ _ _ H0 H1 Hall Hgen1
                k cell c cnt v Hcell Hk Hv) as (_ & n1 & _ & _ & Hf1 & Hr1).
    destruct (generate_geometry_values _ _ _ _ _ _ _ H0 H1 Hall Hgen2
                k cell c cnt v Hcell Hk Hv) as (_ & n2 & _ & _ & Hf2 & Hr2).
    rewrite <- Hiv, read_of_nat in Hr1, Hr2. congruence.
  - rewrite !(proj2 (lookup_ge_None _ _)); [done|lia..].
Qed.

(** Two extractions over the same input with the same isovalue. *)
Lemma operator_call_independent (mc1 mc2 r1 : marching_cube) :
  input mc1 = input mc2 -> isovalue mc1 = isovalue mc2 ->
  useInterop mc1 = false -> useInterop mc2 = false ->
  operator_call mc1 = Some r1 ->
  exists r2 : marching_cube,
    operator_call mc2 = Some r2 /\
    case_index r2 = case_index r1 /\ num_vertices r2 = num_vertices r1 /\
    valid_cell_enum r2 = valid_cell_enum r1 /\
    vertices r2 = vertices r1 /\ normals r2 = normals r1 /\
    ((exists n : Z, Thrust.back (valid_cell_enum r1) = Some n /\ n <> 0) ->
     valid_cell_indices r2 = valid_cell_indices r1 /\
     output_vertices_enum r2 = output_vertices_enum r1 /\
     num_total_vertices r2 = num_total_vertices r1).
Proof.
  intros Hin Hiso Hi1 Hi2 Hrun1.
  pose proof (operator_call_cells _ _ Hrun1) as Hcells1.
  assert (Hcells2 : 0 < NCells (input mc2)) by (by rewrite <- Hin).
  destruct (NCells_positive_dims _ Hcells1) as [H0 H1].
  destruct (operator_call_spec mc1 Hcells1)
    as (cls & r1' & Hcls1 & _ & Hall & Hrun1' & _ & _ & Hci1 & Hnv1 & Hen1
        & Hb1 & Hz1 & Hv1).
  rewrite Hrun1 in Hrun1'. injection Hrun1' as <-.
  destruct (operator_call_spec mc2 Hcells2)
    as (cls2 & r2 & Hcls2 & _ & _ & Hrun2 & _ & _ & Hci2 & Hnv2 & Hen2
        & Hb2 & Hz2 & Hv2).
  rewrite <- Hin, <- Hiso in Hcls2.
  rewrite (classify_cells_flag _ _ _ (discardMinVals mc1)) in Hcls2.
  rewrite Hcls1 in Hcls2. injection Hcls2 as <-.
  exists r2. split; [done|].
  rewrite Hci1, Hci2, Hnv1, Hnv2, Hen1, Hen2.
  split; [done|]. split; [done|]. split; [done|].
  destruct (decide (Reference.count_nonzero cls.*2 = 0)) as [Hz|Hnz].
  - destruct (Hz1 Hz) as (-> & -> & _). destruct (Hz2 Hz) as (-> & -> & _).
    split; [done|]. split; [done|].
    intros (n & Hn & Hn0). rewrite Hen1 in Hb1. congruence.
  - destruct (Hv1 Hnz) as (Hc1 & Ho1 & Ht1 & _ & Hg1).
    destruct (Hv2 Hnz) as (Hc2 & Ho2 & Ht2 & _ & Hg2).
    destruct (Hg1 Hi1) as (Hgen1 & _). destruct (Hg2 Hi2) as (Hgen2 & _).
    rewrite <- Hin, <- Hiso in Hgen2.
    pose proof (generate_geometry_independent _ _ _ _ _ _ _ _ _
                  H0 H1 Hall Hgen1 Hgen2) as Heq.
    injection Heq as -> ->.
    split; [done|]. split; [done|]. intros _.
    by rewrite Hc1, Hc2, Ho1, Ho2, Ht1, Ht2.
Qed.

(** X8: the result of an extraction with [useInterop] false does not depend
    on what the vectors of the surface held before, nor on
    [discardMinVals]: two surfaces over the same input with the same
    isovalue are left with the same case indices, vertex counts,
    enumeration, vertices and normals, and, when there is a valid cell,
    the same valid cells, offsets and [num_total_vertices]. *)
Theorem X8_extraction_ignores_old_state (mc1 mc2 r1 : marching_cube) :
  input mc1 = input mc2 -> isovalue mc1 = isovalue mc2 ->
  useInterop mc1 = false -> useInterop mc2 = false ->
  operator_call mc1 = Some r1 ->
  exists r2 : marching_cube,
    operator_call mc2 = Some r2 /\
    case_index r2 = case_index r1 /\ num_vertices r2 = num_vertices r1 /\
    valid_cell_enum r2 = valid_cell_enum r1 /\
    vertices r2 = vertices r1 /\ normals r2 = normals r1 /\
    ((exists n : Z, Thrust.back (valid_cell_enum r1) = Some n /\ n <> 0) ->
     valid_cell_indices r2 = valid_cell_indices r1 /\
     output_vertices_enum r2 = output_vertices_enum r1 /\
     num_total_vertices r2 = num_total_vertices r1).
Proof. apply operator_call_independent. Qed.

(** X9: an extraction is idempotent: run again on the surface it has left,
    with nothing changed in between, it leaves that very surface. *)
Theorem X9_extraction_idempotent (mc mc' : marching_cube) :
  operator_call mc = Some mc' -> operator_call mc' = Some mc'.
Proof.
  intros Hrun.
  pose proof (operator_call_cells _ _ Hrun) as Hcells.
  destruct (operator_call_keeps _ _ Hrun)
    as (Hin & Hsrc & Hiso & Hdis & Hint & Hsc).
  assert (Hcells' : 0 < NCells (input mc')) by (by rewrite Hin).
  destruct (NCells_positive_dims _ Hcells) as [H0 H1].
  destruct (operator_call_spec mc Hcells)
    as (cls & r1 & Hcls1 & _ & Hall & Hrun1 & _ & _ & Hci1 & Hnv1 & Hen1
        & Hb1 & Hz1 & Hv1).
  rewrite Hrun in Hrun1. injection Hrun1 as <-.
  destruct (operator_call_spec mc' Hcells')
    as (cls2 & r2 & Hcls2 & _ & _ & Hrun2 & _ & _ & Hci2 & Hnv2 & Hen2
        & Hb2 & Hz2 & Hv2).
  rewrite Hin, Hiso, Hdis in Hcls2.
  rewrite Hcls1 in Hcls2. injection Hcls2 as <-.
  destruct (operator_call_keeps _ _ Hrun2)
    as (Hin2 & Hsrc2 & Hiso2 & Hdis2 & Hint2 & Hsc2).
  rewrite Hrun2. f_equal.
  assert (Hfields :
    vertices r2 = vertices mc' /\ normals r2 = normals mc' /\
    scalars r2 = scalars mc' /\
    num_total_vertices r2 = num_total_vertices mc' /\
    valid_cell_indices r2 = valid_cell_indices mc' /\
    output_vertices_enum r2 = output_vertices_enum mc').
  { destruct (decide (Reference.count_nonzero cls.*2 = 0)) as [Hz|Hnz].
    - destruct (Hz1 Hz) as (-> & -> & -> & _).
      destruct (Hz2 Hz) as (-> & -> & -> & -> & -> & ->). done.
    - destruct (Hv1 Hnz) as (Hc1 & Ho1 & Ht1 & Hkeep1 & Hg1).
      destruct (Hv2 Hnz) as (Hc2 & Ho2 & Ht2 & Hkeep2 & Hg2).
      assert (Hs : scalars r2 = scalars mc').
      { destruct Hsc2 as [->|[_ Hb0]]; [done|].
        rewrite Hb2 in Hb0. injection Hb0 as Hb0. done. }
      rewrite Hc1, Hc2, Ho1, Ho2, Ht1, Ht2, Hs.
      destruct (useInterop mc) eqn:Hi.
      + rewrite Hint in Hkeep2. destruct (Hkeep2 eq_refl) as [-> ->]. done.
      + rewrite Hint in Hg2. destruct (Hg2 eq_refl) as (Hgen2 & _).
        destruct (Hg1 eq_refl) as (Hgen1 & _).
        rewrite Hin, Hiso in Hgen2.
        pose proof (generate_geometry_independent _ _ _ _ _ _ _ _ _
                      H0 H1 Hall Hgen1 Hgen2) as Heq.
        injection Heq as -> ->. done. }
  destruct Hfields as (Hv & Hn & Hs & Ht & Hc & Ho).
  rewrite <- Hci1 in Hci2. rewrite <- Hnv1 in Hnv2. rewrite <- Hen1 in Hen2.
  destruct r2, mc'. cbn in *. congruence.
Qed.

(** X10: releasing memory with [freeMemory] between two extractions does
    not change what the next extraction with [useInterop] false outputs:
    the vertices, the normals, [num_total_vertices], the case indices and
    the vertex counts are those of an extraction run without the release. *)
Theorem X10_freeMemory_then_extract (mc : marching_cube)
    (includeInput : bool) :
  useInterop mc = false ->
  (fun r => (vertices r, normals r, num_total_vertices r, case_index r,
             num_vertices r))
    <$> operator_call (freeMemory includeInput mc)
  = (fun r => (vertices r, normals r, num_total_vertices r, case_index r,
               num_vertices r))
      <$> operator_call mc.
Proof.
  intros Hint.
  destruct (decide (0 < NCells (input mc))) as [Hcells|Hcells].
  2:{ rewrite !operator_call_no_cells by (cbn; lia). done. }
  destruct (operator_call_spec mc Hcells)
    as (cls & r1 & _ & _ & _ & Hrun1 & _ & _ & Hci1 & Hnv1 & Hen1
        & Hb1 & Hz1 & Hv1).
  destruct (operator_call_independent mc (freeMemory includeInput mc)
              r1) as (r2 & Hrun2 & Hci & Hnv & Hen & Hv & Hn & Hvalid);
    try done.
  rewrite Hrun1, Hrun2. cbn [fmap option_fmap option_map].
  rewrite Hci, Hnv, Hv, Hn. do 4 f_equal.
  destruct (decide (Reference.count_nonzero cls.*2 = 0)) as [Hz|Hnz].
  - destruct (Hz1 Hz) as (_ & _ & _ & -> & _).
    destruct (operator_call_spec (freeMemory includeInput mc) Hcells)
      as (cls2 & r2' & Hcls2 & _ & _ & Hrun2' & _ & _ & _ & Hnv2 & _
          & _ & Hz2 & _).
    rewrite Hrun2 in Hrun2'. injection Hrun2' as <-.
    rewrite Hnv, Hnv1 in Hnv2.
    destruct Hz2 as (_ & _ & _ & -> & _); [by rewrite <- Hnv2|done].
  - apply Hvalid. exists (Reference.count_nonzero cls.*2). by split.
Qed.

End Independence.


Lemma X6_vertices_hold_interpolated_witness :
  exists (mc' : marching_cube) (x : float4),
    operator_call (M := CutilMath.math)
      (construct Examples.slab Examples.slab Float32.half 0) = Some mc' /\
    emitted_vertex (M := CutilMath.math) (input mc') (isovalue mc') 0 240 2
      = Some x /\
    read (vertices mc') (0 + 2) = Some x.
Proof.
  assert (Hst : (fun r => (valid_cell_enum r, valid_cell_indices r,
                           output_vertices_enum r, case_index r,
                           num_vertices r))
                  <$> operator_call (M := CutilMath.math)
                        (construct Examples.slab Examples.slab
                           Float32.half 0)
                = Some ([1], [0], [0], [240], [6]))
    by (vm_compute; reflexivity).
  destruct (operator_call (M := CutilMath.math)
              (construct Examples.slab Examples.slab Float32.half 0))
    as [mc'|] eqn:Hrun; [|discriminate Hst].
  injection Hst as He Hi Ho Hc Hn.
  destruct (X6_vertices_hold_interpolated (M := CutilMath.math)
              (construct Examples.slab Examples.slab Float32.half 0) mc'
              0%nat 0 0 240 6 2 eq_refl Hrun) as (x & Hx).
  - exists 1. rewrite He. split; [reflexivity|lia].
  - unfold zipped_tuple. rewrite Hi, Ho, Hc, Hn.
    split; [reflexivity|]. split; [reflexivity|].
    split; reflexivity.
  - lia.
  - exists mc', x. split; [reflexivity|exact Hx].
Defined.

Lemma X7_flat_shading_witness :
  exists (mc' : marching_cube) (nrm : float3),
    operator_call (M := CutilMath.math)
      (construct Examples.slab Examples.slab Float32.half 0) = Some mc' /\
    face_normal (M := CutilMath.math) (vertices mc') 0 (3 * 1) = Some nrm /\
    read (normals mc') (3 * 1) = Some nrm /\
    read (normals mc') (3 * 1 + 1) = Some nrm /\
    read (normals mc') (3 * 1 + 2) = Some nrm.
Proof.
  assert (Hst : (fun r => (valid_cell_enum r, num_total_vertices r))
                  <$> operator_call (M := CutilMath.math)
                        (construct Examples.slab Examples.slab
                           Float32.half 0)
                = Some ([1], 6))
    by (vm_compute; reflexivity).
  destruct (operator_call (M := CutilMath.math)
              (construct Examples.slab Examples.slab Float32.half 0))
    as [mc'|] eqn:Hrun; [|discriminate Hst].
  injection Hst as He Ht.
  destruct (X7_flat_shading (M := CutilMath.math)
              (construct Examples.slab Examples.slab Float32.half 0) mc' 1
              eq_refl Hrun) as (nrm & Hnrm).
  - exists 1. rewrite He. split; [reflexivity|lia].
  - lia.
  - rewrite Ht. lia.
  - exists mc', nrm. split; [reflexivity|exact Hnrm].
Defined.

Lemma X8_extraction_ignores_old_state_witness :
  exists r1 r2 : marching_cube,
    operator_call (M := CutilMath.math)
      (construct Examples.slab Examples.slab Float32.half 0) = Some r1 /\
    operator_call (M := CutilMath.math)
      (set_discardMinVals false
         (construct Examples.slab Examples.slab Float32.half 5)) = Some r2 /\
    case_index r2 = case_index r1 /\ num_vertices r2 = num_vertices r1 /\
    valid_cell_enum r2 = valid_cell_enum r1 /\
    vertices r2 = vertices r1 /\ normals r2 = normals r1 /\
    ((exists n : Z, Thrust.back (valid_cell_enum r1) = Some n /\ n <> 0) ->
     valid_cell_indices r2 = valid_cell_indices r1 /\
     output_vertices_enum r2 = output_vertices_enum r1 /\
     num_total_vertices r2 = num_total_vertices r1).
Proof.
  assert (Hst : valid_cell_enum
                  <$> operator_call (M := CutilMath.math)
                        (construct Examples.slab Examples.slab
                           Float32.half 0)
                = Some [1])
    by (vm_compute; reflexivity).
  destruct (operator_call (M := CutilMath.math)
              (construct Examples.slab Examples.slab Float32.half 0))
    as [r1|] eqn:Hrun; [|discriminate Hst].
  destruct (X8_extraction_ignores_old_state (M := CutilMath.math)
              (construct Examples.slab Examples.slab Float32.half 0)
              (set_discardMinVals false
                 (construct Examples.slab Examples.slab Float32.half 5))
              r1 eq_refl eq_refl eq_refl eq_refl Hrun) as (r2 & H).
  exists r1, r2. split; [reflexivity|exact H].
Defined.

Lemma X9_extraction_idempotent_witness :
  exists mc' : marching_cube,
    operator_call (M := CutilMath.math)
      (construct Examples.slab Examples.slab Float32.half 0) = Some mc' /\
    operator_call (M := CutilMath.math) mc' = Some mc'.
Proof.
  assert (Hst : valid_cell_enum
                  <$> operator_call (M := CutilMath.math)
                        (construct Examples.slab Examples.slab
                           Float32.half 0)
                = Some [1])
    by (vm_compute; reflexivity).
  destruct (operator_call (M := CutilMath.math)
              (construct Examples.slab Examples.slab Float32.half 0))
    as [mc'|] eqn:Hrun; [|discriminate Hst].
  exists mc'. split; [reflexivity|].
  exact (X9_extraction_idempotent (M := CutilMath.math) _ mc' Hrun).
Defined.

Lemma X10_freeMemory_then_extract_witness :
  (fun r => (vertices r, normals r, num_total_vertices r, case_index r,
             num_vertices r))
    <$> operator_call (M := CutilMath.math)
          (freeMemory true
             (construct Examples.slab Examples.slab Float32.half 0))
  = (fun r => (vertices r, normals r, num_total_vertices r, case_index r,
               num_vertices r))
      <$> operator_call (M := CutilMath.math)
            (construct Examples.slab Examples.slab Float32.half 0).
Proof.
  exact (X10_freeMemory_then_extract (M := CutilMath.math)
           (construct Examples.slab Examples.slab Float32.half 0) true
           eq_refl).
Defined.

(** ** Sizes and untouched members *)

Lemma sum_bounds (l : list Z) (a b : Z) :
  Forall (fun x => a <= x <= b) l ->
  a * Z.of_nat (length l) <= Reference.sum l <= b * Z.of_nat (length l).
Proof.
  unfold Reference.sum.
  induction 1 as [|x l Hx _ IH]; cbn [foldr length]; lia.
Qed.

Lemma count_nonzero_le_length (l : list Z) :
  Reference.count_nonzero l <= Z.of_nat (length l).
Proof.
  unfold Reference.count_nonzero.
  pose proof (length_filter (fun n : Z => n <> 0) l). lia.
Qed.

Lemma valid_counts_bounds (cls : list (Z * Z)) :
  Forall Reference.case_entry cls ->
  Forall (fun x => 3 <= x <= 15) (Reference.valid_pairs cls).*2.
Proof.
  intros Hall. pose proof (valid_pairs_entries cls Hall) as Hent.
  apply list.Forall_fmap. eapply list.Forall_impl; [exact Hent|].
  intros [c x] (_ & Hx & Hmod). cbn [snd] in *.
  pose proof (Z.div_mod x 3). cbn. lia.
Qed.

Section Sizes.
Context {M : PistonMath}.

(** X11: with [useInterop] true (the interop code is compiled out), an
    extraction that finds a valid cell leaves [vertices] and [normals] as
    they were and sets [num_total_vertices] to at least 3: the count then
    says nothing of the length of the two vectors. *)
Theorem X11_interop_leaves_arrays (mc mc' : marching_cube) :
  useInterop mc = true ->
  operator_call mc = Some mc' ->
  (exists n : Z, Thrust.back (valid_cell_enum mc') = Some n /\ n <> 0) ->
  vertices mc' = vertices mc /\ normals mc' = normals mc /\
  3 <= num_total_vertices mc'.
Proof.
  intros Hint Hrun (n & Hn & Hn0).
  pose proof (operator_call_cells _ _ Hrun) as Hcells.
  destruct (operator_call_spec mc Hcells)
    as (cls & r & _ & _ & Hall & Hrun' & _ & _ & _ & _ & _ & Hb & _ & Hv).
  rewrite Hrun in Hrun'. injection Hrun' as <-.
  rewrite Hn in Hb. injection Hb as ->.
  destruct (Hv Hn0) as (_ & _ & Ht & Hkeep & _).
  destruct (Hkeep Hint) as [-> ->]. split; [done|]. split; [done|].
  rewrite Ht.
  pose proof (valid_counts_bounds cls Hall) as Hb.
  pose proof (sum_bounds _ _ _ Hb) as Hs.
  rewrite length_fmap, length_valid_pairs in Hs.
  pose proof (count_nonzero_nonneg cls.*2). lia.
Qed.

(** X12: after an extraction that finds [n] valid cells, [n > 0],
    [num_total_vertices] lies between [3 * n] and [15 * n], and [n] is at
    most the number of cells: 15 vertices per cell bound every output. *)
Theorem X12_vertex_total_bounds (mc mc' : marching_cube) (n : Z) :
  operator_call mc = Some mc' ->
  Thrust.back (valid_cell_enum mc') = Some n -> n <> 0 ->
  0 < n <= NCells (input mc) /\
  3 * n <= num_total_vertices mc' <= 15 * n.
Proof.
  intros Hrun Hn Hn0.
  pose proof (operator_call_cells _ _ Hrun) as Hcells.
  destruct (operator_call_spec mc Hcells)
    as (cls & r & _ & Hlen & Hall & Hrun' & _ & _ & _ & _ & _ & Hb & _ & Hv).
  rewrite Hrun in Hrun'. injection Hrun' as <-.
  rewrite Hn in Hb. injection Hb as ->.
  destruct (Hv Hn0) as (_ & _ & Ht & _).
  rewrite Ht.
  pose proof (valid_counts_bounds cls Hall) as Hb.
  pose proof (sum_bounds _ _ _ Hb) as Hs.
  rewrite length_fmap, length_valid_pairs in Hs.
  pose proof (count_nonzero_nonneg cls.*2).
  pose proof (count_nonzero_le_length cls.*2) as Hle.
  rewrite length_fmap in Hle. lia.
Qed.

(** X13: an extraction never stores a scalar: [scalars] is left as it was
    when a valid cell is found and cleared when none is, so it never grows
    and stays empty on a surface that was constructed with it empty. *)
Theorem X13_scalars_never_written (mc mc' : marching_cube) :
  operator_call mc = Some mc' ->
  exists n : Z,
    Thrust.back (valid_cell_enum mc') = Some n /\
    (n <> 0 -> scalars mc' = scalars mc) /\
    (n = 0 -> scalars mc' = []) /\
    (length (scalars mc') <= length (scalars mc))%nat.
Proof.
  intros Hrun.
  pose proof (operator_call_cells _ _ Hrun) as Hcells.
  destruct (operator_call_spec mc Hcells)
    as (cls & r & _ & _ & _ & Hrun' & _ & _ & _ & _ & _ & Hb & Hz & _).
  rewrite Hrun in Hrun'. injection Hrun' as <-.
  destruct (operator_call_keeps _ _ Hrun) as (_ & _ & _ & _ & _ & Hsc).
  exists (Reference.count_nonzero cls.*2). split; [done|].
  split; [|split].
  - intros Hn0. destruct Hsc as [Hs|[_ Hb0]]; [done|].
    rewrite Hb in Hb0. by injection Hb0.
  - intros Hn0. by destruct (Hz Hn0) as (_ & _ & -> & _).
  - destruct Hsc as [->|[-> _]]; cbn [length]; lia.
Qed.

End Sizes.

Lemma X11_interop_leaves_arrays_witness :
  exists mc' : marching_cube,
    operator_call (M := CutilMath.math)
      (set_useInterop true
         (construct Examples.slab Examples.slab Float32.half 0)) = Some mc' /\
    vertices mc' = [] /\ normals mc' = [] /\ 3 <= num_total_vertices mc'.
Proof.
  assert (Hst : valid_cell_enum
                  <$> operator_call (M := CutilMath.math)
                        (set_useInterop true
                           (construct Examples.slab Examples.slab
                              Float32.half 0))
                = Some [1])
    by (vm_compute; reflexivity).
  destruct (operator_call (M := CutilMath.math)
              (set_useInterop true
                 (construct Examples.slab Examples.slab Float32.half 0)))
    as [mc'|] eqn:Hrun; [|discriminate Hst].
  injection Hst as He.
  exists mc'. split; [reflexivity|].
  apply (X11_interop_leaves_arrays (M := CutilMath.math)
           (set_useInterop true
              (construct Examples.slab Examples.slab Float32.half 0))
           mc' eq_refl Hrun).
  exists 1. rewrite He. split; [reflexivity|lia].
Defined.

Lemma X12_vertex_total_bounds_witness :
  exists mc' : marching_cube,
    operator_call (M := CutilMath.math)
      (construct Examples.slab Examples.slab Float32.half 0) = Some mc' /\
    0 < 1 <= NCells Examples.slab /\
    3 * 1 <= num_total_vertices mc' <= 15 * 1.
Proof.
  assert (Hst : valid_cell_enum
                  <$> operator_call (M := CutilMath.math)
                        (construct Examples.slab Examples.slab
                           Float32.half 0)
                = Some [1])
    by (vm_compute; reflexivity).
  destruct (operator_call (M := CutilMath.math)
              (construct Examples.slab Examples.slab Float32.half 0))
    as [mc'|] eqn:Hrun; [|discriminate Hst].
  injection Hst as He.
  exists mc'. split; [reflexivity|].
  apply (X12_vertex_total_bounds (M := CutilMath.math)
           (construct Examples.slab Examples.slab Float32.half 0)
           mc' 1 Hrun).
  - rewrite He. reflexivity.
  - lia.
Defined.

Lemma X13_scalars_never_written_witness :
  exists mc' : marching_cube,
    operator_call (M := CutilMath.math)
      (construct Examples.slab Examples.slab Float32.half 0) = Some mc' /\
    exists n : Z,
      Thrust.back (valid_cell_enum mc') = Some n /\
      (n <> 0 -> scalars mc' = []) /\
      (n = 0 -> scalars mc' = []) /\
      (length (scalars mc') <= 0)%nat.
Proof.
  assert (Hst : valid_cell_enum
                  <$> operator_call (M := CutilMath.math)
                        (construct Examples.slab Examples.slab
                           Float32.half 0)
                = Some [1])
    by (vm_compute; reflexivity).
  destruct (operator_call (M := CutilMath.math)
              (construct Examples.slab Examples.slab Float32.half 0))
    as [mc'|] eqn:Hrun; [|discriminate Hst].
  exists mc'. split; [reflexivity|].
  exact (X13_scalars_never_written (M := CutilMath.math)
           (construct Examples.slab Examples.slab Float32.half 0)
           mc' Hrun).
Defined.


(** ** A sample at the isovalue *)

Lemma binary_round_aux_not_nan (s : bool) (m : positive) (e : Z)
    (l : location) :
  emin Float32.prec Float32.emax <= e ->
  Float32.is_nan
    (binary_round_aux Float32.prec Float32.emax s (Z.pos m) e l) = false.
Proof.
  intros He. unfold binary_round_aux.
  destruct (shr_fexp_positive m e l He) as [Hm1 He1].
  destruct (shr_fexp Float32.prec Float32.emax (Z.pos m) e l)
    as [mrs1 e1]. cbn [fst snd] in Hm1, He1.
  pose proof (round_nearest_even_positive (shr_m mrs1)
                (loc_of_shr_record mrs1) Hm1) as Hr.
  destruct (round_nearest_even (shr_m mrs1) (loc_of_shr_record mrs1))
    as [|m2|m2]; try lia.
  destruct (shr_fexp_positive m2 e1 loc_Exact He1) as [Hm2 _].
  destruct (shr_fexp Float32.prec Float32.emax (Z.pos m2) e1 loc_Exact)
    as [mrs2 e2]. cbn [fst] in Hm2.
  destruct (shr_m mrs2); try lia.
  by destruct (Z.leb e2 (Float32.emax - Float32.prec)).
Qed.

Lemma binary_normalize_not_nan (m e : Z) (s : bool) :
  emin Float32.prec Float32.emax <= e ->
  Float32.is_nan (binary_normalize Float32.prec Float32.emax m e s) = false.
Proof.
  intros He.
  assert (Hround : forall (sx : bool) (p : positive),
    Float32.is_nan (binary_round Float32.prec Float32.emax sx p e) = false).
  { intros sx p. unfold binary_round, shl_align.
    destruct (fexp Float32.prec Float32.emax (Z.pos (digits2_pos p) + e) - e)
      eqn:Hd; apply binary_round_aux_not_nan; try done.
    unfold fexp. lia. }
  destruct m; [done|apply Hround..].
Qed.

(** The difference of a number that is neither NaN nor an infinity with
    itself is a zero. *)
Lemma sub_diag_zero (x : float) :
  Float32.is_nan x = false -> is_infinity x = false ->
  Float32.is_zero (Float32.sub x x) = true.
Proof.
  destruct x as [s|s| |s m e]; try done.
  - by destruct s.
  - intros _ _. unfold Float32.sub. cbn [SFsub]. by rewrite Z.sub_diag.
Qed.

(** The difference of a number that is not NaN and a finite one is not
    NaN. *)
Lemma sub_not_nan (x y : float) :
  Float32.valid x = true -> Float32.valid y = true ->
  Float32.is_nan x = false ->
  Float32.is_nan y = false -> is_infinity y = false ->
  Float32.is_nan (Float32.sub x y) = false.
Proof.
  intros Hx Hy.
  destruct x as [sx|sx| |sx mx ex], y as [sy|sy| |sy my ey]; try done;
    try (by destruct sx, sy).
  intros _ _ _. cbn [Float32.valid valid_binary] in Hx, Hy.
  pose proof (bounded_emin _ _ Hx). pose proof (bounded_emin _ _ Hy).
  unfold Float32.sub. cbn [SFsub]. apply binary_normalize_not_nan. lia.
Qed.

Lemma gt_irrefl (x : float) : Float32.gt x x = false.
Proof.
  unfold Float32.gt, SFltb.
  destruct x as [s|s| |s m e]; try done; try (by destruct s).
  cbn [SFcompare].
  destruct s; rewrite Z.compare_refl; by rewrite Pos.compare_cont_refl.
Qed.

(** X14: when the sample at corner [v0] of an edge is the isovalue itself
    (so that the corner is classified as not above) and the sample at [v1]
    is above it, the interpolation factor
    [(isovalue - f[v0]) / (f[v1] - f[v0])] is a zero: the denominator is
    neither a zero nor NaN. *)
Theorem X14_factor_zero_at_sample (isovalue fv1 : float) :
  Float32.valid isovalue = true -> Float32.valid fv1 = true ->
  Float32.is_nan isovalue = false -> is_infinity isovalue = false ->
  Float32.gt fv1 isovalue = true ->
  Float32.is_zero (interp_factor isovalue isovalue fv1) = true /\
  Float32.is_zero (Float32.sub fv1 isovalue) = false /\
  Float32.is_nan (Float32.sub fv1 isovalue) = false.
Proof.
  intros Hi Hf Hnan Hinf Hgt.
  assert (Hnz : Float32.is_zero (Float32.sub fv1 isovalue) = false).
  { destruct (Float32.is_zero (Float32.sub fv1 isovalue)) eqn:Hz; [|done].
    pose proof (sub_zero_same_class fv1 isovalue isovalue Hf Hi Hz) as Heq.
    rewrite Hgt, gt_irrefl in Heq. discriminate. }
  assert (Hnn : Float32.is_nan (Float32.sub fv1 isovalue) = false).
  { apply sub_not_nan; try done. by destruct fv1, isovalue. }
  split; [|done].
  pose proof (sub_diag_zero isovalue Hnan Hinf) as Hz.
  unfold interp_factor, Float32.div.
  destruct (Float32.sub isovalue isovalue) as [s| | |]; try discriminate.
  by destruct (Float32.sub fv1 isovalue).
Qed.

Lemma X14_factor_zero_at_sample_witness :
  Float32.is_zero (interp_factor Float32.half Float32.half Float32.one)
    = true /\
  Float32.is_zero (Float32.sub Float32.one Float32.half) = false /\
  Float32.is_nan (Float32.sub Float32.one Float32.half) = false.
Proof.
  apply (X14_factor_zero_at_sample Float32.half Float32.one);
    reflexivity.
Defined.


(** ** The benchmark loop *)

Section BenchmarkLoop.
Context {M : PistonMath}.

(** Over a grid with cells the loop runs to its end, prints one line per
    iteration with the isovalues of [Benchmark.isovalues], and keeps the
    input and the flags of the surface. *)
Lemma sweep_Some (n : nat) (isovalue : float) (mc : marching_cube) :
  0 < NCells (input mc) ->
  exists (lines : list (float * Z)) (mc' : marching_cube),
    Benchmark.sweep n isovalue mc = Some (lines, mc') /\
    lines.*1 = Benchmark.isovalues n isovalue /\
    input mc' = input mc /\ useInterop mc' = useInterop mc.
Proof.
  revert isovalue mc.
  induction n as [|n IH]; intros isovalue mc Hcells.
  { by exists [], mc. }
  cbn [Benchmark.sweep Benchmark.isovalues].
  destruct (operator_call_spec
              (set_isovalue (Benchmark.add isovalue Benchmark.ISO_STEP) mc)
              Hcells)
    as (cls & r & _ & _ & _ & Hrun & Hin & _).
  rewrite Hrun. cbn [mbind option_bind].
  destruct (operator_call_keeps _ _ Hrun) as (_ & _ & _ & _ & Hint & _).
  cbn [input useInterop set_isovalue] in Hin, Hint.
  destruct (IH (Benchmark.add isovalue Benchmark.ISO_STEP) r)
    as (lines & mc' & Hsweep & Hiso & Hin' & Hint').
  { by rewrite Hin. }
  rewrite Hsweep. cbn [mbind option_bind fst snd].
  eexists _, mc'. split; [reflexivity|].
  cbn [fmap list_fmap fst]. rewrite <- Hiso.
  split; [done|]. split; congruence.
Qed.

(** Every line but those of iterations that find a valid cell repeats the
    count of the line before it. *)
Lemma sweep_counts (n : nat) (isovalue : float) (mc mc' : marching_cube)
    (lines : list (float * Z)) :
  Benchmark.sweep n isovalue mc = Some (lines, mc') ->
  forall (k : nat) (cnt : Z),
    lines.*2 !! k = Some cnt ->
    (3 <= cnt /\ cnt `mod` 3 = 0) \/
    (num_total_vertices mc :: lines.*2) !! k = Some cnt.
Proof.
  revert isovalue mc lines.
  induction n as [|n IH]; intros isovalue mc lines Hsweep k cnt Hk.
  { injection Hsweep as <- _. done. }
  cbn [Benchmark.sweep] in Hsweep.
  destruct (operator_call _) as [r|] eqn:Hrun; [|discriminate].
  cbn [mbind option_bind] in Hsweep.
  destruct (Benchmark.sweep n _ r) as [[lines' mc'']|] eqn:Hrest;
    [|discriminate].
  cbn [mbind option_bind fst snd] in Hsweep. injection Hsweep as <- <-.
  cbn [fmap list_fmap snd] in Hk |- *.
  destruct k as [|k].
  - cbn in Hk. injection Hk as <-.
    pose proof (operator_call_cells _ _ Hrun) as Hcells.
    destruct (operator_call_spec _ Hcells)
      as (cls & r' & _ & _ & Hall & Hrun' & _ & _ & _ & _ & _ & _ & Hz & Hv).
    rewrite Hrun in Hrun'. injection Hrun' as <-.
    destruct (decide (Reference.count_nonzero cls.*2 = 0)) as [Hn|Hn].
    + right. destruct (Hz Hn) as (_ & _ & _ & -> & _). done.
    + left. destruct (Hv Hn) as (_ & _ & -> & _).
      pose proof (valid_counts_bounds cls Hall) as Hb.
      pose proof (sum_bounds _ _ _ Hb) as Hs.
      rewrite length_fmap, length_valid_pairs in Hs.
      pose proof (count_nonzero_nonneg cls.*2).
      split; [lia|].
      apply sum_multiple_of_3, valid_counts_multiples, Hall.
  - cbn in Hk.
    destruct (IH _ _ _ Hrest k cnt Hk) as [H|H]; [by left|by right].
Qed.

(** X15: over a field with at least one cell, the timed pass of the
    benchmark runs its fifteen extractions and prints fifteen lines, whose
    isovalues are 15, 14, ..., 1 in this order; the surface it leaves is
    over the same field. *)
Theorem X15_benchmark_isovalues (field : image3d) (indeterminate : Z) :
  0 < NCells field ->
  exists (lines : list (float * Z)) (mc' : marching_cube),
    Benchmark.timed_pass field indeterminate = Some (lines, mc') /\
    lines.*1 = Examples.of_int
                 <$> [15; 14; 13; 12; 11; 10; 9; 8; 7; 6; 5; 4; 3; 2; 1] /\
    input mc' = field.
Proof.
  intros Hcells. unfold Benchmark.timed_pass.
  destruct (sweep_Some (Z.to_nat Benchmark.ISO_NUM) Benchmark.ISO_START
              (construct field field Benchmark.ISO_START indeterminate)
              Hcells) as (lines & mc' & Hsweep & Hiso & Hin & _).
  exists lines, mc'. split; [done|]. split; [|done].
  rewrite Hiso. vm_compute. reflexivity.
Qed.

(** X16: every count printed by the timed pass of the benchmark is either
    a multiple of 3 that is at least 3, or the count printed on the line
    before it; on the first line, the value [num_total_vertices] had when
    the surface was constructed, which the constructor does not set. *)
Theorem X16_benchmark_counts (field : image3d) (indeterminate : Z)
    (lines : list (float * Z)) (mc' : marching_cube) (k : nat) (cnt : Z) :
  Benchmark.timed_pass field indeterminate = Some (lines, mc') ->
  lines.*2 !! k = Some cnt ->
  (3 <= cnt /\ cnt `mod` 3 = 0) \/
  (indeterminate :: lines.*2) !! k = Some cnt.
Proof.
  intros Hpass Hk.
  exact (sweep_counts _ _ _ _ _ Hpass k cnt Hk).
Qed.


End BenchmarkLoop.

Lemma X15_benchmark_isovalues_witness :
  0 < NCells Examples.slab /\
  exists (lines : list (float * Z)) (mc' : marching_cube),
    Benchmark.timed_pass (M := CutilMath.math) Examples.slab 7
      = Some (lines, mc') /\
    lines.*1 = Examples.of_int
                 <$> [15; 14; 13; 12; 11; 10; 9; 8; 7; 6; 5; 4; 3; 2; 1] /\
    input mc' = Examples.slab.
Proof.
  split; [unfold NCells; simpl; lia|].
  apply (X15_benchmark_isovalues (M := CutilMath.math) Examples.slab 7).
  unfold NCells. simpl. lia.
Defined.

Lemma X16_benchmark_counts_witness :
  exists (lines : list (float * Z)) (mc' : marching_cube),
    Benchmark.timed_pass (M := CutilMath.math) step_field 7
      = Some (lines, mc') /\
    lines.*2 !! 11%nat = Some 7 /\
    ((3 <= 7 /\ 7 `mod` 3 = 0) \/ (7 :: lines.*2) !! 11%nat = Some 7).
Proof.
  assert (Hst : (fun r => r.1.*2)
                  <$> Benchmark.timed_pass (M := CutilMath.math) step_field 7
                = Some [7; 7; 7; 7; 7; 7; 7; 7; 7; 7; 7; 7; 6; 6; 6])
    by (vm_compute; reflexivity).
  destruct (Benchmark.timed_pass (M := CutilMath.math) step_field 7)
    as [[lines mc']|] eqn:Hpass; [|discriminate Hst].
  injection Hst as Hl. cbn [fst] in Hl.
  assert (Hk : lines.*2 !! 11%nat = Some 7) by (rewrite Hl; reflexivity).
  exists lines, mc'. split; [reflexivity|]. split; [exact Hk|].
  exact (X16_benchmark_counts (M := CutilMath.math) step_field 7 lines mc'
           11 7 Hpass Hk).
Defined.



(** ** Not-a-number isovalues and the per-cell vectors *)

Lemma gt_nan (x isovalue : float) :
  Float32.is_nan isovalue = true -> Float32.gt x isovalue = false.
Proof. destruct isovalue; try discriminate. by destruct x. Qed.

Lemma classify_cell_nan (input : image3d) (isovalue : float)
    (discardMinVals : bool) (id : Z) (cn : Z * Z) :
  Float32.is_nan isovalue = true ->
  classify_cell input isovalue discardMinVals Tables.numVertsTable id
    = Some cn ->
  cn = (0, 0).
Proof.
  intros Hnan. unfold classify_cell.
  destruct (int_rem id (dim0 input - 1)) as [x|]; [|discriminate].
  destruct (int_quot id (dim0 input - 1)) as [q|]; [|discriminate].
  cbn [mbind option_bind].
  destruct (int_rem q (dim1 input - 1)) as [y|]; [|discriminate].
  destruct (int_quot id ((dim0 input - 1) * (dim1 input - 1))) as [z|];
    [|discriminate].
  cbn [mbind option_bind]. unfold cubeindex_of.
  rewrite !(gt_nan _ _ Hnan). cbn. by intros [= <-].
Qed.

Lemma length_inclusive_scan_from (acc : Z) (l : list Z) :
  length (Thrust.inclusive_scan_from acc l) = length l.
Proof.
  revert acc. induction l as [|x l IH]; intros acc; [done|].
  cbn [Thrust.inclusive_scan_from length]. by rewrite IH.
Qed.

Section PerCell.
Context {M : PistonMath}.

(** X18: with a NaN isovalue no sample counts as above it: an extraction
    over a grid with cells gives every cell the case index 0 and the vertex
    count 0, empties [vertices], [normals] and [scalars], and returns
    before [num_total_vertices] is assigned. *)
Theorem X18_nan_isovalue (mc : marching_cube) :
  Float32.is_nan (isovalue mc) = true ->
  0 < NCells (input mc) ->
  exists mc' : marching_cube,
    operator_call mc = Some mc' /\
    Forall (fun c => c = 0) (case_index mc') /\
    Forall (fun n => n = 0) (num_vertices mc') /\
    vertices mc' = [] /\ normals mc' = [] /\ scalars mc' = [] /\
    num_total_vertices mc' = num_total_vertices mc.
Proof.
  intros Hnan Hn.
  destruct (classify_cells_Some (input mc) (isovalue mc) (discardMinVals mc)
              Hn) as (cls0 & Hcls0 & _ & _ & Hcells).
  destruct (operator_call_spec mc Hn)
    as (cls & mc' & Hcls & _ & _ & Hrun & _ & _ & Hci & Hnv & _ & _
        & Hzero & _).
  rewrite Hcls0 in Hcls. injection Hcls as <-.
  assert (Hall : Forall (fun cn => cn = (0, 0)) cls0).
  { apply Forall_lookup. intros k cn Hk.
    destruct (Forall2_lookup_r _ _ _ _ _ Hcells Hk) as (id & _ & Hid).
    by apply (classify_cell_nan _ _ _ _ _ Hnan Hid). }
  assert (Hcs : Forall (fun c => c = 0) cls0.*1).
  { apply list.Forall_fmap. eapply list.Forall_impl; [exact Hall|].
    by intros cn ->. }
  assert (Hns : Forall (fun n => n = 0) cls0.*2).
  { apply list.Forall_fmap. eapply list.Forall_impl; [exact Hall|].
    by intros cn ->. }
  exists mc'. rewrite Hci, Hnv. split; [done|]. split; [done|].
  split; [done|].
  destruct Hzero as (Hv & Hnrm & Hsc & Htotal & _);
    [by apply count_nonzero_zeros|done].
Qed.

(** X19: whatever path an extraction takes, it leaves [case_index],
    [num_vertices] and [valid_cell_enum] with one element per cell; every
    case index is an 8-bit value, and every vertex count is the entry of
    the vertex count table at the case index of its cell, a multiple of 3
    not above 15. *)
Theorem X19_per_cell_vectors (mc mc' : marching_cube) :
  operator_call mc = Some mc' ->
  Z.of_nat (length (case_index mc')) = NCells (input mc) /\
  Z.of_nat (length (num_vertices mc')) = NCells (input mc) /\
  Z.of_nat (length (valid_cell_enum mc')) = NCells (input mc) /\
  Forall2 (fun c n => 0 <= c < 256 /\
                      read Tables.numVertsTable c = Some n /\
                      0 <= n <= 15 /\ n `mod` 3 = 0)
    (case_index mc') (num_vertices mc').
Proof.
  intros Hrun.
  pose proof (operator_call_cells _ _ Hrun) as Hcells.
  destruct (operator_call_spec mc Hcells)
    as (cls & r & _ & Hlen & Hall & Hrun' & _ & _ & Hci & Hnv & Hen & _).
  rewrite Hrun in Hrun'. injection Hrun' as <-.
  rewrite Hci, Hnv, Hen.
  unfold enumerate_valid_cells, Thrust.transform_inclusive_scan.
  rewrite length_inclusive_scan_from, !length_fmap.
  split; [done|]. split; [done|]. split; [done|].
  apply Forall2_fmap, Forall_Forall2_diag.
  eapply list.Forall_impl; [exact Hall|].
  intros [c n] [Hc Hread]. cbn [fst snd] in *.
  destruct (case_crosses_spec c Hc) as (n' & Hn' & Hrange & H3 & _).
  rewrite Hread in Hn'. injection Hn' as <-. done.
Qed.

End PerCell.

Lemma X18_nan_isovalue_witness :
  Float32.is_nan Float32.nan = true /\
  exists mc' : marching_cube,
    operator_call (M := CutilMath.math)
      (construct Examples.slab Examples.slab Float32.nan 7) = Some mc' /\
    Forall (fun c => c = 0) (case_index mc') /\
    Forall (fun n => n = 0) (num_vertices mc') /\
    vertices mc' = [] /\ normals mc' = [] /\ scalars mc' = [] /\
    num_total_vertices mc' = 7.
Proof.
  split; [reflexivity|].
  apply (X18_nan_isovalue (M := CutilMath.math)
           (construct Examples.slab Examples.slab Float32.nan 7)).
  - reflexivity.
  - unfold NCells. simpl. lia.
Defined.

Lemma X19_per_cell_vectors_witness :
  exists mc' : marching_cube,
    operator_call (M := CutilMath.math)
      (construct Examples.slab Examples.slab Float32.half 0) = Some mc' /\
    Z.of_nat (length (case_index mc')) = NCells Examples.slab /\
    Z.of_nat (length (num_vertices mc')) = NCells Examples.slab /\
    Z.of_nat (length (valid_cell_enum mc')) = NCells Examples.slab /\
    Forall2 (fun c n => 0 <= c < 256 /\
                        read Tables.numVertsTable c = Some n /\
                        0 <= n <= 15 /\ n `mod` 3 = 0)
      (case_index mc') (num_vertices mc').
Proof.
  assert (Hst : valid_cell_enum
                  <$> operator_call (M := CutilMath.math)
                        (construct Examples.slab Examples.slab
                           Float32.half 0)
                = Some [1])
    by (vm_compute; reflexivity).
  destruct (operator_call (M := CutilMath.math)
              (construct Examples.slab Examples.slab Float32.half 0))
    as [mc'|] eqn:Hrun; [|discriminate Hst].
  exists mc'. split; [reflexivity|].
  exact (X19_per_cell_vectors (M := CutilMath.math)
           (construct Examples.slab Examples.slab Float32.half 0)
           mc' Hrun).
Defined.
